(** * AI-Health-Journal: the journal parsing pipeline

    A shallow embedding of [controllers/aiController.js] (the handlers
    [parseJournalEntry], [getProcessingStatus] and [retryProcessing]) together
    with the Mongoose schemas the handlers write through
    ([models/Journal.js], [models/Meal.js], [models/Medicine.js],
    [models/BodyStat.js], [models/Test.js]) and the request validation
    [aiValidation] of [middleware/validate.js].

    Of [controllers/journalController.js]: the handlers [getJournals],
    [getJournal] and [deleteJournal], and the figures [getJournalStats] and
    [getJournalSummary] compute from the status, the words and the tags of
    the entries found; of [models/Journal.js] also the virtuals [wordCount]
    and [readingTime]; of [controllers/mealController.js] the totals and the
    groups [getDailySummary] and [getMealStats] compute from the meals
    found.

    Conventions.
    - A path that may be missing from a JavaScript object is an [option];
      [None] is [undefined].
    - JavaScript numbers are the finite doubles, held as rationals ([Q]);
      a rational that is not a double stands for the double nearest to it,
      which is what [JSON.parse] makes of a numeral.  Comparisons are
      exact.  [JS.add] is the addition of doubles: the exact sum of the
      operands, rounded to the nearest double, to the even one of two that
      are as near.  A sum beyond the largest double, which JavaScript makes
      [Infinity], is outside the model.
    - Strings are ASCII text.
    - Object ids are natural numbers, dates binary natural numbers.
    - The handlers run in a state-and-exception monad over the database;
      every database write of the pipeline also leaves an observation (the
      event and the database right after it) in a log, so that the order of
      writes and the intermediate states can be stated.  [deleteJournal]
      leaves none.
    - [Model.create] applies the schema's setters and defaults, its
      validators and its save hooks; [findByIdAndUpdate] applies the setters
      of the listed paths and runs neither validators nor hooks.  The only
      setter the schemas declare is [trim].
    - Database operations fail only by schema validation. *)

From Stdlib Require Import QArith Qround Lia Ascii String.
From stdpp Require Import gmap strings list fin_maps pretty sorting.

(** ** JavaScript values *)

Module JS.

(** The ASCII part of ECMAScript's WhiteSpace and LineTerminator:
    TAB, LF, VT, FF, CR and SPACE. *)
Definition isWhiteSpace (c : ascii) : bool :=
  let n := nat_of_ascii c in
  ((9 <=? n)%nat && (n <=? 13)%nat) || (n =? 32)%nat.

Fixpoint trimStart (s : string) : string :=
  match s with
  | EmptyString => EmptyString
  | String c s' => if isWhiteSpace c then trimStart s' else s
  end.

Fixpoint trimEnd (s : string) : string :=
  match s with
  | EmptyString => EmptyString
  | String c s' =>
      match trimEnd s' with
      | EmptyString => if isWhiteSpace c then EmptyString else String c EmptyString
      | t => String c t
      end
  end.

(** [String.prototype.trim] *)
Definition trim (s : string) : string := trimEnd (trimStart s).

(** Truthiness of a string and of a number. *)
Definition truthy_string (s : string) : bool := negb (String.eqb s "").
Definition truthy_number (q : Q) : bool := negb (Qeq_bool q 0).

Definition truthy {A} (t : A -> bool) (x : option A) : bool :=
  match x with
  | Some v => t v
  | None => false
  end.

(** [x || d] where [x] may be undefined. *)
Definition or {A} (t : A -> bool) (x : option A) (d : A) : A :=
  match x with
  | Some v => if t v then v else d
  | None => d
  end.

Definition or_string := @or string truthy_string.
Definition or_number := @or Q truthy_number.

(** [2 ^ e] for an integer [e]. *)
Definition pow2 (e : Z) : Q :=
  if (0 <=? e)%Z then inject_Z (2 ^ e) else 1 # Z.to_pos (2 ^ (- e)).

(** The integer [e] with [2 ^ e <= q < 2 ^ (e + 1)], for a positive [q]. *)
Definition ilog2 (q : Q) : Z :=
  let e := (Z.log2 (Qnum q) - Z.log2 (Zpos (Qden q)))%Z in
  if Qle_bool (pow2 e) q then e else (e - 1)%Z.

(** The nearest integer, the even one of two that are as near. *)
Definition roundEven (q : Q) : Z :=
  let f := Qfloor q in
  match Qcompare (q - inject_Z f) (1 # 2) with
  | Lt => f
  | Gt => (f + 1)%Z
  | Eq => if Z.even f then f else (f + 1)%Z
  end.

(** The double nearest to a positive rational: 53 significant bits, the
    last of them worth at least [2 ^ -1074]. *)
Definition nearest (q : Q) : Q :=
  let e := (Z.max (ilog2 q) (-1022) - 52)%Z in
  (inject_Z (roundEven (q * pow2 (- e))) * pow2 e)%Q.

(** The double nearest to a rational, in lowest terms. *)
Definition round64 (q : Q) : Q :=
  match Qcompare (Qred q) 0 with
  | Eq => 0%Q
  | Gt => Qred (nearest (Qred q))
  | Lt => Qred (- nearest (- Qred q))
  end.

(** [x + y] on numbers: the exact sum of the two doubles, rounded. *)
Definition add (x y : Q) : Q := round64 (round64 x + round64 y).

(** [x || d] where [x] is an object (a date) or undefined: an object is
    always truthy. *)
Definition or_object {A} (x : option A) (d : A) : A := default d x.

(** [xs?.length || 0] *)
Definition length_or_0 {A} (xs : option (list A)) : nat :=
  match xs with
  | Some l => length l
  | None => 0
  end.

(** Errors that reach a [catch]: what the HTTP client rejects with, a
    [TypeError] of the runtime, and Mongoose's [ValidationError] (model
    name and the failing paths with their messages). *)
Inductive Error :=
| AxiosError (message : option string)
| TypeError (message : string)
| ValidationError (model : string) (errors : list (string * string)).

Fixpoint join (sep : string) (l : list string) : string :=
  match l with
  | [] => ""
  | [x] => x
  | x :: rest => x +:+ sep +:+ join sep rest
  end.

(** [error.message] *)
Definition message (e : Error) : option string :=
  match e with
  | AxiosError m => m
  | TypeError m => Some m
  | ValidationError model errors =>
      Some (model +:+ " validation failed: " +:+
            join ", " (map (fun pe => fst pe +:+ ": " +:+ snd pe) errors))
  end.

End JS.

Definition Date : Type := N.

(** ** The decoded structure

    The object [JSON.parse] returns for a response that follows the prompt's
    output format (aiController.js, the [systemPrompt] literal). *)

Module MealData.
Record t := {
  time : option string;
  items : option (list string);
  quantity : option string;
  calories : option Q
}.
End MealData.

Module MedicineData.
Record t := {
  name : option string;
  time : option string;
  dosage : option string
}.
End MedicineData.

Module BodyStatsData.
Record t := {
  waterIntakeLiters : option Q;
  weightKg : option Q;
  sleepHours : option Q;
  steps : option Q;
  mood : option string;
  energy : option string
}.
End BodyStatsData.

Module ReferenceRange.
Record t := {
  min : option Q;
  max : option Q;
  unit : option string
}.
End ReferenceRange.

Module TestData.
Record t := {
  testName : option string;
  result : option string;
  resultValue : option Q;
  unit : option string;
  referenceRange : option ReferenceRange.t
}.
End TestData.

Module ParsedData.
Record t := {
  meals : option (list MealData.t);
  medicines : option (list MedicineData.t);
  bodyStats : option BodyStatsData.t;
  tests : option (list TestData.t);
  notes : option string
}.
End ParsedData.

(** ** Mongoose schemas

    [init] is [new Model(doc)]: the setters of the given paths and the
    defaults of the missing ones.  [validate] lists the failing paths in
    schema order, each with the message of its first failing validator;
    [create] is [new Model(doc)] followed by [save()]: validation, then the
    [pre('save')] hooks. *)

Module Schema.

(** [trim: true] on a String path: the setter strips the white space at
    both ends of the string assigned to the path. *)
Definition trim (v : option string) : option string := JS.trim <$> v.

Definition Errors : Type := list (string * string).

Definition check (path : string) (r : option string) : Errors :=
  match r with
  | Some m => [(path, m)]
  | None => []
  end.

Definition first (a b : option string) : option string :=
  match a with
  | Some _ => a
  | None => b
  end.

(** [required: [true, msg]] on a String path: undefined and the empty
    string both fail. *)
Definition required (msg : string) (v : option string) : option string :=
  if JS.truthy JS.truthy_string v then None else Some msg.

(** [enum: values]; undefined passes. *)
Definition enum (values : list string) (path : string) (v : option string)
  : option string :=
  match v with
  | Some s =>
      if existsb (String.eqb s) values then None
      else Some ("`" +:+ s +:+ "` is not a valid enum value for path `"
                 +:+ path +:+ "`.")
  | None => None
  end.

(** [min: [bound, msg]] and [max: [bound, msg]] on a Number path. *)
Definition min (bound : Q) (msg : string) (v : option Q) : option string :=
  match v with
  | Some q => if Qle_bool bound q then None else Some msg
  | None => None
  end.

Definition max (bound : Q) (msg : string) (v : option Q) : option string :=
  match v with
  | Some q => if Qle_bool q bound then None else Some msg
  | None => None
  end.

Definition maxlength (bound : nat) (msg : string) (v : option string)
  : option string :=
  match v with
  | Some s => if (String.length s <=? bound)%nat then None else Some msg
  | None => None
  end.

(** The outcome of [Model.create]. *)
Inductive Result (A : Type) :=
| Saved (doc : A)
| Invalid (e : JS.Error).
Arguments Saved {A} doc.
Arguments Invalid {A} e.

Definition times : list string := ["morning"; "noon"; "evening"; "night"].
Definition moods : list string := ["excellent"; "good"; "okay"; "poor"; "terrible"].
Definition energies : list string := ["high"; "medium"; "low"].

(** Decimal rendering of an array index inside a path. *)
Definition index (n : nat) : string := pretty n.

End Schema.

(** models/Meal.js: [foodItemSchema] *)
Module FoodItem.

Record t := {
  name : string;
  quantity : string;
  calories : option Q;
  category : option string
}.

Definition init (d : t) : t :=
  {| name := JS.trim (name d);
     quantity := JS.trim (quantity d);
     calories := calories d;
     category := Some (default "snack" (category d)) |}.

Definition validate (prefix : string) (d : t) : Schema.Errors :=
  Schema.check (prefix +:+ "name")
    (Schema.required "Food item name is required" (Some (name d))) ++
  Schema.check (prefix +:+ "quantity")
    (Schema.required "Quantity is required" (Some (quantity d))) ++
  Schema.check (prefix +:+ "calories")
    (Schema.min 0 "Calories cannot be negative" (calories d)) ++
  Schema.check (prefix +:+ "category")
    (Schema.enum ["breakfast"; "lunch"; "dinner"; "snack"; "beverage"]
       "category" (category d)).

End FoodItem.

(** models/Meal.js: [mealSchema] *)
Module Meal.

Record t := {
  userId : nat;
  date : Date;
  time : option string;
  foodItems : list FoodItem.t;
  totalCalories : option Q;
  notes : option string;
  isFromJournal : bool;
  journalEntryId : option nat
}.

Definition init (d : t) : t :=
  {| userId := userId d;
     date := date d;
     time := Some (default "morning" (time d));
     foodItems := map FoodItem.init (foodItems d);
     totalCalories := Some (default 0%Q (totalCalories d));
     notes := Schema.trim (notes d);
     isFromJournal := isFromJournal d;
     journalEntryId := journalEntryId d |}.

Definition validate (d : t) : Schema.Errors :=
  Schema.check "time"
    (Schema.first (Schema.required "Time is required" (time d))
                  (Schema.enum Schema.times "time" (time d))) ++
  concat (imap (fun i item =>
                  FoodItem.validate ("foodItems." +:+ Schema.index i +:+ ".") item)
               (foodItems d)) ++
  Schema.check "totalCalories"
    (Schema.min 0 "Total calories cannot be negative" (totalCalories d)) ++
  Schema.check "notes"
    (Schema.maxlength 500 "Notes cannot exceed 500 characters" (notes d)).

(** [mealSchema.pre('save')]: "Calculate total calories before saving". *)
Definition preSave (d : t) : t :=
  match foodItems d with
  | [] => d
  | _ :: _ =>
      {| userId := userId d;
         date := date d;
         time := time d;
         foodItems := foodItems d;
         totalCalories :=
           Some (fold_left
                   (fun total item =>
                      JS.add total (JS.or_number (FoodItem.calories item) 0))
                   (foodItems d) 0%Q);
         notes := notes d;
         isFromJournal := isFromJournal d;
         journalEntryId := journalEntryId d |}
  end.

Definition create (doc : t) : Schema.Result t :=
  let d := init doc in
  match validate d with
  | [] => Schema.Saved (preSave d)
  | errors => Schema.Invalid (JS.ValidationError "Meal" errors)
  end.

End Meal.

(** models/Medicine.js: [medicineSchema].  The controller never sets
    [duration] or [endDate], so the end-date hook does nothing and the two
    paths are left out, as are [takenStatus] and [notes]. *)
Module Medicine.

Record t := {
  userId : nat;
  name : option string;
  dosage : option string;
  time : option string;
  frequency : option string;
  startDate : Date;
  isActive : option bool;
  category : option string;
  isFromJournal : bool;
  journalEntryId : option nat
}.

Definition init (d : t) : t :=
  {| userId := userId d;
     name := Schema.trim (name d);
     dosage := Schema.trim (dosage d);
     time := time d;
     frequency := Some (default "daily" (frequency d));
     startDate := startDate d;
     isActive := Some (default true (isActive d));
     category := Some (default "other" (category d));
     isFromJournal := isFromJournal d;
     journalEntryId := journalEntryId d |}.

Definition validate (d : t) : Schema.Errors :=
  Schema.check "name" (Schema.required "Medicine name is required" (name d)) ++
  Schema.check "dosage" (Schema.required "Dosage is required" (dosage d)) ++
  Schema.check "time"
    (Schema.first (Schema.required "Time to take is required" (time d))
                  (Schema.enum Schema.times "time" (time d))) ++
  Schema.check "frequency"
    (Schema.enum ["daily"; "twice-daily"; "thrice-daily"; "weekly"; "as-needed"]
       "frequency" (frequency d)) ++
  Schema.check "category"
    (Schema.enum ["antibiotic"; "painkiller"; "multivitamin"; "supplement";
                  "prescription"; "other"]
       "category" (category d)).

Definition create (doc : t) : Schema.Result t :=
  let d := init doc in
  match validate d with
  | [] => Schema.Saved d
  | errors => Schema.Invalid (JS.ValidationError "Medicine" errors)
  end.

End Medicine.

(** models/BodyStat.js: [bodyStatSchema], without the paths the controller
    never sets and that have no default ([bloodPressure], [heartRate],
    [temperature], [notes]). *)
Module BodyStat.

Record t := {
  userId : nat;
  date : Date;
  weight : option Q;
  waterIntake : option Q;
  sleepHours : option Q;
  steps : option Q;
  mood : option string;
  energy : option string;
  isFromJournal : bool;
  journalEntryId : option nat
}.

Definition init (d : t) : t :=
  {| userId := userId d;
     date := date d;
     weight := weight d;
     waterIntake := waterIntake d;
     sleepHours := sleepHours d;
     steps := steps d;
     mood := Some (default "okay" (mood d));
     energy := Some (default "medium" (energy d));
     isFromJournal := isFromJournal d;
     journalEntryId := journalEntryId d |}.

Definition validate (d : t) : Schema.Errors :=
  Schema.check "weight"
    (Schema.first (Schema.min 20 "Weight must be at least 20kg" (weight d))
                  (Schema.max 500 "Weight cannot exceed 500kg" (weight d))) ++
  Schema.check "waterIntake"
    (Schema.first
       (Schema.min 0 "Water intake cannot be negative" (waterIntake d))
       (Schema.max 50 "Water intake cannot exceed 50 liters" (waterIntake d))) ++
  Schema.check "sleepHours"
    (Schema.first (Schema.min 0 "Sleep hours cannot be negative" (sleepHours d))
                  (Schema.max 24 "Sleep hours cannot exceed 24" (sleepHours d))) ++
  Schema.check "steps" (Schema.min 0 "Steps cannot be negative" (steps d)) ++
  Schema.check "mood" (Schema.enum Schema.moods "mood" (mood d)) ++
  Schema.check "energy" (Schema.enum Schema.energies "energy" (energy d)).

Definition create (doc : t) : Schema.Result t :=
  let d := init doc in
  match validate d with
  | [] => Schema.Saved d
  | errors => Schema.Invalid (JS.ValidationError "BodyStat" errors)
  end.

End BodyStat.

(** models/Test.js: [testSchema], without [labName], [doctorName] and
    [notes], which the controller never sets. *)
Module Test.

Record t := {
  userId : nat;
  testName : option string;
  date : Date;
  result : option string;
  resultValue : option Q;
  unit : option string;
  referenceRange : option ReferenceRange.t;
  status : option string;
  category : option string;
  isFromJournal : bool;
  journalEntryId : option nat
}.

Definition init (d : t) : t :=
  {| userId := userId d;
     testName := Schema.trim (testName d);
     date := date d;
     result := Schema.trim (result d);
     resultValue := resultValue d;
     unit := Schema.trim (unit d);
     referenceRange := referenceRange d;
     status := Some (default "normal" (status d));
     category := Some (default "blood" (category d));
     isFromJournal := isFromJournal d;
     journalEntryId := journalEntryId d |}.

Definition validate (d : t) : Schema.Errors :=
  Schema.check "testName"
    (Schema.required "Test name is required" (testName d)) ++
  Schema.check "result" (Schema.required "Test result is required" (result d)) ++
  Schema.check "status"
    (Schema.enum ["normal"; "high"; "low"; "critical"; "pending"]
       "status" (status d)) ++
  Schema.check "category"
    (Schema.enum ["blood"; "urine"; "imaging"; "cardiac"; "other"]
       "category" (category d)).

(** [x < bound] where [bound] may be undefined (then false). *)
Definition lt (x : Q) (bound : option Q) : bool :=
  match bound with
  | Some b => negb (Qle_bool b x)
  | None => false
  end.

Definition gt (x : Q) (bound : option Q) : bool :=
  match bound with
  | Some b => negb (Qle_bool x b)
  | None => false
  end.

(** [testSchema.pre('save')]: "Calculate status based on result value and
    reference range".  [referenceRange] is a nested path, which reads as
    an object even when nothing was assigned to it. *)
Definition preSave (d : t) : t :=
  match resultValue d with
  | Some v =>
      if JS.truthy_number v then
        {| userId := userId d;
           testName := testName d;
           date := date d;
           result := result d;
           resultValue := resultValue d;
           unit := unit d;
           referenceRange := referenceRange d;
           status :=
             Some (if lt v (referenceRange d ≫= ReferenceRange.min) then "low"
                   else if gt v (referenceRange d ≫= ReferenceRange.max)
                        then "high"
                        else "normal");
           category := category d;
           isFromJournal := isFromJournal d;
           journalEntryId := journalEntryId d |}
      else d
  | None => d
  end.

Definition create (doc : t) : Schema.Result t :=
  let d := init doc in
  match validate d with
  | [] => Schema.Saved (preSave d)
  | errors => Schema.Invalid (JS.ValidationError "Test" errors)
  end.

End Test.

(** models/Journal.js: [journalSchema], without the entry-level [mood] and
    [energy] paths and the timestamps, which the pipeline neither reads nor
    writes. *)
Module Journal.

Inductive ProcessingStatus := pending | processing | completed | failed.

Record t := {
  userId : nat;
  date : Date;
  rawText : string;
  parsedData : option ParsedData.t;
  isProcessed : bool;
  processingStatus : ProcessingStatus;
  processingError : option string;
  aiResponse : option string;
  tags : list string
}.

(** The document [new Journal({userId, date, rawText, processingStatus})]:
    [rawText] through its setter, the other paths with their defaults. *)
Definition new (userId : nat) (date : Date) (rawText : string)
    (status : ProcessingStatus) : t :=
  {| userId := userId;
     date := date;
     rawText := JS.trim rawText;
     parsedData := None;
     isProcessed := false;
     processingStatus := status;
     processingError := None;
     aiResponse := None;
     tags := [] |}.

Definition validate (d : t) : Schema.Errors :=
  Schema.check "rawText"
    (Schema.required "Raw text is required" (Some (rawText d))).

Definition toLowerCase_char (c : ascii) : ascii :=
  let n := nat_of_ascii c in
  if ((65 <=? n)%nat && (n <=? 90)%nat)%bool then ascii_of_nat (n + 32) else c.

Fixpoint toLowerCase (s : string) : string :=
  match s with
  | EmptyString => EmptyString
  | String c s' => String (toLowerCase_char c) (toLowerCase s')
  end.

(** [String.prototype.includes] *)
Fixpoint includes (s sub : string) : bool :=
  String.prefix sub s ||
  match s with
  | EmptyString => false
  | String _ s' => includes s' sub
  end.

Definition tag (text : string) (label : string) (words : list string)
  : list string :=
  if existsb (includes text) words then [label] else [].

(** [journalSchema.pre('save')]: "Auto-generate tags based on content". *)
Definition preSave (d : t) : t :=
  if JS.truthy_string (rawText d) then
    let text := toLowerCase (rawText d) in
    {| userId := userId d;
       date := date d;
       rawText := rawText d;
       parsedData := parsedData d;
       isProcessed := isProcessed d;
       processingStatus := processingStatus d;
       processingError := processingError d;
       aiResponse := aiResponse d;
       tags :=
         remove_dups
           (tag text "food" ["ate"; "food"; "meal"; "breakfast"; "lunch"; "dinner"] ++
            tag text "medicine"
              ["medicine"; "pill"; "tablet"; "medication"; "prescription"] ++
            tag text "hydration"
              ["water"; "drank"; "hydration"; "glass"; "litre"; "liter"] ++
            tag text "exercise" ["exercise"; "workout"; "walk"; "run"; "gym"] ++
            tag text "health" ["pain"; "fever"; "sick"; "test"; "doctor"]) |}
  else d.

Definition create (doc : t) : Schema.Result t :=
  match validate doc with
  | [] => Schema.Saved (preSave doc)
  | errors => Schema.Invalid (JS.ValidationError "Journal" errors)
  end.

(** The update document of [findByIdAndUpdate]: the paths to assign.
    [Some None] on [set_processingError] assigns [null]. *)
Record update := {
  set_parsedData : option ParsedData.t;
  set_isProcessed : option bool;
  set_processingStatus : option ProcessingStatus;
  set_processingError : option (option string);
  set_aiResponse : option string
}.

Definition assign (u : update) (d : t) : t :=
  {| userId := userId d;
     date := date d;
     rawText := rawText d;
     parsedData :=
       match set_parsedData u with
       | Some p => Some p
       | None => parsedData d
       end;
     isProcessed := default (isProcessed d) (set_isProcessed u);
     processingStatus := default (processingStatus d) (set_processingStatus u);
     processingError :=
       match set_processingError u with
       | Some e => Schema.trim e
       | None => processingError d
       end;
     aiResponse :=
       match set_aiResponse u with
       | Some r => Some (JS.trim r)
       | None => aiResponse d
       end;
     tags := tags d |}.

End Journal.

(** ** The database and its observations *)

Record DB := {
  journals : gmap nat Journal.t;
  meals : list Meal.t;
  medicines : list Medicine.t;
  bodyStats : list BodyStat.t;
  tests : list Test.t
}.

Definition emptyDB : DB :=
  {| journals := ∅; meals := []; medicines := []; bodyStats := []; tests := [] |}.

Inductive Collection := Journals | Meals | Medicines | BodyStats | Tests.

(** What an operation does that can be seen from outside: the request to the
    completion service, a document accepted or rejected by [Model.create],
    and an update of a journal entry. *)
Inductive Event :=
| Requested
| Created (c : Collection)
| Rejected (c : Collection)
| Updated (id : nat) (status : option Journal.ProcessingStatus).

Record World := {
  db : DB;
  log : list (Event * DB)
}.

Definition observe (ev : Event) (d : DB) (w : World) : World :=
  {| db := d; log := log w ++ [(ev, d)] |}.

Definition with_journals (f : gmap nat Journal.t -> gmap nat Journal.t) (d : DB)
  : DB :=
  {| journals := f (journals d);
     meals := meals d;
     medicines := medicines d;
     bodyStats := bodyStats d;
     tests := tests d |}.

Definition add_meal (r : Meal.t) (d : DB) : DB :=
  {| journals := journals d;
     meals := meals d ++ [r];
     medicines := medicines d;
     bodyStats := bodyStats d;
     tests := tests d |}.

Definition add_medicine (r : Medicine.t) (d : DB) : DB :=
  {| journals := journals d;
     meals := meals d;
     medicines := medicines d ++ [r];
     bodyStats := bodyStats d;
     tests := tests d |}.

Definition add_bodyStat (r : BodyStat.t) (d : DB) : DB :=
  {| journals := journals d;
     meals := meals d;
     medicines := medicines d;
     bodyStats := bodyStats d ++ [r];
     tests := tests d |}.

Definition add_test (r : Test.t) (d : DB) : DB :=
  {| journals := journals d;
     meals := meals d;
     medicines := medicines d;
     bodyStats := bodyStats d;
     tests := tests d ++ [r] |}.

(** ** The monad of the handlers: state and exceptions *)

Inductive Outcome (A : Type) :=
| Return (a : A)
| Throw (e : JS.Error).
Arguments Return {A} a.
Arguments Throw {A} e.

Definition M (A : Type) : Type := World -> Outcome A * World.

Global Instance M_ret : MRet M := λ A a w, (Return a, w).

Global Instance M_bind : MBind M := λ A B k m w,
  match m w with
  | (Return a, w') => k a w'
  | (Throw e, w') => (Throw e, w')
  end.

Definition throw {A} (e : JS.Error) : M A := λ w, (Throw e, w).

(** [try { body } catch (e) { handler e }] *)
Definition try_catch {A} (body : M A) (handler : JS.Error -> M A) : M A := λ w,
  match body w with
  | (Return a, w') => (Return a, w')
  | (Throw e, w') => handler e w'
  end.

(** [for (const x of l) { await body x }] *)
Fixpoint forEach {A} (l : list A) (body : A -> M unit) : M unit :=
  match l with
  | [] => mret tt
  | x :: rest => body x;; forEach rest body
  end.

(** A write to collection [c] that fails with [e]: nothing is stored. *)
Definition failWrite {A} (c : Collection) (e : JS.Error) : M A := λ w,
  (Throw e, observe (Rejected c) (db w) w).

(** [await Model.create(doc)] on one of the four derived collections. *)
Definition save {A} (c : Collection) (add : A -> DB -> DB)
    (r : Schema.Result A) : M unit :=
  match r with
  | Schema.Saved d => λ w, (Return tt, observe (Created c) (add d (db w)) w)
  | Schema.Invalid e => failWrite c e
  end.

(** [await Journal.create(doc)]: the entry gets an id no entry has. *)
Definition Journal_create (doc : Journal.t) : M (nat * Journal.t) := λ w,
  match Journal.create doc with
  | Schema.Saved d =>
      let id := fresh (dom (journals (db w))) in
      (Return (id, d),
       observe (Created Journals) (with_journals (insert id d) (db w)) w)
  | Schema.Invalid e => failWrite Journals e w
  end.

(** [await Journal.findOne({ _id: id, userId })] *)
Definition Journal_findOne (id userId : nat) : M (option Journal.t) := λ w,
  (Return (match journals (db w) !! id with
           | Some j => if (Journal.userId j =? userId)%nat then Some j else None
           | None => None
           end), w).

(** [await Journal.findByIdAndUpdate(id, u)]; an unknown id changes nothing. *)
Definition Journal_findByIdAndUpdate (id : nat) (u : Journal.update) : M unit :=
  λ w,
  (Return tt,
   observe (Updated id (Journal.set_processingStatus u))
     (with_journals (alter (Journal.assign u) id) (db w)) w).

(** ** The outside world of one request *)

Record Env := {
  (** [new Date()] *)
  new_Date : Date;
  (** the fixed part of [systemPrompt], up to "Parse this journal entry: " *)
  instructions : string;
  (** [axios.post(...)] followed by [response.data.choices[0].message.content],
      as a function of the prompt *)
  axios_post : string -> Outcome string;
  (** [JSON.parse]; [None] when it throws *)
  JSON_parse : string -> option ParsedData.t
}.

Definition quote : string := String (ascii_of_nat 34) EmptyString.

Definition systemPrompt (env : Env) (rawText : string) : string :=
  instructions env +:+ "Parse this journal entry: " +:+ quote +:+ rawText +:+ quote.

Definition request (env : Env) (prompt : string) : M string := λ w,
  (axios_post env prompt, observe Requested (db w) w).

(** ** Requests and responses *)

Record ParseRequest := {
  body_rawText : option string;
  body_date : option Date;
  user_id : nat
}.

Record IdRequest := {
  params_journalId : nat;
  requester_id : nat
}.

Record CreatedItems := {
  count_meals : nat;
  count_medicines : nat;
  count_bodyStats : nat;
  count_tests : nat
}.

(** One constructor per [res.status(...).json(...)] of aiController.js. *)
Inductive Response :=
| TextRequired
| DecodeFailed (journalId : nat) (rawResponse : string)
| Parsed (journalId : nat) (parsedData : ParsedData.t) (createdItems : CreatedItems)
| ProcessingFailed (error : option string) (journalId : nat)
| ServerError (message : string) (error : option string)
| JournalNotFound
| NotInFailedStatus
| ProcessingStatus (journalId : nat) (status : Journal.ProcessingStatus)
    (isProcessed : bool) (processingError : option string)
    (parsedData : option ParsedData.t).

Definition status_code (r : Response) : nat :=
  match r with
  | TextRequired => 400
  | DecodeFailed _ _ => 500
  | Parsed _ _ _ => 200
  | ProcessingFailed _ _ => 500
  | ServerError _ _ => 500
  | JournalNotFound => 404
  | NotInFailedStatus => 400
  | ProcessingStatus _ _ _ _ _ => 200
  end.

Definition success (r : Response) : bool :=
  match r with
  | Parsed _ _ _ | ProcessingStatus _ _ _ _ _ => true
  | _ => false
  end.

(** [data.journalId] of the response body, when it has one. *)
Definition journalId_of (r : Response) : option nat :=
  match r with
  | DecodeFailed id _ | Parsed id _ _ | ProcessingFailed _ id
  | ProcessingStatus id _ _ _ _ => Some id
  | _ => None
  end.

(** ** controllers/aiController.js *)

(** The object literal handed to [Meal.create]: every food item of a meal
    gets the meal's quantity and calories. *)
Definition mealDocument (env : Env) (userId : nat) (date : option Date)
    (journalEntryId : nat) (mealData : MealData.t) (items : list string)
  : Meal.t :=
  {| Meal.userId := userId;
     Meal.date := JS.or_object date (new_Date env);
     Meal.time := MealData.time mealData;
     Meal.foodItems :=
       map (λ item,
              {| FoodItem.name := item;
                 FoodItem.quantity :=
                   JS.or_string (MealData.quantity mealData) "1 serving";
                 FoodItem.calories :=
                   Some (JS.or_number (MealData.calories mealData) 0);
                 FoodItem.category := None |})
           items;
     Meal.totalCalories := None;
     Meal.notes := Some "Parsed from journal entry";
     Meal.isFromJournal := true;
     Meal.journalEntryId := Some journalEntryId |}.

(** "Create meals from parsed data": one [Meal.create] per element of
    [parsedData.meals].  [mealData.items.map] throws when [items] is
    missing. *)
Definition createMeals (env : Env) (userId : nat) (date : option Date)
    (journalEntryId : nat) (parsedData : ParsedData.t) : M unit :=
  match ParsedData.meals parsedData with
  | Some ((_ :: _) as meals) =>
      forEach meals (λ mealData,
        match MealData.items mealData with
        | None =>
            failWrite Meals
              (JS.TypeError "Cannot read properties of undefined (reading 'map')")
        | Some items =>
            save Meals add_meal
              (Meal.create
                 (mealDocument env userId date journalEntryId mealData items))
        end)
  | _ => mret tt
  end.

Definition medicineDocument (env : Env) (userId : nat) (date : option Date)
    (journalEntryId : nat) (medicineData : MedicineData.t) : Medicine.t :=
  {| Medicine.userId := userId;
     Medicine.name := MedicineData.name medicineData;
     Medicine.dosage := MedicineData.dosage medicineData;
     Medicine.time := MedicineData.time medicineData;
     Medicine.frequency := None;
     Medicine.startDate := JS.or_object date (new_Date env);
     Medicine.isActive := None;
     Medicine.category := None;
     Medicine.isFromJournal := true;
     Medicine.journalEntryId := Some journalEntryId |}.

(** "Create medicines from parsed data" *)
Definition createMedicines (env : Env) (userId : nat) (date : option Date)
    (journalEntryId : nat) (parsedData : ParsedData.t) : M unit :=
  match ParsedData.medicines parsedData with
  | Some ((_ :: _) as medicines) =>
      forEach medicines (λ medicineData,
        save Medicines add_medicine
          (Medicine.create
             (medicineDocument env userId date journalEntryId medicineData)))
  | _ => mret tt
  end.

(** [if (v) { bodyStatsData.path = v }] *)
Definition copy_if {A} (t : A -> bool) (v : option A) : option A :=
  match v with
  | Some x => if t x then Some x else None
  | None => None
  end.

(** [bodyStatsData], filled path by path: a path is copied when its value
    is truthy. *)
Definition bodyStatDocument (env : Env) (userId : nat) (date : option Date)
    (journalEntryId : nat) (stats : BodyStatsData.t) : BodyStat.t :=
  {| BodyStat.userId := userId;
     BodyStat.date := JS.or_object date (new_Date env);
     BodyStat.weight := copy_if JS.truthy_number (BodyStatsData.weightKg stats);
     BodyStat.waterIntake :=
       copy_if JS.truthy_number (BodyStatsData.waterIntakeLiters stats);
     BodyStat.sleepHours :=
       copy_if JS.truthy_number (BodyStatsData.sleepHours stats);
     BodyStat.steps := copy_if JS.truthy_number (BodyStatsData.steps stats);
     BodyStat.mood := copy_if JS.truthy_string (BodyStatsData.mood stats);
     BodyStat.energy := copy_if JS.truthy_string (BodyStatsData.energy stats);
     BodyStat.isFromJournal := true;
     BodyStat.journalEntryId := Some journalEntryId |}.

(** "Create body stats from parsed data": one [BodyStat.create] whenever
    [parsedData.bodyStats] is an object. *)
Definition createBodyStats (env : Env) (userId : nat) (date : option Date)
    (journalEntryId : nat) (parsedData : ParsedData.t) : M unit :=
  match ParsedData.bodyStats parsedData with
  | Some stats =>
      save BodyStats add_bodyStat
        (BodyStat.create (bodyStatDocument env userId date journalEntryId stats))
  | None => mret tt
  end.

Definition testDocument (env : Env) (userId : nat) (date : option Date)
    (journalEntryId : nat) (testData : TestData.t) : Test.t :=
  {| Test.userId := userId;
     Test.testName := TestData.testName testData;
     Test.date := JS.or_object date (new_Date env);
     Test.result := TestData.result testData;
     Test.resultValue := TestData.resultValue testData;
     Test.unit := TestData.unit testData;
     Test.referenceRange := TestData.referenceRange testData;
     Test.status := None;
     Test.category := None;
     Test.isFromJournal := true;
     Test.journalEntryId := Some journalEntryId |}.

(** "Create tests from parsed data" *)
Definition createTests (env : Env) (userId : nat) (date : option Date)
    (journalEntryId : nat) (parsedData : ParsedData.t) : M unit :=
  match ParsedData.tests parsedData with
  | Some ((_ :: _) as tests) =>
      forEach tests (λ testData,
        save Tests add_test
          (Test.create (testDocument env userId date journalEntryId testData)))
  | _ => mret tt
  end.

(** The four blocks of derived writes, in the order of the source. *)
Definition fanOut (env : Env) (userId : nat) (date : option Date)
    (journalEntryId : nat) (parsedData : ParsedData.t) : M unit :=
  createMeals env userId date journalEntryId parsedData;;
  createMedicines env userId date journalEntryId parsedData;;
  createBodyStats env userId date journalEntryId parsedData;;
  createTests env userId date journalEntryId parsedData.

Definition createdItems (parsedData : ParsedData.t) : CreatedItems :=
  {| count_meals := JS.length_or_0 (ParsedData.meals parsedData);
     count_medicines := JS.length_or_0 (ParsedData.medicines parsedData);
     count_bodyStats :=
       match ParsedData.bodyStats parsedData with
       | Some _ => 1
       | None => 0
       end;
     count_tests := JS.length_or_0 (ParsedData.tests parsedData) |}.

(** The three updates of the entry made by [parseJournalEntry]. *)
Definition decodeFailedUpdate (aiResponse : string) : Journal.update :=
  {| Journal.set_parsedData := None;
     Journal.set_isProcessed := None;
     Journal.set_processingStatus := Some Journal.failed;
     Journal.set_processingError := Some (Some "Failed to parse AI response as JSON");
     Journal.set_aiResponse := Some aiResponse |}.

Definition completedUpdate (parsedData : ParsedData.t) (aiResponse : string)
  : Journal.update :=
  {| Journal.set_parsedData := Some parsedData;
     Journal.set_isProcessed := Some true;
     Journal.set_processingStatus := Some Journal.completed;
     Journal.set_processingError := None;
     Journal.set_aiResponse := Some aiResponse |}.

Definition failedUpdate (aiError : JS.Error) : Journal.update :=
  {| Journal.set_parsedData := None;
     Journal.set_isProcessed := None;
     Journal.set_processingStatus := Some Journal.failed;
     Journal.set_processingError :=
       Some (Some (JS.or_string (JS.message aiError) "AI API call failed"));
     Journal.set_aiResponse := None |}.

(** The inner [try] block of [parseJournalEntry]: request, decode, update,
    fan-out, response. *)
Definition processEntry (env : Env) (userId : nat) (rawText : string)
    (date : option Date) (journalEntryId : nat) : M Response :=
  aiResponse ← request env (systemPrompt env (JS.trim rawText));
  match JSON_parse env aiResponse with
  | None =>
      Journal_findByIdAndUpdate journalEntryId (decodeFailedUpdate aiResponse);;
      mret (DecodeFailed journalEntryId aiResponse)
  | Some parsedData =>
      Journal_findByIdAndUpdate journalEntryId
        (completedUpdate parsedData aiResponse);;
      fanOut env userId date journalEntryId parsedData;;
      mret (Parsed journalEntryId parsedData (createdItems parsedData))
  end.

(** POST /api/ai/parse-journal *)
Definition parseJournalEntry (env : Env) (req : ParseRequest) : M Response :=
  try_catch
    (let date := body_date req in
     let userId := user_id req in
     match body_rawText req with
     | None => mret TextRequired
     | Some rawText =>
         if negb (JS.truthy_string rawText)
            || negb (JS.truthy_string (JS.trim rawText))
         then mret TextRequired
         else
           created ← Journal_create
                       (Journal.new userId (JS.or_object date (new_Date env))
                          (JS.trim rawText) Journal.processing);
           let journalEntryId := fst created in
           try_catch
             (processEntry env userId rawText date journalEntryId)
             (λ aiError,
                Journal_findByIdAndUpdate journalEntryId (failedUpdate aiError);;
                mret (ProcessingFailed (JS.message aiError) journalEntryId))
     end)
    (λ error,
       mret (ServerError "Server error during journal parsing" (JS.message error))).

(** GET /api/ai/status/:journalId *)
Definition getProcessingStatus (req : IdRequest) : M Response :=
  try_catch
    (journal ← Journal_findOne (params_journalId req) (requester_id req);
     match journal with
     | None => mret JournalNotFound
     | Some j =>
         mret (ProcessingStatus (params_journalId req)
                 (Journal.processingStatus j) (Journal.isProcessed j)
                 (Journal.processingError j) (Journal.parsedData j))
     end)
    (λ error, mret (ServerError "Server error" (JS.message error))).

Definition resetUpdate : Journal.update :=
  {| Journal.set_parsedData := None;
     Journal.set_isProcessed := None;
     Journal.set_processingStatus := Some Journal.pending;
     Journal.set_processingError := Some None;
     Journal.set_aiResponse := None |}.

Definition is_failed (s : Journal.ProcessingStatus) : bool :=
  match s with
  | Journal.failed => true
  | _ => false
  end.

(** POST /api/ai/retry/:journalId *)
Definition retryProcessing (env : Env) (req : IdRequest) : M Response :=
  try_catch
    (let journalId := params_journalId req in
     let userId := requester_id req in
     journal ← Journal_findOne journalId userId;
     match journal with
     | None => mret JournalNotFound
     | Some j =>
         if negb (is_failed (Journal.processingStatus j))
         then mret NotInFailedStatus
         else
           Journal_findByIdAndUpdate journalId resetUpdate;;
           parseJournalEntry env
             {| body_rawText := Some (Journal.rawText j);
                body_date := Some (Journal.date j);
                user_id := userId |}
     end)
    (λ error, mret (ServerError "Server error during retry" (JS.message error))).

(** middleware/validate.js, [aiValidation]: the text, trimmed, has between 1
    and 5000 characters. *)
Definition aiValidation (rawText : string) : bool :=
  let n := String.length (JS.trim rawText) in
  ((1 <=? n)%nat && (n <=? 5000)%nat)%bool.

(** ** Describing a run

    The definitions below name the parts of a run the statements talk
    about; the lemmas relate them to the handlers. *)

Definition blank : World := {| db := emptyDB; log := [] |}.

(** The entry stored under an id. *)
Definition entry (d : DB) (id : nat) : option Journal.t := journals d !! id.

(** The guard of [parseJournalEntry]: [rawText && rawText.trim()]. *)
Definition hasText (req : ParseRequest) : bool :=
  match body_rawText req with
  | Some t => JS.truthy_string t && JS.truthy_string (JS.trim t)
  | None => false
  end.

Definition text (req : ParseRequest) : string :=
  JS.trim (default "" (body_rawText req)).

(** The id [Journal.create] gives the next entry. *)
Definition nextId (w : World) : nat := fresh (dom (journals (db w))).

(** The entry a submission stores, and the database and world right after
    the request to the completion service. *)
Definition newEntry (env : Env) (req : ParseRequest) : Journal.t :=
  Journal.preSave
    (Journal.new (user_id req) (JS.or_object (body_date req) (new_Date env))
       (text req) Journal.processing).

Definition submitted (env : Env) (req : ParseRequest) (w : World) : DB :=
  with_journals (insert (nextId w) (newEntry env req)) (db w).

Definition requested (env : Env) (req : ParseRequest) (w : World) : World :=
  observe Requested (submitted env req w)
    (observe (Created Journals) (submitted env req w) w).

(** The world after [Journal.findByIdAndUpdate(id, u)]. *)
Definition updated (id : nat) (u : Journal.update) (w : World) : World :=
  observe (Updated id (Journal.set_processingStatus u))
    (with_journals (alter (Journal.assign u) id) (db w)) w.

(** The outcome of the write of one decoded meal. *)
Definition mealResult (env : Env) (userId : nat) (date : option Date)
    (journalEntryId : nat) (mealData : MealData.t) : Schema.Result Meal.t :=
  match MealData.items mealData with
  | None =>
      Schema.Invalid
        (JS.TypeError "Cannot read properties of undefined (reading 'map')")
  | Some items =>
      Meal.create (mealDocument env userId date journalEntryId mealData items)
  end.

(** The documents stored by a loop of writes: those before the first
    failure; and that failure. *)
Fixpoint accepted {A} (rs : list (Schema.Result A)) : list A :=
  match rs with
  | Schema.Saved d :: rest => d :: accepted rest
  | _ => []
  end.

Fixpoint rejection {A} (rs : list (Schema.Result A)) : option JS.Error :=
  match rs with
  | [] => None
  | Schema.Saved _ :: rest => rejection rest
  | Schema.Invalid e :: _ => Some e
  end.

(** The world after storing documents one by one. *)
Fixpoint stored {A} (c : Collection) (add : A -> DB -> DB) (ds : list A)
    (w : World) : World :=
  match ds with
  | [] => w
  | d :: rest => stored c add rest (observe (Created c) (add d (db w)) w)
  end.

(** The world and outcome of a loop of writes. *)
Definition written {A} (c : Collection) (add : A -> DB -> DB)
    (rs : list (Schema.Result A)) (w : World) : Outcome unit * World :=
  let w' := stored c add (accepted rs) w in
  match rejection rs with
  | None => (Return tt, w')
  | Some e => (Throw e, observe (Rejected c) (db w') w')
  end.

(** The outcomes of the writes of each of the four blocks. *)
Definition mealResults (env : Env) (userId : nat) (date : option Date)
    (id : nat) (pd : ParsedData.t) : list (Schema.Result Meal.t) :=
  map (mealResult env userId date id) (default [] (ParsedData.meals pd)).

Definition medicineResults (env : Env) (userId : nat) (date : option Date)
    (id : nat) (pd : ParsedData.t) : list (Schema.Result Medicine.t) :=
  map (λ m, Medicine.create (medicineDocument env userId date id m))
    (default [] (ParsedData.medicines pd)).

Definition bodyStatResults (env : Env) (userId : nat) (date : option Date)
    (id : nat) (pd : ParsedData.t) : list (Schema.Result BodyStat.t) :=
  match ParsedData.bodyStats pd with
  | Some stats => [BodyStat.create (bodyStatDocument env userId date id stats)]
  | None => []
  end.

Definition testResults (env : Env) (userId : nat) (date : option Date)
    (id : nat) (pd : ParsedData.t) : list (Schema.Result Test.t) :=
  map (λ t, Test.create (testDocument env userId date id t))
    (default [] (ParsedData.tests pd)).

(** Events of the fan-out. *)
Definition derived (c : Collection) : bool :=
  match c with
  | Journals => false
  | _ => true
  end.

Definition is_write (ev : Event) : bool :=
  match ev with
  | Created c => derived c
  | _ => false
  end.

(** The invariant of §4.4: an error message is stored exactly on failed
    entries. *)
Definition has_error (j : Journal.t) : Prop :=
  ∃ m, Journal.processingError j = Some m ∧ m ≠ "".










(** The derived records one fan-out adds: each block stores the documents
    before its first failure, and a block runs only if no earlier block
    failed. *)
Record Fanned := {
  new_meals : list Meal.t;
  new_medicines : list Medicine.t;
  new_bodyStats : list BodyStat.t;
  new_tests : list Test.t
}.

Definition extend (d : DB) (n : Fanned) : DB :=
  {| journals := journals d;
     meals := meals d ++ new_meals n;
     medicines := medicines d ++ new_medicines n;
     bodyStats := bodyStats d ++ new_bodyStats n;
     tests := tests d ++ new_tests n |}.

Definition first_error (a b : option JS.Error) : option JS.Error :=
  match a with
  | Some _ => a
  | None => b
  end.

Definition unless {A} (e : option JS.Error) (l : list A) : list A :=
  match e with
  | Some _ => []
  | None => l
  end.

Definition fanned (env : Env) (userId : nat) (date : option Date) (id : nat)
    (pd : ParsedData.t) : Fanned :=
  let e1 := rejection (mealResults env userId date id pd) in
  let e2 := first_error e1 (rejection (medicineResults env userId date id pd)) in
  let e3 := first_error e2 (rejection (bodyStatResults env userId date id pd)) in
  {| new_meals := accepted (mealResults env userId date id pd);
     new_medicines := unless e1 (accepted (medicineResults env userId date id pd));
     new_bodyStats := unless e2 (accepted (bodyStatResults env userId date id pd));
     new_tests := unless e3 (accepted (testResults env userId date id pd)) |}.

(** The error the fan-out throws, if any: the first failure, blocks taken in
    order. *)
Definition fanOutError (env : Env) (userId : nat) (date : option Date)
    (id : nat) (pd : ParsedData.t) : option JS.Error :=
  first_error (rejection (mealResults env userId date id pd))
    (first_error (rejection (medicineResults env userId date id pd))
       (first_error (rejection (bodyStatResults env userId date id pd))
          (rejection (testResults env userId date id pd)))).

(** The events of a fan-out: writes, then a rejection exactly when the
    fan-out fails. *)
Definition fan_events (failure : option JS.Error) (evs : list Event) : Prop :=
  ∃ ws rj,
    evs = ws ++ rj ∧
    Forall (λ ev, is_write ev = true) ws ∧
    match failure with
    | Some _ => ∃ c, derived c = true ∧ rj = [Rejected c]
    | None => rj = []
    end.

(** The sum of the calories of a list of food items, an item without
    calories counting for 0. *)
Definition sum_calories (items : list FoodItem.t) : Q :=
  foldr (λ item acc, (default 0 (FoodItem.calories item) + acc)%Q) 0%Q items.

(** A number that is a non-negative integer. *)
Definition whole (q : Q) : Prop := ∃ k : Z, (0 <= k)%Z ∧ (q == inject_Z k)%Q.

(** The stored food item the controller's literal for [item] of [mealData]
    becomes. *)
Definition foodItemOf (mealData : MealData.t) (item : string) : FoodItem.t :=
  {| FoodItem.name := JS.trim item;
     FoodItem.quantity :=
       JS.trim (JS.or_string (MealData.quantity mealData) "1 serving");
     FoodItem.calories := Some (JS.or_number (MealData.calories mealData) 0);
     FoodItem.category := Some "snack" |}.

(** What an update leaves alone. *)
Definition same_identity (j j' : Journal.t) : Prop :=
  Journal.rawText j' = Journal.rawText j ∧
  Journal.userId j' = Journal.userId j ∧
  Journal.date j' = Journal.date j.

(** Unfolding of the monad's operations. *)
Ltac run := unfold mbind, M_bind, mret, M_ret, try_catch, throw in *.

(** ** Scenarios

    Concrete requests, completion-service answers and their decodings, used
    to run the handlers. *)

Module Scenario.

Definition q (s : string) : string := quote +:+ s +:+ quote.

(** [JSON.parse] on the listed responses; anything else is not JSON. *)
Definition decoder (table : list (string * ParsedData.t)) (s : string)
  : option ParsedData.t :=
  snd <$> find (λ row, String.eqb (fst row) s) table.

Definition noStats : BodyStatsData.t :=
  {| BodyStatsData.waterIntakeLiters := None;
     BodyStatsData.weightKg := None;
     BodyStatsData.sleepHours := None;
     BodyStatsData.steps := None;
     BodyStatsData.mood := None;
     BodyStatsData.energy := None |}.

Definition water (liters : Q) : BodyStatsData.t :=
  {| BodyStatsData.waterIntakeLiters := Some liters;
     BodyStatsData.weightKg := None;
     BodyStatsData.sleepHours := None;
     BodyStatsData.steps := None;
     BodyStatsData.mood := None;
     BodyStatsData.energy := None |}.

Definition meal (time : string) (items : list string) : MealData.t :=
  {| MealData.time := Some time;
     MealData.items := Some items;
     MealData.quantity := None;
     MealData.calories := None |}.

(** §8: one meal at noon with two items, two litres of water. *)
Definition lunchText : string :=
  " Had dal chawal for lunch, drank 2 liters of water ".

Definition lunchJSON : string :=
  "{" +:+ q "meals" +:+ ": [{" +:+ q "time" +:+ ": " +:+ q "noon" +:+ ", "
  +:+ q "items" +:+ ": [" +:+ q "dal" +:+ ", " +:+ q "chawal" +:+ "]}], "
  +:+ q "bodyStats" +:+ ": {" +:+ q "waterIntakeLiters" +:+ ": 2}}".

Definition lunch : ParsedData.t :=
  {| ParsedData.meals := Some [meal "noon" ["dal"; "chawal"]];
     ParsedData.medicines := None;
     ParsedData.bodyStats := Some (water 2);
     ParsedData.tests := None;
     ParsedData.notes := None |}.

(** A meal whose time of day is not one of the four the Meal schema
    lists. *)
Definition snackText : string := "Samosa in the afternoon and 2 liters of water".

Definition snackJSON : string :=
  "{" +:+ q "meals" +:+ ": [{" +:+ q "time" +:+ ": " +:+ q "afternoon" +:+ ", "
  +:+ q "items" +:+ ": [" +:+ q "samosa" +:+ "]}], "
  +:+ q "bodyStats" +:+ ": {" +:+ q "waterIntakeLiters" +:+ ": 2}}".

Definition snack : ParsedData.t :=
  {| ParsedData.meals := Some [meal "afternoon" ["samosa"]];
     ParsedData.medicines := None;
     ParsedData.bodyStats := Some (water 2);
     ParsedData.tests := None;
     ParsedData.notes := None |}.

(** A medicine mentioned without a dosage. *)
Definition pillText : string := "Dal chawal for lunch, paracetamol at night".

Definition pillJSON : string :=
  "{" +:+ q "meals" +:+ ": [{" +:+ q "time" +:+ ": " +:+ q "noon" +:+ ", "
  +:+ q "items" +:+ ": [" +:+ q "dal" +:+ ", " +:+ q "chawal" +:+ "]}], "
  +:+ q "medicines" +:+ ": [{" +:+ q "name" +:+ ": " +:+ q "paracetamol" +:+ ", "
  +:+ q "time" +:+ ": " +:+ q "night" +:+ "}]}".

Definition pill : ParsedData.t :=
  {| ParsedData.meals := Some [meal "noon" ["dal"; "chawal"]];
     ParsedData.medicines :=
       Some [{| MedicineData.name := Some "paracetamol";
                MedicineData.time := Some "night";
                MedicineData.dosage := None |}];
     ParsedData.bodyStats := None;
     ParsedData.tests := None;
     ParsedData.notes := None |}.

(** Nothing to extract: empty lists and an empty [bodyStats] object. *)
Definition walkText : string := "Went for a walk".

Definition walkJSON : string :=
  "{" +:+ q "meals" +:+ ": [], " +:+ q "medicines" +:+ ": [], "
  +:+ q "bodyStats" +:+ ": {}, " +:+ q "tests" +:+ ": []}".

Definition walk : ParsedData.t :=
  {| ParsedData.meals := Some [];
     ParsedData.medicines := Some [];
     ParsedData.bodyStats := Some noStats;
     ParsedData.tests := Some [];
     ParsedData.notes := None |}.

(** An answer that is not JSON. *)
Definition proseResponse : string := "Sorry, I could not parse that entry.".

(** The same answer followed by a line feed. *)
Definition paddedResponse : string := proseResponse +:+ String (ascii_of_nat 10) "".

Definition parse : string -> option ParsedData.t :=
  decoder [(lunchJSON, lunch); (snackJSON, snack); (pillJSON, pill);
           (walkJSON, walk)].

(** A completion service that answers every prompt with [response]. *)
Definition answering (response : string) : Env :=
  {| new_Date := 20250101%N;
     instructions := "You are a health data parser. ";
     axios_post := λ _, Return response;
     JSON_parse := parse |}.

(** A completion service that cannot be reached. *)
Definition unreachable : Env :=
  {| new_Date := 20250101%N;
     instructions := "You are a health data parser. ";
     axios_post := λ _, Throw (JS.AxiosError (Some "Network Error"));
     JSON_parse := parse |}.

Definition submit (rawText : string) : ParseRequest :=
  {| body_rawText := Some rawText; body_date := None; user_id := 7 |}.

Definition retry (journalId : nat) : IdRequest :=
  {| params_journalId := journalId; requester_id := 7 |}.

(** The world after the lunch entry failed for lack of network, and after
    it was parsed. *)
Definition afterOutage : World :=
  snd (parseJournalEntry unreachable (submit lunchText) blank).

Definition afterLunch : World :=
  snd (parseJournalEntry (answering lunchJSON) (submit lunchText) blank).

End Scenario.

(** ** Further descriptions of a run *)

(** The response and the final entry of an accepted submission, case by
    case. *)
Definition outcome (env : Env) (req : ParseRequest) (id : nat)
  : Response * Journal.t :=
  match axios_post env (systemPrompt env (text req)) with
  | Throw e =>
      (ProcessingFailed (JS.message e) id,
       Journal.assign (failedUpdate e) (newEntry env req))
  | Return raw =>
      match JSON_parse env raw with
      | None =>
          (DecodeFailed id raw,
           Journal.assign (decodeFailedUpdate raw) (newEntry env req))
      | Some pd =>
          let j := Journal.assign (completedUpdate pd raw) (newEntry env req) in
          match fanOutError env (user_id req) (body_date req) id pd with
          | Some e =>
              (ProcessingFailed (JS.message e) id,
               Journal.assign (failedUpdate e) j)
          | None => (Parsed id pd (createdItems pd), j)
          end
      end
  end.

(** The events of one block of writes: a creation per stored document, then
    the rejection if a document was refused. *)
Definition blockEvents {A} (c : Collection) (rs : list (Schema.Result A))
  : list Event :=
  replicate (length (accepted rs)) (Created c) ++
  match rejection rs with
  | Some _ => [Rejected c]
  | None => []
  end.

(** The block in which the fan-out fails, if it does. *)
Definition failedBlock (env : Env) (userId : nat) (date : option Date)
    (id : nat) (pd : ParsedData.t) : option Collection :=
  match rejection (mealResults env userId date id pd) with
  | Some _ => Some Meals
  | None =>
      match rejection (medicineResults env userId date id pd) with
      | Some _ => Some Medicines
      | None =>
          match rejection (bodyStatResults env userId date id pd) with
          | Some _ => Some BodyStats
          | None =>
              match rejection (testResults env userId date id pd) with
              | Some _ => Some Tests
              | None => None
              end
          end
      end
  end.

(** A string that shows something once trimmed. *)
Definition visible (v : option string) : Prop :=
  ∃ s, v = Some s ∧ JS.trim s ≠ "".

(** What the schemas accept of the decoded structure: a meal with its
    list of items, a time of day that is missing or listed, item names that
    show something and, unless the list is empty, a quantity that shows
    something and calories that are not negative. *)
Definition acceptableMeal (m : MealData.t) : Prop :=
  ∃ items,
    MealData.items m = Some items ∧
    (∀ t, MealData.time m = Some t -> t ∈ Schema.times) ∧
    Forall (λ item, JS.trim item ≠ "") items ∧
    (items = [] ∨
     JS.trim (JS.or_string (MealData.quantity m) "1 serving") ≠ "" ∧
     (0 <= JS.or_number (MealData.calories m) 0)%Q).

Definition acceptableMedicine (m : MedicineData.t) : Prop :=
  visible (MedicineData.name m) ∧ visible (MedicineData.dosage m) ∧
  ∃ t, MedicineData.time m = Some t ∧ t ∈ Schema.times.

(** A value of 0 and an empty string are not copied, so they are never out
    of range. *)
Definition acceptableBodyStats (s : BodyStatsData.t) : Prop :=
  (∀ q, BodyStatsData.weightKg s = Some q ->
     (q == 0)%Q ∨ (20 <= q)%Q ∧ (q <= 500)%Q) ∧
  (∀ q, BodyStatsData.waterIntakeLiters s = Some q -> (0 <= q)%Q ∧ (q <= 50)%Q) ∧
  (∀ q, BodyStatsData.sleepHours s = Some q -> (0 <= q)%Q ∧ (q <= 24)%Q) ∧
  (∀ q, BodyStatsData.steps s = Some q -> (0 <= q)%Q) ∧
  (∀ m, BodyStatsData.mood s = Some m -> m = "" ∨ m ∈ Schema.moods) ∧
  (∀ e, BodyStatsData.energy s = Some e -> e = "" ∨ e ∈ Schema.energies).

Definition acceptableTest (t : TestData.t) : Prop :=
  visible (TestData.testName t) ∧ visible (TestData.result t).

(** Further decoded documents, used to run the writes. *)
Module Cases.

Definition paracetamol : MedicineData.t :=
  {| MedicineData.name := Some " Paracetamol ";
     MedicineData.time := Some "night";
     MedicineData.dosage := Some "500mg" |}.

(** A haemoglobin of 11.5 g/dL against a range of 12 to 16. *)
Definition haemoglobin : TestData.t :=
  {| TestData.testName := Some "Haemoglobin";
     TestData.result := Some "11.5 g/dL";
     TestData.resultValue := Some (23 # 2);
     TestData.unit := Some "g/dL";
     TestData.referenceRange :=
       Some {| ReferenceRange.min := Some 12%Q;
               ReferenceRange.max := Some 16%Q;
               ReferenceRange.unit := Some "g/dL" |} |}.

(** A meal without a time of day. *)
Definition chai : MealData.t :=
  {| MealData.time := None;
     MealData.items := Some ["noon chai "; "girda"];
     MealData.quantity := Some "1 cup";
     MealData.calories := Some 120%Q |}.

(** A submission whose answer holds one document of each kind, all of them
    acceptable. *)
Definition checkupText : string :=
  "Noon chai and girda, paracetamol 500mg at night, 2 liters of water, haemoglobin 11.5 g/dL".

Definition checkupJSON : string :=
  let q := Scenario.q in
  "{" +:+ q "meals" +:+ ": [{" +:+ q "items" +:+ ": [" +:+ q "noon chai "
  +:+ ", " +:+ q "girda" +:+ "], " +:+ q "quantity" +:+ ": " +:+ q "1 cup"
  +:+ ", " +:+ q "calories" +:+ ": 120}], "
  +:+ q "medicines" +:+ ": [{" +:+ q "name" +:+ ": " +:+ q " Paracetamol "
  +:+ ", " +:+ q "time" +:+ ": " +:+ q "night" +:+ ", " +:+ q "dosage" +:+ ": "
  +:+ q "500mg" +:+ "}], "
  +:+ q "bodyStats" +:+ ": {" +:+ q "waterIntakeLiters" +:+ ": 2}, "
  +:+ q "tests" +:+ ": [{" +:+ q "testName" +:+ ": " +:+ q "Haemoglobin"
  +:+ ", " +:+ q "result" +:+ ": " +:+ q "11.5 g/dL" +:+ ", "
  +:+ q "resultValue" +:+ ": 11.5, " +:+ q "unit" +:+ ": " +:+ q "g/dL"
  +:+ ", " +:+ q "referenceRange" +:+ ": {" +:+ q "min" +:+ ": 12, "
  +:+ q "max" +:+ ": 16, " +:+ q "unit" +:+ ": " +:+ q "g/dL" +:+ "}}]}".

Definition checkup : ParsedData.t :=
  {| ParsedData.meals := Some [chai];
     ParsedData.medicines := Some [paracetamol];
     ParsedData.bodyStats := Some (Scenario.water 2);
     ParsedData.tests := Some [haemoglobin];
     ParsedData.notes := None |}.

(** A completion service that answers every prompt with [checkupJSON]. *)
Definition clinic : Env :=
  {| new_Date := 20250101%N;
     instructions := "You are a health data parser. ";
     axios_post := λ _, Return checkupJSON;
     JSON_parse := Scenario.decoder [(checkupJSON, checkup)] |}.


(** The entries two submissions store at first. *)
Definition lunchEntry : Journal.t :=
  newEntry (Scenario.answering Scenario.lunchJSON)
    (Scenario.submit Scenario.lunchText).

Definition walkEntry : Journal.t :=
  newEntry Scenario.unreachable (Scenario.submit Scenario.walkText).

End Cases.

(** The words behind each tag, as [journalSchema.pre('save')] lists them. *)
Definition keywords : list (string * list string) :=
  [("food", ["ate"; "food"; "meal"; "breakfast"; "lunch"; "dinner"]);
   ("medicine", ["medicine"; "pill"; "tablet"; "medication"; "prescription"]);
   ("hydration", ["water"; "drank"; "hydration"; "glass"; "litre"; "liter"]);
   ("exercise", ["exercise"; "workout"; "walk"; "run"; "gym"]);
   ("health", ["pain"; "fever"; "sick"; "test"; "doctor"])].

(** ** controllers/journalController.js

    The handlers that read and delete single entries and list them.  They
    leave no observation: the log is the pipeline's. *)

Record EntryRequest := {
  params_id : nat;
  entry_user_id : nat
}.

(** One constructor per [res.status(...).json(...)] of [getJournal] and
    [deleteJournal]. *)
Inductive EntryResponse :=
| EntryFound (journal : Journal.t)
| EntryDeleted
| EntryNotFound
| EntryError (message : string) (error : option string).

Definition entry_status_code (r : EntryResponse) : nat :=
  match r with
  | EntryFound _ | EntryDeleted => 200
  | EntryNotFound => 404
  | EntryError _ _ => 500
  end.

(** [await Journal.findOneAndDelete({ _id: id, userId })] *)
Definition Journal_findOneAndDelete (id userId : nat) : M (option Journal.t) :=
  λ w,
  match journals (db w) !! id with
  | Some j =>
      if (Journal.userId j =? userId)%nat
      then (Return (Some j),
            {| db := with_journals (delete id) (db w); log := log w |})
      else (Return None, w)
  | None => (Return None, w)
  end.

(** GET /api/journals/:id *)
Definition getJournal (req : EntryRequest) : M EntryResponse :=
  try_catch
    (journal ← Journal_findOne (params_id req) (entry_user_id req);
     match journal with
     | None => mret EntryNotFound
     | Some j => mret (EntryFound j)
     end)
    (λ error, mret (EntryError "Server error" (JS.message error))).

(** DELETE /api/journals/:id *)
Definition deleteJournal (req : EntryRequest) : M EntryResponse :=
  try_catch
    (journal ← Journal_findOneAndDelete (params_id req) (entry_user_id req);
     match journal with
     | None => mret EntryNotFound
     | Some _ => mret EntryDeleted
     end)
    (λ error,
       mret (EntryError "Server error during journal deletion" (JS.message error))).

(** ** models/Journal.js: the virtuals *)

(** [s.split(/\s+/)]: the pieces between the maximal runs of white space;
    a run at either end leaves an empty piece there. *)
Fixpoint split_ws (s : string) : list string :=
  match s with
  | EmptyString => [EmptyString]
  | String c s' =>
      if JS.isWhiteSpace c then
        match s' with
        | EmptyString => [EmptyString; EmptyString]
        | String c' _ =>
            if JS.isWhiteSpace c' then split_ws s' else EmptyString :: split_ws s'
        end
      else
        match split_ws s' with
        | piece :: pieces => String c piece :: pieces
        | [] => [String c EmptyString]
        end
  end.

(** [journalSchema.virtual('wordCount')] *)
Definition wordCount (j : Journal.t) : nat :=
  if JS.truthy_string (Journal.rawText j)
  then length (split_ws (JS.trim (Journal.rawText j)))
  else 0.

(** [journalSchema.virtual('readingTime')]: [Math.ceil(words / 200)] *)
Definition readingTime (j : Journal.t) : nat := (wordCount j + 199) / 200.

(** The number of words of a text: its maximal runs of characters that are
    not white space. *)
Fixpoint words_from (inWord : bool) (s : string) : nat :=
  match s with
  | EmptyString => 0
  | String c s' =>
      if JS.isWhiteSpace c then words_from false s'
      else (if inWord then 0 else 1) + words_from true s'
  end.

Definition count_words (s : string) : nat := words_from false s.

(** Whether a text ends with white space. *)
Fixpoint ends_ws (s : string) : bool :=
  match s with
  | EmptyString => false
  | String c s' =>
      match s' with
      | EmptyString => JS.isWhiteSpace c
      | String _ _ => ends_ws s'
      end
  end.

(** ** [getJournalStats] and [getJournalSummary]: the figures computed from
    the entries found *)

Global Instance ProcessingStatus_eq_dec : EqDecision Journal.ProcessingStatus.
Proof. solve_decision. Defined.

Record ProcessingStats := {
  stat_pending : nat;
  stat_processing : nat;
  stat_completed : nat;
  stat_failed : nat
}.

(** [journals.filter(j => j.processingStatus === status).length], four
    times. *)
Definition processingStats (journals : list Journal.t) : ProcessingStats :=
  let count status :=
    length (filter (λ j, Journal.processingStatus j = status) journals) in
  {| stat_pending := count Journal.pending;
     stat_processing := count Journal.processing;
     stat_completed := count Journal.completed;
     stat_failed := count Journal.failed |}.

(** [journals.reduce((sum, journal) => sum + journal.wordCount, 0)] *)
Definition totalWords (journals : list Journal.t) : nat :=
  fold_left (λ sum journal, sum + wordCount journal) journals 0.

(** An object used as a counter, as the list of its entries in the order
    the keys were first set; [o[k] = (o[k] || 0) + 1].  The keys counted
    here are tags, none of which is an array index or a property of
    [Object.prototype]. *)
Fixpoint increment (k : string) (o : list (string * nat)) : list (string * nat) :=
  match o with
  | [] => [(k, 1)]
  | (k', n) :: rest =>
      if String.eqb k' k then (k', S n) :: rest else (k', n) :: increment k rest
  end.

(** [journals.forEach(journal => journal.tags.forEach(tag => ...))] *)
Definition tagStats (journals : list Journal.t) : list (string * nat) :=
  fold_left
    (λ stats journal,
       fold_left (λ stats tag, increment tag stats) (Journal.tags journal) stats)
    journals [].

(** [entries.sort(([,a], [,b]) => b - a)]: by count, largest first; the
    sort is stable. *)
Fixpoint insert_desc (x : string * nat) (l : list (string * nat))
  : list (string * nat) :=
  match l with
  | [] => [x]
  | y :: rest =>
      if (snd y <=? snd x)%nat then x :: y :: rest else y :: insert_desc x rest
  end.

Definition sort_desc (l : list (string * nat)) : list (string * nat) :=
  foldr insert_desc [] l.

(** [Object.entries(tagStats).sort(...).slice(0, n)]; [n] is 10 in
    [getJournalStats] and 5 in [getJournalSummary]. *)
Definition topTags (n : nat) (journals : list Journal.t) : list (string * nat) :=
  take n (sort_desc (tagStats journals)).

(** [o[k] || 0] *)
Fixpoint get (k : string) (o : list (string * nat)) : nat :=
  match o with
  | [] => 0
  | (k', n) :: rest => if String.eqb k' k then n else get k rest
  end.

(** The number of times a key occurs in a list. *)
Definition occurrences (k : string) (keys : list string) : nat :=
  length (filter (λ x, x = k) keys).

(** The counter after counting a list of keys one by one. *)
Definition tally (keys : list string) (o : list (string * nat))
  : list (string * nat) :=
  fold_left (λ o k, increment k o) keys o.

(** ** [getJournals]

    The query parameters are taken as the route's validators admit them:
    [page] and [limit] are numerals of positive integers, the dates are ISO
    dates, here already read by [new Date(...)].  A parameter that is
    missing or empty is [None].  What MongoDB selects for a query is left
    to [find], which stands for [Journal.find(query).sort({ date: -1 })] in
    full, taken to be a function of the query and the collection;
    [countDocuments(query)] is the length of that list. *)

Record ListRequest := {
  query_startDate : option Date;
  query_endDate : option Date;
  query_tags : option string;
  query_processingStatus : option string;
  query_page : option positive;
  query_limit : option positive;
  list_user_id : nat
}.

(** [s.split(',')] *)
Fixpoint split_comma (s : string) : list string :=
  match s with
  | EmptyString => [EmptyString]
  | String c s' =>
      if Ascii.eqb c ","%char then EmptyString :: split_comma s'
      else
        match split_comma s' with
        | piece :: pieces => String c piece :: pieces
        | [] => [String c EmptyString]
        end
  end.

(** The [query] object. *)
Record JournalQuery := {
  userId_is : nat;
  date_gte : option Date;
  date_lte : option Date;
  tags_in : option (list string);
  processingStatus_is : option string
}.

(** [query.date]: both bounds, the lower one, the upper one, or none. *)
Definition dateRange (req : ListRequest) : option Date * option Date :=
  match query_startDate req, query_endDate req with
  | Some startDate, Some endDate => (Some startDate, Some endDate)
  | Some startDate, None => (Some startDate, None)
  | None, Some endDate => (None, Some endDate)
  | None, None => (None, None)
  end.

Definition buildQuery (req : ListRequest) : JournalQuery :=
  {| userId_is := list_user_id req;
     date_gte := fst (dateRange req);
     date_lte := snd (dateRange req);
     tags_in := split_comma <$> query_tags req;
     processingStatus_is := query_processingStatus req |}.

(** [Math.ceil(a / b)] on natural numbers, [b] not 0. *)
Definition ceil_div (a b : nat) : nat := (a + (b - 1)) / b.

Record Pagination := {
  current : positive;
  total : nat;
  hasNext : bool;
  hasPrev : bool
}.

Inductive ListResponse :=
| Listed (journals : list (nat * Journal.t)) (pagination : Pagination)
| ListError (message : string) (error : option string).

(** GET /api/journals *)
Definition getJournals (find : JournalQuery -> DB -> list (nat * Journal.t))
    (req : ListRequest) : M ListResponse :=
  try_catch
    (λ w,
       let query := buildQuery req in
       let page := Pos.to_nat (default 1%positive (query_page req)) in
       let limit := Pos.to_nat (default 10%positive (query_limit req)) in
       let skip := (page - 1) * limit in
       let journals := take limit (drop skip (find query (db w))) in
       let total := length (find query (db w)) in
       (Return
          (Listed journals
             {| current := default 1%positive (query_page req);
                total := ceil_div total limit;
                hasNext := (page * limit <? total)%nat;
                hasPrev := (1 <? page)%nat |}),
        w))
    (λ error, mret (ListError "Server error" (JS.message error))).

Definition with_page (page : positive) (req : ListRequest) : ListRequest :=
  {| query_startDate := query_startDate req;
     query_endDate := query_endDate req;
     query_tags := query_tags req;
     query_processingStatus := query_processingStatus req;
     query_page := Some page;
     query_limit := query_limit req;
     list_user_id := list_user_id req |}.

(** The entries a response lists. *)
Definition listed (r : Outcome ListResponse * World) : list (nat * Journal.t) :=
  match fst r with
  | Return (Listed journals _) => journals
  | _ => []
  end.

Definition pagination_of (r : Outcome ListResponse * World) : option Pagination :=
  match fst r with
  | Return (Listed _ pagination) => Some pagination
  | _ => None
  end.

(** ** controllers/mealController.js: the figures [getDailySummary] and
    [getMealStats] compute from the meals found *)

(** [meals.reduce((sum, meal) => sum + (meal.totalCalories || 0), 0)] *)
Definition totalCalories (meals : list Meal.t) : Q :=
  fold_left (λ sum meal, JS.add sum (JS.or_number (Meal.totalCalories meal) 0))
    meals 0%Q.

(** [meals.filter(meal => meal.time === time)] *)
Definition mealsAt (time : string) (meals : list Meal.t) : list Meal.t :=
  filter (λ meal, Meal.time meal = Some time) meals.

(** [mealsByTime] of [getDailySummary] *)
Record MealsByTime := {
  morning_meals : list Meal.t;
  noon_meals : list Meal.t;
  evening_meals : list Meal.t;
  night_meals : list Meal.t
}.

Definition mealsByTime (meals : list Meal.t) : MealsByTime :=
  {| morning_meals := mealsAt "morning" meals;
     noon_meals := mealsAt "noon" meals;
     evening_meals := mealsAt "evening" meals;
     night_meals := mealsAt "night" meals |}.

(** [timeDistribution] of [getMealStats] *)
Record TimeDistribution := {
  morning_count : nat;
  noon_count : nat;
  evening_count : nat;
  night_count : nat
}.

Definition timeDistribution (meals : list Meal.t) : TimeDistribution :=
  {| morning_count := length (mealsAt "morning" meals);
     noon_count := length (mealsAt "noon" meals);
     evening_count := length (mealsAt "evening" meals);
     night_count := length (mealsAt "night" meals) |}.

(** The calories of the food items of a meal, added up as the save hook
    adds them. *)
Definition itemTotal (meal : Meal.t) : Q :=
  fold_left (λ total item, JS.add total (JS.or_number (FoodItem.calories item) 0))
    (Meal.foodItems meal) 0%Q.

(** The calories of all the food items of a list of meals: their exact
    sum. *)
Definition calories_of_items (meals : list Meal.t) : Q :=
  foldr (λ meal acc, (sum_calories (Meal.foodItems meal) + acc)%Q) 0%Q meals.

(** Two documents handed to [Meal.create], and the meals stored for them. *)
Module Plates.

Definition dal : Meal.t :=
  {| Meal.userId := 7;
     Meal.date := 20250101%N;
     Meal.time := Some "noon";
     Meal.foodItems :=
       [{| FoodItem.name := "dal"; FoodItem.quantity := "1 bowl";
           FoodItem.calories := Some 180%Q; FoodItem.category := Some "lunch" |};
        {| FoodItem.name := "chawal"; FoodItem.quantity := "1 plate";
           FoodItem.calories := None; FoodItem.category := None |}];
     Meal.totalCalories := Some 999%Q;
     Meal.notes := None;
     Meal.isFromJournal := false;
     Meal.journalEntryId := None |}.

Definition tea : Meal.t :=
  {| Meal.userId := 7;
     Meal.date := 20250101%N;
     Meal.time := None;
     Meal.foodItems := [];
     Meal.totalCalories := Some 40%Q;
     Meal.notes := Some " with sugar ";
     Meal.isFromJournal := false;
     Meal.journalEntryId := None |}.

Definition stored : list Meal.t :=
  [Meal.preSave (Meal.init dal); Meal.preSave (Meal.init tea)].

End Plates.

(** * Lemmas *)

(** ** The addition of doubles *)

Lemma pow2_pos e : (0 < JS.pow2 e)%Q.
Proof.
  unfold JS.pow2. destruct (0 <=? e)%Z eqn:E.
  - apply Z.leb_le in E. change 0%Q with (inject_Z 0). rewrite <- Zlt_Qlt.
    by apply Z.pow_pos_nonneg.
  - done.
Qed.

Lemma pow2_inv e : (0 <= e)%Z -> (JS.pow2 e * JS.pow2 (- e) == 1)%Q.
Proof.
  intros He. destruct (decide (e = 0%Z)) as [->|Hne]; [done|].
  unfold JS.pow2.
  destruct (0 <=? e)%Z eqn:E1; [|apply Z.leb_gt in E1; lia].
  destruct (0 <=? - e)%Z eqn:E2; [apply Z.leb_le in E2; lia|].
  rewrite Z.opp_involutive.
  assert (0 < 2 ^ e)%Z as Hpos by (apply Z.pow_pos_nonneg; lia).
  unfold Qeq, Qmult, inject_Z. simpl. rewrite Pos.mul_1_l, Z2Pos.id by done. lia.
Qed.

Lemma roundEven_proper q q' : (q == q')%Q -> JS.roundEven q = JS.roundEven q'.
Proof.
  intros H. unfold JS.roundEven. rewrite (Qfloor_comp _ _ H).
  rewrite (Qcompare_comp (q - inject_Z (Qfloor q'))%Q (q' - inject_Z (Qfloor q'))%Q
             (Qplus_comp _ _ H _ _ (Qeq_refl _)) (1 # 2)%Q (1 # 2)%Q (Qeq_refl _)).
  done.
Qed.

Lemma roundEven_Z z : JS.roundEven (inject_Z z) = z.
Proof.
  unfold JS.roundEven. rewrite Qfloor_Z.
  assert (Qcompare (inject_Z z - inject_Z z)%Q (1 # 2)%Q = Lt) as ->; [|done].
  apply Qlt_alt. apply (Qle_lt_trans _ 0); [|reflexivity].
  apply Qle_lteq. right. apply Qplus_opp_r.
Qed.

Lemma roundEven_nonneg q : (0 <= q)%Q -> (0 <= JS.roundEven q)%Z.
Proof.
  intros Hq. assert (0 <= Qfloor q)%Z as Hf.
  { change 0%Z with (Qfloor 0). by apply Qfloor_resp_le. }
  unfold JS.roundEven.
  destruct (Qcompare _ _); [destruct (Z.even _)|..]; lia.
Qed.

Lemma nearest_nonneg q : (0 <= q)%Q -> (0 <= JS.nearest q)%Q.
Proof.
  intros Hq. unfold JS.nearest. apply Qmult_le_0_compat.
  - change 0%Q with (inject_Z 0). rewrite <- Zle_Qle. apply roundEven_nonneg.
    apply Qmult_le_0_compat; [done|]. apply Qlt_le_weak, pow2_pos.
  - apply Qlt_le_weak, pow2_pos.
Qed.

Lemma round64_proper q q' : (q == q')%Q -> JS.round64 q = JS.round64 q'.
Proof. intros H. unfold JS.round64. by rewrite (Qred_complete q q' H). Qed.

Lemma round64_nonneg q : (0 <= q)%Q -> (0 <= JS.round64 q)%Q.
Proof.
  intros Hq. unfold JS.round64.
  destruct (Qcompare (Qred q) 0) eqn:E.
  - done.
  - apply Qlt_alt in E. rewrite Qred_correct in E.
    by apply Qlt_not_le in E.
  - rewrite Qred_correct. apply nearest_nonneg. by rewrite Qred_correct.
Qed.

Lemma ilog2_Z n : (0 < n)%Z -> JS.ilog2 (inject_Z n) = Z.log2 n.
Proof.
  intros Hn. unfold JS.ilog2. simpl. rewrite Z.sub_0_r.
  assert (Qle_bool (JS.pow2 (Z.log2 n)) (inject_Z n) = true) as ->; [|done].
  apply Qle_bool_iff. unfold JS.pow2.
  pose proof (Z.log2_nonneg n) as Hl. apply Z.leb_le in Hl. rewrite Hl.
  rewrite <- Zle_Qle. by apply Z.log2_spec.
Qed.

Lemma nearest_Z n : (0 < n < 2 ^ 53)%Z -> (JS.nearest (inject_Z n) == inject_Z n)%Q.
Proof.
  intros [Hn Hlt]. unfold JS.nearest. rewrite (ilog2_Z n Hn).
  pose proof (Z.log2_nonneg n) as Hl.
  assert (Z.log2 n < 53)%Z as Hl' by (by apply Z.log2_lt_pow2).
  rewrite Z.max_l by lia.
  set (k := (52 - Z.log2 n)%Z).
  replace (- (Z.log2 n - 52))%Z with k by lia.
  replace (Z.log2 n - 52)%Z with (- k)%Z by lia.
  assert (0 <= k)%Z as Hk by lia. clearbody k.
  assert (JS.pow2 k = inject_Z (2 ^ k)) as Hp.
  { unfold JS.pow2. apply Z.leb_le in Hk. by rewrite Hk. }
  rewrite (roundEven_proper _ (inject_Z (n * 2 ^ k))).
  2:{ by rewrite Hp, inject_Z_mult. }
  rewrite roundEven_Z, inject_Z_mult, <- Hp, <- Qmult_assoc, pow2_inv by done.
  apply Qmult_1_r.
Qed.

Lemma Qred_Z n : Qred (inject_Z n) = inject_Z n.
Proof.
  unfold Qred, inject_Z.
  pose proof (Z.ggcd_gcd n 1) as Hg.
  pose proof (Z.ggcd_correct_divisors n 1) as Hd.
  destruct (Z.ggcd n 1) as [g [a b]]. simpl in *.
  rewrite Z.gcd_1_r in Hg. subst g. destruct Hd as [Ha Hb].
  rewrite Z.mul_1_l in Ha, Hb. by subst.
Qed.

Lemma round64_Z n : (0 <= n < 2 ^ 53)%Z -> (JS.round64 (inject_Z n) == inject_Z n)%Q.
Proof.
  intros [Hn Hlt]. unfold JS.round64. rewrite Qred_Z.
  destruct (Qcompare (inject_Z n) 0) eqn:E.
  - apply Qeq_alt in E. by rewrite E.
  - apply Qlt_alt in E. change 0%Q with (inject_Z 0) in E.
    rewrite <- Zlt_Qlt in E. lia.
  - apply Qgt_alt in E. change 0%Q with (inject_Z 0) in E.
    rewrite <- Zlt_Qlt in E. rewrite Qred_correct. by apply nearest_Z.
Qed.

Lemma add_proper x y x' y' :
  (x == x')%Q -> (y == y')%Q -> JS.add x y = JS.add x' y'.
Proof.
  intros Hx Hy. unfold JS.add.
  by rewrite (round64_proper x x' Hx), (round64_proper y y' Hy).
Qed.

Lemma add_nonneg x y : (0 <= x)%Q -> (0 <= y)%Q -> (0 <= JS.add x y)%Q.
Proof.
  intros Hx Hy. apply round64_nonneg.
  apply (Qplus_le_compat 0 _ 0 _ (round64_nonneg x Hx) (round64_nonneg y Hy)).
Qed.

Lemma add_whole x y :
  whole x -> whole y -> (x + y < inject_Z (2 ^ 53))%Q ->
  (JS.add x y == x + y)%Q ∧ whole (JS.add x y).
Proof.
  intros (a & Ha & Hx) (b & Hb & Hy) Hlt.
  assert (a + b < 2 ^ 53)%Z as Hab.
  { rewrite Hx, Hy, <- inject_Z_plus, <- Zlt_Qlt in Hlt. done. }
  assert (JS.round64 x == inject_Z a)%Q as Hrx.
  { rewrite (round64_proper x (inject_Z a) Hx). apply round64_Z. lia. }
  assert (JS.round64 y == inject_Z b)%Q as Hry.
  { rewrite (round64_proper y (inject_Z b) Hy). apply round64_Z. lia. }
  assert (JS.add x y == inject_Z (a + b))%Q as Heq.
  { unfold JS.add. rewrite (round64_proper _ (inject_Z (a + b))).
    - apply round64_Z. lia.
    - by rewrite Hrx, Hry, inject_Z_plus. }
  split.
  - by rewrite Heq, Hx, Hy, inject_Z_plus.
  - exists (a + b)%Z. split; [lia|done].
Qed.

(** 0.1 + 0.1 + 0.1 is 0.30000000000000004, not 0.3. *)
Example tenths_do_not_add_up :
  JS.round64 (1 # 10) = (3602879701896397 # 36028797018963968)%Q ∧
  JS.add (JS.add (JS.add 0 (1 # 10)) (1 # 10)) (1 # 10)
    = (1351079888211149 # 4503599627370496)%Q ∧
  JS.round64 (3 # 10) = (5404319552844595 # 18014398509481984)%Q.
Proof. vm_compute. repeat split. Qed.

Lemma whole_nonneg q : whole q -> (0 <= q)%Q.
Proof.
  intros (k & Hk & ->). change 0%Q with (inject_Z 0). by rewrite <- Zle_Qle.
Qed.

Lemma whole_0 : whole 0.
Proof. exists 0%Z. split; [lia|done]. Qed.

Section Sums.
Context {A : Type} (f g : A -> Q).

Lemma foldr_nonneg l :
  Forall (λ x, (0 <= g x)%Q) l -> (0 <= foldr (λ x a, g x + a) 0 l)%Q.
Proof.
  induction 1 as [|x l Hx _ IH]; simpl; [done|].
  apply (Qplus_le_compat 0 (g x) 0 _ Hx IH).
Qed.

Lemma fold_add_nonneg l acc :
  (0 <= acc)%Q -> Forall (λ x, (0 <= f x)%Q) l ->
  (0 <= fold_left (λ t x, JS.add t (f x)) l acc)%Q.
Proof.
  intros Hacc Hl. revert acc Hacc.
  induction Hl as [|x l Hx _ IH]; intros acc Hacc; simpl; [done|].
  apply IH. by apply add_nonneg.
Qed.

(** Below [2 ^ 53] the sum of non-negative integers is exact. *)
Lemma fold_add_exact l acc :
  whole acc ->
  Forall (λ x, (f x == g x)%Q ∧ whole (g x)) l ->
  (acc + foldr (λ x a, g x + a) 0 l < inject_Z (2 ^ 53))%Q ->
  (fold_left (λ t x, JS.add t (f x)) l acc == acc + foldr (λ x a, g x + a) 0 l)%Q.
Proof.
  intros Hacc Hl. revert acc Hacc.
  induction Hl as [|x l [Hfg Hw] Hl IH]; intros acc Hacc Hlt; simpl in *.
  - ring.
  - assert (0 <= foldr (λ x a, g x + a) 0 l)%Q as Hrest.
    { apply foldr_nonneg. eapply Forall_impl; [exact Hl|].
      intros y [_ Hy]. by apply whole_nonneg. }
    assert (acc + g x < inject_Z (2 ^ 53))%Q as Hstep.
    { eapply Qle_lt_trans; [|exact Hlt].
      rewrite Qplus_assoc. rewrite <- (Qplus_0_r (acc + g x)) at 1.
      by apply Qplus_le_r. }
    destruct (add_whole acc (g x) Hacc Hw Hstep) as [Heq Hwh].
    rewrite (add_proper acc (f x) acc (g x) (Qeq_refl acc) Hfg).
    rewrite IH; [rewrite Heq; ring|exact Hwh|].
    rewrite Heq, <- Qplus_assoc. exact Hlt.
Qed.

Lemma whole_plus a b : whole a -> whole b -> whole (a + b).
Proof.
  intros (x & Hx & Ha) (y & Hy & Hb). exists (x + y)%Z. split; [lia|].
  by rewrite Ha, Hb, inject_Z_plus.
Qed.

Lemma foldr_whole l :
  Forall (λ x, whole (g x)) l -> whole (foldr (λ x a, g x + a)%Q 0%Q l).
Proof.
  induction 1 as [|x l Hx _ IH]; simpl; [apply whole_0|]. by apply whole_plus.
Qed.

Lemma foldr_elem_le l x :
  Forall (λ x, (0 <= g x)%Q) l -> x ∈ l ->
  (g x <= foldr (λ x a, g x + a) 0 l)%Q.
Proof.
  induction 1 as [|y l Hy Hl IH]; [by intros ?%elem_of_nil|]. simpl.
  intros [->|Hx]%elem_of_cons.
  - rewrite <- (Qplus_0_r (g y)) at 1. apply Qplus_le_r. by apply foldr_nonneg.
  - eapply Qle_trans; [by apply IH|].
    rewrite <- (Qplus_0_l (foldr _ _ _)) at 1. by apply Qplus_le_l.
Qed.

End Sums.

Section Loops.
Context {A B : Type} (c : Collection) (add : B -> DB -> DB).

Lemma forEach_ext (f g : A -> M unit) l w :
  (∀ x w', f x w' = g x w') -> forEach l f w = forEach l g w.
Proof.
  intros Hfg. revert w. induction l as [|x l IH]; intros w; [done|].
  simpl. run. rewrite Hfg. destruct (g x w) as [[[]|e] w']; [apply IH|done].
Qed.

Lemma forEach_save (f : A -> Schema.Result B) l w :
  forEach l (λ x, save c add (f x)) w = written c add (map f l) w.
Proof.
  revert w. induction l as [|x l IH]; intros w; [done|].
  simpl. run. unfold written. simpl. destruct (f x) as [d|e]; simpl.
  - rewrite IH. done.
  - done.
Qed.
End Loops.

Lemma createMeals_written env u date id pd w :
  createMeals env u date id pd w = written Meals add_meal (mealResults env u date id pd) w.
Proof.
  unfold createMeals, mealResults.
  destruct (ParsedData.meals pd) as [[|m l]|]; [done| |done].
  rewrite <- forEach_save. apply forEach_ext. intros x w'.
  unfold mealResult. by destruct (MealData.items x).
Qed.

Lemma createMedicines_written env u date id pd w :
  createMedicines env u date id pd w =
  written Medicines add_medicine (medicineResults env u date id pd) w.
Proof.
  unfold createMedicines, medicineResults.
  destruct (ParsedData.medicines pd) as [[|m l]|]; [done| |done].
  by rewrite <- forEach_save.
Qed.

Lemma createBodyStats_written env u date id pd w :
  createBodyStats env u date id pd w =
  written BodyStats add_bodyStat (bodyStatResults env u date id pd) w.
Proof.
  unfold createBodyStats, bodyStatResults, written.
  destruct (ParsedData.bodyStats pd) as [s|]; [|done].
  by destruct (BodyStat.create _).
Qed.

Lemma createTests_written env u date id pd w :
  createTests env u date id pd w =
  written Tests add_test (testResults env u date id pd) w.
Proof.
  unfold createTests, testResults.
  destruct (ParsedData.tests pd) as [[|m l]|]; [done| |done].
  by rewrite <- forEach_save.
Qed.

Section Written.
Context {B : Type} (c : Collection) (add : B -> DB -> DB).
Hypothesis Hc : derived c = true.
Hypothesis Hadd : ∀ r d, journals (add r d) = journals d.

Lemma stored_spec ds w :
  ∃ obs,
    stored c add ds w =
      {| db := fold_left (λ d r, add r d) ds (db w); log := log w ++ obs |} ∧
    Forall (λ o, is_write (fst o) = true ∧ journals (snd o) = journals (db w)) obs.
Proof.
  revert w. induction ds as [|d ds IH]; intros w; simpl.
  - exists []. rewrite app_nil_r. by destruct w.
  - destruct (IH (observe (Created c) (add d (db w)) w)) as (obs & -> & Hobs).
    exists ((Created c, add d (db w)) :: obs). simpl. rewrite <- app_assoc. split; [done|].
    constructor; [simpl; split; [exact Hc|apply Hadd]|].
    eapply Forall_impl; [exact Hobs|]. simpl. intros o [? ->]. split; [done|apply Hadd].
Qed.

Lemma fold_add_journals ds d :
  journals (fold_left (λ d r, add r d) ds d) = journals d.
Proof. revert d. induction ds as [|x ds IH]; intros d; simpl; [done|]. by rewrite IH, Hadd. Qed.

Lemma written_spec rs w :
  ∃ obs,
    written c add rs w =
      (match rejection rs with
       | None => Return tt
       | Some e => Throw e
       end,
       {| db := fold_left (λ d r, add r d) (accepted rs) (db w);
          log := log w ++ obs |}) ∧
    Forall (λ o, journals (snd o) = journals (db w)) obs ∧
    fan_events (rejection rs) (map fst obs).
Proof.
  unfold written.
  destruct (stored_spec (accepted rs) w) as (obs & -> & Hobs).
  destruct (rejection rs) as [e|].
  - exists (obs ++ [(Rejected c, fold_left (λ d r, add r d) (accepted rs) (db w))]).
    unfold observe. simpl. rewrite app_assoc. split; [done|]. split.
    + apply Forall_app. split.
      * eapply Forall_impl; [exact Hobs|]. by intros o [_ ?].
      * constructor; [|constructor]. simpl. apply fold_add_journals.
    + exists (map fst obs), [Rejected c]. rewrite map_app. split; [done|]. split.
      * apply Forall_map. eapply Forall_impl; [exact Hobs|]. by intros o [? _].
      * by exists c.
  - exists obs. split; [done|]. split.
    + eapply Forall_impl; [exact Hobs|]. by intros o [_ ?].
    + exists (map fst obs), []. rewrite app_nil_r. split; [done|]. split; [|done].
      apply Forall_map. eapply Forall_impl; [exact Hobs|]. by intros o [? _].
Qed.
End Written.

Lemma fold_add_meal ds d :
  fold_left (λ d r, add_meal r d) ds d =
  {| journals := journals d; meals := meals d ++ ds; medicines := medicines d;
     bodyStats := bodyStats d; tests := tests d |}.
Proof.
  revert d. induction ds as [|x ds IH]; intros d; simpl.
  - rewrite app_nil_r. by destruct d.
  - rewrite IH. simpl. by rewrite <- app_assoc.
Qed.

Lemma fold_add_medicine ds d :
  fold_left (λ d r, add_medicine r d) ds d =
  {| journals := journals d; meals := meals d; medicines := medicines d ++ ds;
     bodyStats := bodyStats d; tests := tests d |}.
Proof.
  revert d. induction ds as [|x ds IH]; intros d; simpl.
  - rewrite app_nil_r. by destruct d.
  - rewrite IH. simpl. by rewrite <- app_assoc.
Qed.

Lemma fold_add_bodyStat ds d :
  fold_left (λ d r, add_bodyStat r d) ds d =
  {| journals := journals d; meals := meals d; medicines := medicines d;
     bodyStats := bodyStats d ++ ds; tests := tests d |}.
Proof.
  revert d. induction ds as [|x ds IH]; intros d; simpl.
  - rewrite app_nil_r. by destruct d.
  - rewrite IH. simpl. by rewrite <- app_assoc.
Qed.

Lemma fold_add_test ds d :
  fold_left (λ d r, add_test r d) ds d =
  {| journals := journals d; meals := meals d; medicines := medicines d;
     bodyStats := bodyStats d; tests := tests d ++ ds |}.
Proof.
  revert d. induction ds as [|x ds IH]; intros d; simpl.
  - rewrite app_nil_r. by destruct d.
  - rewrite IH. simpl. by rewrite <- app_assoc.
Qed.

Lemma fan_events_app evs1 evs2 e :
  fan_events None evs1 -> fan_events e evs2 -> fan_events e (evs1 ++ evs2).
Proof.
  intros (ws1 & rj1 & -> & H1 & ->) (ws2 & rj2 & -> & H2 & Hrj).
  exists (ws1 ++ ws2), rj2. rewrite app_nil_r, app_assoc. split; [done|]. split; [|done].
  by apply Forall_app.
Qed.

Lemma fanOut_spec env u date id pd w :
  ∃ obs,
    fanOut env u date id pd w =
      (match fanOutError env u date id pd with
       | None => Return tt
       | Some e => Throw e
       end,
       {| db := extend (db w) (fanned env u date id pd); log := log w ++ obs |}) ∧
    Forall (λ o, journals (snd o) = journals (db w)) obs ∧
    fan_events (fanOutError env u date id pd) (map fst obs).
Proof.
  unfold fanOut, fanOutError, fanned. run.
  rewrite createMeals_written.
  destruct (written_spec Meals add_meal eq_refl (λ _ _, eq_refl) (mealResults env u date id pd) w)
    as (o1 & -> & Hj1 & He1).
  rewrite fold_add_meal.
  destruct (rejection (mealResults env u date id pd)) as [e1|]; simpl.
  { exists o1. unfold extend. simpl. rewrite !app_nil_r. done. }
  rewrite createMedicines_written.
  match goal with |- context [written _ _ _ ?w1] =>
    destruct (written_spec Medicines add_medicine eq_refl (λ _ _, eq_refl)
                (medicineResults env u date id pd) w1) as (o2 & -> & Hj2 & He2) end.
  rewrite fold_add_medicine. simpl in *.
  destruct (rejection (medicineResults env u date id pd)) as [e2|]; simpl.
  { exists (o1 ++ o2). unfold extend. simpl. rewrite !app_nil_r, app_assoc.
    split; [done|]. split; [by apply Forall_app|]. rewrite map_app. by apply fan_events_app. }
  rewrite createBodyStats_written.
  match goal with |- context [written _ _ _ ?w1] =>
    destruct (written_spec BodyStats add_bodyStat eq_refl (λ _ _, eq_refl)
                (bodyStatResults env u date id pd) w1) as (o3 & -> & Hj3 & He3) end.
  rewrite fold_add_bodyStat. simpl in *.
  destruct (rejection (bodyStatResults env u date id pd)) as [e3|]; simpl.
  { exists (o1 ++ o2 ++ o3). unfold extend. simpl. rewrite !app_nil_r, !app_assoc.
    split; [done|]. split; [by rewrite !Forall_app|]. rewrite !map_app.
    apply fan_events_app; [|done]. by apply fan_events_app. }
  rewrite createTests_written.
  match goal with |- context [written _ _ _ ?w1] =>
    destruct (written_spec Tests add_test eq_refl (λ _ _, eq_refl)
                (testResults env u date id pd) w1) as (o4 & -> & Hj4 & He4) end.
  rewrite fold_add_test. simpl in *.
  exists (o1 ++ o2 ++ o3 ++ o4). unfold extend. simpl. rewrite !app_assoc.
  split; [done|]. split; [by rewrite !Forall_app|]. rewrite !map_app.
  apply fan_events_app; [|done]. apply fan_events_app; [|done]. by apply fan_events_app.
Qed.

(** ** [trim] *)

Example trim_lunchText :
  JS.trim Scenario.lunchText = "Had dal chawal for lunch, drank 2 liters of water".
Proof. reflexivity. Qed.

Example trim_blank : JS.trim (String (ascii_of_nat 9) "  ") = "".
Proof. reflexivity. Qed.

Lemma trimStart_head s :
  JS.trimStart s = "" ∨
  ∃ c t, JS.trimStart s = String c t ∧ JS.isWhiteSpace c = false.
Proof.
  induction s as [|c s IH]; simpl; [by left|].
  destruct (JS.isWhiteSpace c) eqn:Hc; [done|]. right. by exists c, s.
Qed.

Lemma trimEnd_head c t :
  JS.isWhiteSpace c = false -> ∃ t', JS.trimEnd (String c t) = String c t'.
Proof.
  intros Hc. simpl. destruct (JS.trimEnd t); [|by eexists].
  rewrite Hc. by eexists.
Qed.

Lemma trimEnd_idempotent s : JS.trimEnd (JS.trimEnd s) = JS.trimEnd s.
Proof.
  induction s as [|c s IH]; simpl; [done|].
  destruct (JS.trimEnd s) as [|a t] eqn:Hs.
  - destruct (JS.isWhiteSpace c) eqn:Hc; simpl; [done|]. by rewrite Hc.
  - change (JS.trimEnd (String c (String a t))) with
      (match JS.trimEnd (String a t) with
       | EmptyString =>
           if JS.isWhiteSpace c then EmptyString else String c EmptyString
       | String _ _ as t' => String c t'
       end).
    by rewrite IH.
Qed.

(** Trimming a trimmed text changes nothing: a retried text is submitted as
    it was stored. *)
Lemma trim_idempotent s : JS.trim (JS.trim s) = JS.trim s.
Proof.
  unfold JS.trim. destruct (trimStart_head s) as [->|(c & t & -> & Hc)]; [done|].
  destruct (trimEnd_head c t Hc) as [t' Ht']. rewrite Ht'. simpl JS.trimStart.
  rewrite Hc, <- Ht'. apply trimEnd_idempotent.
Qed.

(** ** Strings and truthiness *)

Lemma truthy_string_true s : JS.truthy_string s = true <-> s ≠ "".
Proof.
  unfold JS.truthy_string. destruct (String.eqb_spec s ""); simpl; split; congruence.
Qed.

Lemma trim_nonempty t : JS.trim t ≠ "" -> t ≠ "".
Proof. intros H ->. by apply H. Qed.

Lemma hasText_true req :
  hasText req = true <->
  ∃ t, body_rawText req = Some t ∧ JS.trim t ≠ "".
Proof.
  unfold hasText. split.
  - destruct (body_rawText req) as [t|]; [|done].
    intros [_ H]%andb_true_iff. exists t. split; [done|]. by apply truthy_string_true.
  - intros (t & -> & Ht). apply andb_true_iff. split; apply truthy_string_true; [|done].
    by apply trim_nonempty.
Qed.

Lemma hasText_text req : hasText req = true -> text req ≠ "".
Proof. intros (t & Ht & Hne)%hasText_true. unfold text. by rewrite Ht. Qed.

(** The controller trims the text before the schema's setter does. *)
Lemma text_trimmed req : JS.trim (text req) = text req.
Proof. apply trim_idempotent. Qed.

Lemma aiValidation_hasText req rawText :
  body_rawText req = Some rawText -> aiValidation rawText = true -> hasText req = true.
Proof.
  intros Hreq [Hlen _]%andb_true_iff. apply hasText_true. exists rawText. split; [done|].
  intros Heq. rewrite Heq in Hlen. done.
Qed.

(** ** Symbolic execution of the handlers *)

Lemma Journal_create_text u d t s :
  JS.trim t ≠ "" ->
  Journal.create (Journal.new u d t s) = Schema.Saved (Journal.preSave (Journal.new u d t s)).
Proof.
  intros Ht%truthy_string_true. unfold Journal.create, Journal.validate, Schema.required.
  simpl. by rewrite Ht.
Qed.

Lemma parse_no_text env req w :
  hasText req = false -> parseJournalEntry env req w = (Return TextRequired, w).
Proof.
  unfold parseJournalEntry, hasText. run.
  destruct (body_rawText req) as [t|]; [|done].
  intros H. rewrite <- negb_andb, H. done.
Qed.

Lemma parse_run env req w :
  hasText req = true ->
  parseJournalEntry env req w =
    let id := nextId w in
    let w1 := requested env req w in
    match axios_post env (systemPrompt env (text req)) with
    | Throw e =>
        (Return (ProcessingFailed (JS.message e) id), updated id (failedUpdate e) w1)
    | Return raw =>
        match JSON_parse env raw with
        | None =>
            (Return (DecodeFailed id raw), updated id (decodeFailedUpdate raw) w1)
        | Some pd =>
            match fanOut env (user_id req) (body_date req) id pd
                    (updated id (completedUpdate pd raw) w1) with
            | (Return _, w3) => (Return (Parsed id pd (createdItems pd)), w3)
            | (Throw e, w3) =>
                (Return (ProcessingFailed (JS.message e) id),
                 updated id (failedUpdate e) w3)
            end
        end
    end.
Proof.
  intros H. pose proof (hasText_text _ H) as Hne. unfold hasText in H. unfold text in *.
  unfold parseJournalEntry. run.
  destruct (body_rawText req) as [t|] eqn:Ht; [|done]. simpl in *.
  rewrite <- negb_andb, H. simpl.
  rewrite <- trim_idempotent in Hne.
  unfold Journal_create. rewrite (Journal_create_text _ _ _ _ Hne). simpl.
  unfold processEntry. run. unfold request. simpl.
  unfold requested, submitted, nextId, newEntry, text. rewrite Ht. simpl.
  destruct (axios_post env _) as [raw|e]; [|done].
  destruct (JSON_parse env raw) as [pd|]; [|done].
  unfold Journal_findByIdAndUpdate, updated. simpl.
  match goal with |- context [fanOut ?a ?b ?c ?d ?e ?f] => destruct (fanOut a b c d e f) as [[[]|e'] w3] end; done.
Qed.

Lemma parse_decoded env req raw pd w :
  hasText req = true ->
  axios_post env (systemPrompt env (text req)) = Return raw ->
  JSON_parse env raw = Some pd ->
  let id := nextId w in
  let w2 := updated id (completedUpdate pd raw) (requested env req w) in
  let F := fanned env (user_id req) (body_date req) id pd in
  ∃ obs,
    Forall (λ o, journals (snd o) = journals (db w2)) obs ∧
    fan_events (fanOutError env (user_id req) (body_date req) id pd) (map fst obs) ∧
    parseJournalEntry env req w =
      match fanOutError env (user_id req) (body_date req) id pd with
      | None =>
          (Return (Parsed id pd (createdItems pd)),
           {| db := extend (db w2) F; log := log w2 ++ obs |})
      | Some e =>
          (Return (ProcessingFailed (JS.message e) id),
           updated id (failedUpdate e)
             {| db := extend (db w2) F; log := log w2 ++ obs |})
      end.
Proof.
  intros H Hax Hjs id w2 F.
  destruct (fanOut_spec env (user_id req) (body_date req) id pd w2) as (obs & Hrun & Hj & Hev).
  exists obs. split; [done|]. split; [done|].
  rewrite (parse_run _ _ _ H), Hax, Hjs. simpl. fold id. fold w2. rewrite Hrun.
  by destruct (fanOutError _ _ _ _ _).
Qed.

(** ** Entries *)

Lemma nextId_fresh w : entry (db w) (nextId w) = None.
Proof. unfold entry, nextId. apply not_elem_of_dom, is_fresh. Qed.

Lemma entry_submitted env req w k :
  entry (submitted env req w) k =
  if decide (k = nextId w) then Some (newEntry env req) else entry (db w) k.
Proof.
  unfold entry, submitted. simpl. rewrite lookup_insert. by repeat case_decide.
Qed.

Lemma entry_alter f id d k :
  entry (with_journals (alter f id) d) k =
  if decide (k = id) then f <$> entry d id else entry d k.
Proof.
  unfold entry. simpl. rewrite lookup_alter. repeat case_decide; congruence.
Qed.


Lemma alter_insert_same {V} (f : V -> V) (i : nat) (x : V) (m : gmap nat V) :
  alter f i (<[i:=x]> m) = <[i:=f x]> m.
Proof.
  apply map_eq. intros k. rewrite lookup_alter, !lookup_insert.
  repeat case_decide; try congruence. done.
Qed.

Lemma journals_updated_submitted env req w u obs1 :
  journals (db (updated (nextId w) u {| db := submitted env req w; log := obs1 |})) =
  <[nextId w := Journal.assign u (newEntry env req)]> (journals (db w)).
Proof. unfold updated, submitted. simpl. apply alter_insert_same. Qed.

Lemma preSave_fields j :
  Journal.rawText (Journal.preSave j) = Journal.rawText j ∧
  Journal.userId (Journal.preSave j) = Journal.userId j ∧
  Journal.date (Journal.preSave j) = Journal.date j ∧
  Journal.processingStatus (Journal.preSave j) = Journal.processingStatus j ∧
  Journal.processingError (Journal.preSave j) = Journal.processingError j ∧
  Journal.parsedData (Journal.preSave j) = Journal.parsedData j ∧
  Journal.aiResponse (Journal.preSave j) = Journal.aiResponse j ∧
  Journal.isProcessed (Journal.preSave j) = Journal.isProcessed j.
Proof. unfold Journal.preSave. by destruct (JS.truthy_string _). Qed.

(** Every accepted submission stores the new entry under the fresh id,
    possibly updated, and answers with that id. *)
Lemma parse_journals env req w :
  hasText req = true ->
  ∃ resp w' j,
    parseJournalEntry env req w = (Return resp, w') ∧
    journals (db w') = <[nextId w := j]> (journals (db w)) ∧
    same_identity (newEntry env req) j ∧
    journalId_of resp = Some (nextId w).
Proof.
  intros H. rewrite (parse_run _ _ _ H). simpl.
  destruct (axios_post env _) as [raw|e] eqn:Hax.
  2:{ eexists _, _, _. split; [done|]. split; [apply journals_updated_submitted|]. done. }
  destruct (JSON_parse env raw) as [pd|] eqn:Hjs.
  2:{ eexists _, _, _. split; [done|]. split; [apply journals_updated_submitted|]. done. }
  destruct (fanOut_spec env (user_id req) (body_date req) (nextId w) pd
              (updated (nextId w) (completedUpdate pd raw) (requested env req w)))
    as (obs & -> & _ & _).
  destruct (fanOutError _ _ _ _ _) as [e|].
  - eexists _, _, _. split; [done|]. split; [|split; [|done]].
    + unfold updated, requested, submitted. simpl. rewrite !alter_insert_same. done.
    + done.
  - eexists _, _, _. split; [done|]. split; [|split; [|done]].
    + unfold updated, requested, submitted. simpl. apply alter_insert_same.
    + done.
Qed.

Lemma newEntry_fields env req :
  Journal.rawText (newEntry env req) = text req ∧
  Journal.userId (newEntry env req) = user_id req ∧
  Journal.date (newEntry env req) = JS.or_object (body_date req) (new_Date env) ∧
  Journal.processingStatus (newEntry env req) = Journal.processing ∧
  Journal.processingError (newEntry env req) = None ∧
  Journal.parsedData (newEntry env req) = None ∧
  Journal.aiResponse (newEntry env req) = None ∧
  Journal.isProcessed (newEntry env req) = false.
Proof.
  unfold newEntry.
  destruct (preSave_fields (Journal.new (user_id req)
              (JS.or_object (body_date req) (new_Date env)) (text req)
              Journal.processing))
    as (-> & -> & -> & -> & -> & -> & -> & ->).
  simpl. by rewrite text_trimmed.
Qed.

(** ** What [Model.create] stores *)

Section Accepted.
Context {A B : Type} (f : A -> Schema.Result B).

Lemma accepted_take l :
  Forall2 (λ x r, f x = Schema.Saved r)
    (take (length (accepted (map f l))) l) (accepted (map f l)).
Proof.
  induction l as [|x l IH]; simpl; [constructor|].
  destruct (f x) as [d|e] eqn:Hfx; simpl; [|constructor].
  by constructor.
Qed.

Lemma accepted_all l :
  rejection (map f l) = None -> length (accepted (map f l)) = length l.
Proof.
  induction l as [|x l IH]; simpl; [done|].
  destruct (f x) as [d|e]; simpl; [|done]. intros H. by rewrite IH.
Qed.

Lemma accepted_elem l r :
  r ∈ accepted (map f l) -> ∃ x, x ∈ l ∧ f x = Schema.Saved r.
Proof.
  induction l as [|x l IH]; simpl; [by intros ?%elem_of_nil|].
  destruct (f x) as [d|e] eqn:Hfx; simpl; [|by intros ?%elem_of_nil].
  intros [->|Hr]%elem_of_cons.
  - exists x. split; [left|done].
  - destruct (IH Hr) as (y & Hy & Hfy). exists y. split; [by right|done].
Qed.

(** The loop stops at the first document that is refused. *)
Lemma accepted_stop l x :
  l !! length (accepted (map f l)) = Some x -> ¬ ∃ r, f x = Schema.Saved r.
Proof.
  induction l as [|y l IH]; simpl; [done|].
  destruct (f y) as [d|e] eqn:Hfy; simpl; [exact IH|].
  intros [= <-] [r Hr]. congruence.
Qed.

Lemma accepted_lookup l i :
  is_Some (accepted (map f l) !! i) <->
  i < length l ∧ Forall (λ x, ∃ r, f x = Schema.Saved r) (take (S i) l).
Proof.
  revert i. induction l as [|y l IH]; intros i; simpl.
  - split; [by intros [? ?]|intros [? _]; lia].
  - destruct (f y) as [d|e] eqn:Hfy; simpl.
    + destruct i as [|i]; simpl.
      * split; [|by eexists]. intros _. split; [lia|].
        rewrite take_0. constructor; [by eexists|constructor].
      * rewrite IH. split.
        -- intros [Hi Hl]. split; [lia|]. constructor; [by eexists|done].
        -- intros [Hi Hl]. split; [lia|]. by inversion Hl.
    + split; [by intros [? ?]|]. intros [_ Hl].
      inversion Hl as [|? ? [r Hr] _]; subst. congruence.
Qed.

Lemma accepted_lookup_Some l i r :
  accepted (map f l) !! i = Some r -> ∃ x, l !! i = Some x ∧ f x = Schema.Saved r.
Proof.
  intros Hr.
  destruct (Forall2_lookup_r _ _ _ _ _ (accepted_take l) Hr) as (x & Hx & Hfx).
  exists x. split; [|done]. apply lookup_take_Some in Hx. by destruct Hx.
Qed.
End Accepted.

Lemma Meal_create_saved doc r :
  Meal.create doc = Schema.Saved r -> r = Meal.preSave (Meal.init doc).
Proof.
  unfold Meal.create. destruct (Meal.validate _); [|done]. by intros [= <-].
Qed.

Lemma Medicine_create_saved doc r :
  Medicine.create doc = Schema.Saved r -> r = Medicine.init doc.
Proof.
  unfold Medicine.create. destruct (Medicine.validate _); [|done]. by intros [= <-].
Qed.

Lemma BodyStat_create_saved doc r :
  BodyStat.create doc = Schema.Saved r ->
  r = BodyStat.init doc ∧ BodyStat.validate (BodyStat.init doc) = [].
Proof.
  unfold BodyStat.create. destruct (BodyStat.validate _) eqn:Hv; [|done]. by intros [= <-].
Qed.

Lemma BodyStat_create_valid doc :
  BodyStat.validate (BodyStat.init doc) = [] ->
  BodyStat.create doc = Schema.Saved (BodyStat.init doc).
Proof. unfold BodyStat.create. by intros ->. Qed.

Lemma Test_create_saved doc r :
  Test.create doc = Schema.Saved r -> r = Test.preSave (Test.init doc).
Proof.
  unfold Test.create. destruct (Test.validate _); [|done]. by intros [= <-].
Qed.

Lemma Meal_preSave_fields d :
  Meal.foodItems (Meal.preSave d) = Meal.foodItems d ∧
  Meal.isFromJournal (Meal.preSave d) = Meal.isFromJournal d ∧
  Meal.journalEntryId (Meal.preSave d) = Meal.journalEntryId d.
Proof. destruct d as [? ? ? items ? ? ? ?]. unfold Meal.preSave. simpl. by destruct items. Qed.

Lemma Test_preSave_fields d :
  Test.isFromJournal (Test.preSave d) = Test.isFromJournal d ∧
  Test.journalEntryId (Test.preSave d) = Test.journalEntryId d.
Proof.
  unfold Test.preSave. destruct (Test.resultValue d) as [v|]; [|done].
  by destruct (JS.truthy_number v).
Qed.

(** The record stored for a decoded meal. *)
Lemma mealResult_saved env u date id m r :
  mealResult env u date id m = Schema.Saved r ->
  ∃ items,
    MealData.items m = Some items ∧
    Meal.foodItems r = map (foodItemOf m) items ∧
    Meal.isFromJournal r = true ∧
    Meal.journalEntryId r = Some id ∧
    Meal.totalCalories r =
      Some (fold_left (λ total item,
                         JS.add total (JS.or_number (FoodItem.calories item) 0))
              (Meal.foodItems r) 0%Q).
Proof.
  unfold mealResult. destruct (MealData.items m) as [items|]; [|done].
  intros ->%Meal_create_saved. exists items. split; [done|].
  destruct (Meal_preSave_fields (Meal.init (mealDocument env u date id m items)))
    as (Hf & -> & ->).
  rewrite Hf. simpl. rewrite map_map. split; [done|]. split; [done|]. split; [done|].
  unfold Meal.preSave. simpl. rewrite map_map. by destruct items.
Qed.

Lemma or_number_default q : (JS.or_number (Some q) 0 == q)%Q.
Proof.
  unfold JS.or_number, JS.or, JS.truthy_number.
  destruct (Qeq_bool q 0) eqn:H; simpl; [|reflexivity].
  apply Qeq_bool_iff in H. by rewrite H.
Qed.

Lemma or_number_calories item :
  (JS.or_number (FoodItem.calories item) 0 == default 0 (FoodItem.calories item))%Q.
Proof.
  destruct (FoodItem.calories item) as [q|]; simpl; [apply or_number_default|reflexivity].
Qed.

Lemma sum_calories_nonneg items :
  Forall (λ item, ∀ c, FoodItem.calories item = Some c -> (0 <= c)%Q) items ->
  (0 <= sum_calories items)%Q.
Proof.
  intros H. apply (foldr_nonneg (λ item, default 0%Q (FoodItem.calories item))).
  eapply Forall_impl; [exact H|]. intros item Hc.
  destruct (FoodItem.calories item) as [c|] eqn:E; [exact (Hc c E)|done].
Qed.

(** The total the save hook computes is exact for calories that are
    non-negative integers, below [2 ^ 53]. *)
Lemma total_is_sum items :
  Forall (λ item, whole (default 0%Q (FoodItem.calories item))) items ->
  (sum_calories items < inject_Z (2 ^ 53))%Q ->
  (fold_left (λ total item, JS.add total (JS.or_number (FoodItem.calories item) 0))
     items 0
   == sum_calories items)%Q.
Proof.
  intros Hw Hlt.
  rewrite (fold_add_exact _ (λ item, default 0%Q (FoodItem.calories item))).
  - apply Qplus_0_l.
  - apply whole_0.
  - eapply Forall_impl; [exact Hw|]. intros item Hi.
    split; [apply or_number_calories|exact Hi].
  - by rewrite Qplus_0_l.
Qed.

(** It is not negative when no item's calories are. *)
Lemma total_nonneg items :
  Forall (λ item, ∀ c, FoodItem.calories item = Some c -> (0 <= c)%Q) items ->
  (0 <= fold_left (λ total item,
                     JS.add total (JS.or_number (FoodItem.calories item) 0))
          items 0)%Q.
Proof.
  intros H. apply fold_add_nonneg; [done|].
  eapply Forall_impl; [exact H|]. intros item Hc.
  rewrite or_number_calories.
  destruct (FoodItem.calories item) as [c|] eqn:E; [exact (Hc c E)|done].
Qed.

(** It is 0 when every item has calories 0. *)
Lemma total_zero items :
  Forall (λ item, FoodItem.calories item = Some 0%Q) items ->
  fold_left (λ total item, JS.add total (JS.or_number (FoodItem.calories item) 0))
    items 0%Q = 0%Q.
Proof.
  induction 1 as [|item items Hc _ IH]; simpl; [done|]. by rewrite Hc.
Qed.

(** ** A submission whose answer decodes *)

Lemma parse_decoded_world env req raw pd w :
  hasText req = true ->
  axios_post env (systemPrompt env (text req)) = Return raw ->
  JSON_parse env raw = Some pd ->
  let id := nextId w in
  let F := fanned env (user_id req) (body_date req) id pd in
  let failure := fanOutError env (user_id req) (body_date req) id pd in
  let d1 := submitted env req w in
  let d2 := with_journals (alter (Journal.assign (completedUpdate pd raw)) id) d1 in
  let j2 := Journal.assign (completedUpdate pd raw) (newEntry env req) in
  ∃ resp w' obs,
    parseJournalEntry env req w = (Return resp, w') ∧
    meals (db w') = meals (db w) ++ new_meals F ∧
    medicines (db w') = medicines (db w) ++ new_medicines F ∧
    bodyStats (db w') = bodyStats (db w) ++ new_bodyStats F ∧
    tests (db w') = tests (db w) ++ new_tests F ∧
    fan_events failure (map fst obs) ∧
    entry d2 id = Some j2 ∧
    match failure with
    | None =>
        resp = Parsed id pd (createdItems pd) ∧
        log w' =
          log w ++ [(Created Journals, d1); (Requested, d1);
                    (Updated id (Some Journal.completed), d2)] ++ obs ∧
        entry (db w') id = Some j2
    | Some e =>
        resp = ProcessingFailed (JS.message e) id ∧
        log w' =
          log w ++ [(Created Journals, d1); (Requested, d1);
                    (Updated id (Some Journal.completed), d2)] ++ obs
                ++ [(Updated id (Some Journal.failed), db w')] ∧
        entry (db w') id = Some (Journal.assign (failedUpdate e) j2)
    end.
Proof.
  intros H Hax Hjs. cbv zeta.
  destruct (parse_decoded env req raw pd w H Hax Hjs) as (obs & _ & Hev & ->).
  assert (entry (with_journals
                   (alter (Journal.assign (completedUpdate pd raw)) (nextId w))
                   (submitted env req w)) (nextId w)
          = Some (Journal.assign (completedUpdate pd raw) (newEntry env req))) as Hj2.
  { rewrite entry_alter, entry_submitted. by rewrite !decide_True. }
  destruct (fanOutError env (user_id req) (body_date req) (nextId w) pd) as [e|].
  - eexists _, _, obs. split_and!; try done.
    + unfold updated, requested, observe. simpl. by rewrite <- !app_assoc.
    + unfold updated at 1. simpl.
      rewrite entry_alter, decide_True by done. unfold entry in *. simpl in *.
      by rewrite Hj2.
  - eexists _, _, obs. split_and!; try done.
    unfold updated, requested, observe. simpl. by rewrite <- !app_assoc.
Qed.

(** * The pipeline's properties *)

(** ** The scenarios of §8 *)

(** One meal at noon with two items and two litres of water: the entry is
    completed, one Meal record with two food items and one BodyStat record
    with [waterIntake = 2] are stored, and no Medicine or lab test. *)
Example lunch_scenario :
  let run :=
    parseJournalEntry (Scenario.answering Scenario.lunchJSON)
      (Scenario.submit Scenario.lunchText) blank in
  fst run = Return (Parsed 0 Scenario.lunch
                      {| count_meals := 1; count_medicines := 0;
                         count_bodyStats := 1; count_tests := 0 |}) ∧
  Journal.processingStatus <$> entry (db (snd run)) 0 = Some Journal.completed ∧
  map (λ r, map FoodItem.name (Meal.foodItems r)) (meals (db (snd run)))
    = [["dal"; "chawal"]] ∧
  map BodyStat.waterIntake (bodyStats (db (snd run))) = [Some 2%Q] ∧
  medicines (db (snd run)) = [] ∧
  tests (db (snd run)) = [].
Proof. vm_compute. repeat split. Qed.

(** The completion service cannot be reached: the entry is failed, its
    [processingError] is the transport error's message, and nothing is
    parsed. *)
Example outage_scenario :
  let run :=
    parseJournalEntry Scenario.unreachable (Scenario.submit Scenario.lunchText)
      blank in
  fst run = Return (ProcessingFailed (Some "Network Error") 0) ∧
  Journal.processingStatus <$> entry (db (snd run)) 0 = Some Journal.failed ∧
  Journal.processingError <$> entry (db (snd run)) 0
    = Some (Some "Network Error") ∧
  Journal.parsedData <$> entry (db (snd run)) 0 = Some None.
Proof. vm_compute. repeat split. Qed.

(** A text of blanks only is refused and nothing is stored. *)
Example blank_text_refused :
  parseJournalEntry Scenario.unreachable (Scenario.submit "   ") blank
  = (Return TextRequired, blank).
Proof. reflexivity. Qed.

(** C5. For every valid [rawText] (between 1 and 5000 characters once
    trimmed, as [aiValidation] checks), a submission creates exactly one
    journal entry: the id it is stored under was free, every other entry is
    left as it was, and the entry's [rawText] is the trimmed input. This
    holds whatever the completion service answers and whatever the decoder
    and the fan-out do with it, and the response, the failure responses
    included, carries the id of the entry. *)
Theorem submit_creates_one_entry env req rawText w :
  body_rawText req = Some rawText ->
  aiValidation rawText = true ->
  ∃ resp w' j,
    parseJournalEntry env req w = (Return resp, w') ∧
    entry (db w) (nextId w) = None ∧
    entry (db w') (nextId w) = Some j ∧
    Journal.rawText j = JS.trim rawText ∧
    dom (journals (db w')) = {[nextId w]} ∪ dom (journals (db w)) ∧
    size (journals (db w')) = S (size (journals (db w))) ∧
    (∀ k, k ≠ nextId w -> entry (db w') k = entry (db w) k) ∧
    journalId_of resp = Some (nextId w).
Proof.
  intros Hreq Hvalid.
  pose proof (aiValidation_hasText _ _ Hreq Hvalid) as Htext.
  destruct (parse_journals env req w Htext) as (resp & w' & j & Hrun & Hj & (Hraw & _) & Hid).
  pose proof (nextId_fresh w) as Hfresh.
  exists resp, w', j. unfold entry in *. rewrite Hj.
  split; [done|]. split; [done|]. split; [apply lookup_insert_eq|].
  split.
  { rewrite Hraw. destruct (newEntry_fields env req) as [-> _].
    unfold text. by rewrite Hreq. }
  split; [apply dom_insert_L|].
  split; [by apply map_size_insert_None|].
  split; [|done]. intros k Hk. by apply lookup_insert_ne.
Qed.

(** Witness for C5, the outage scenario: the lunch text is valid and the
    completion service cannot be reached. *)
Lemma submit_creates_one_entry_witness :
  ∃ resp w' j,
    parseJournalEntry Scenario.unreachable (Scenario.submit Scenario.lunchText) blank
      = (Return resp, w') ∧
    entry (db blank) (nextId blank) = None ∧
    entry (db w') (nextId blank) = Some j ∧
    Journal.rawText j = JS.trim Scenario.lunchText ∧
    dom (journals (db w')) = {[nextId blank]} ∪ dom (journals (db blank)) ∧
    size (journals (db w')) = S (size (journals (db blank))) ∧
    (∀ k, k ≠ nextId blank -> entry (db w') k = entry (db blank) k) ∧
    journalId_of resp = Some (nextId blank).
Proof.
  apply (submit_creates_one_entry Scenario.unreachable
           (Scenario.submit Scenario.lunchText) Scenario.lunchText blank);
    reflexivity.
Defined.

(** C6. If the completion service answers with a text the decoder cannot
    interpret, the entry ends in status failed with a non-empty
    [processingError], its [aiResponse] is that text without the white space
    at its two ends (the schema trims the path), the response carries the
    text as it was received, and no meal, medicine, body stat or lab test is
    stored. *)
Theorem decode_failure_marks_failed env req raw w :
  hasText req = true ->
  axios_post env (systemPrompt env (text req)) = Return raw ->
  JSON_parse env raw = None ->
  ∃ w' j,
    parseJournalEntry env req w = (Return (DecodeFailed (nextId w) raw), w') ∧
    entry (db w') (nextId w) = Some j ∧
    Journal.processingStatus j = Journal.failed ∧
    has_error j ∧
    Journal.aiResponse j = Some (JS.trim raw) ∧
    Journal.parsedData j = None ∧
    meals (db w') = meals (db w) ∧
    medicines (db w') = medicines (db w) ∧
    bodyStats (db w') = bodyStats (db w) ∧
    tests (db w') = tests (db w) ∧
    Forall (λ o, is_write (fst o) = false) (drop (length (log w)) (log w')).
Proof.
  intros Htext Hax Hjs. rewrite (parse_run _ _ _ Htext), Hax, Hjs. simpl.
  eexists _, _. split; [done|].
  split.
  { unfold updated, requested. simpl. rewrite entry_alter, entry_submitted.
    rewrite !decide_True by done. done. }
  split; [done|].
  split. { exists "Failed to parse AI response as JSON". split; [reflexivity|done]. }
  split; [done|].
  split. { simpl. by destruct (newEntry_fields env req) as (_ & _ & _ & _ & _ & -> & _). }
  repeat (split; [done|]).
  unfold updated, requested, observe. simpl. rewrite <- !app_assoc.
  rewrite drop_app_length. repeat constructor.
Qed.

(** Witness for C6: an answer in prose followed by a line feed. *)
Lemma decode_failure_marks_failed_witness :
  ∃ w' j,
    parseJournalEntry (Scenario.answering Scenario.paddedResponse)
        (Scenario.submit Scenario.walkText) blank
      = (Return (DecodeFailed (nextId blank) Scenario.paddedResponse), w') ∧
    entry (db w') (nextId blank) = Some j ∧
    Journal.processingStatus j = Journal.failed ∧
    has_error j ∧
    Journal.aiResponse j = Some (JS.trim Scenario.paddedResponse) ∧
    Journal.parsedData j = None ∧
    meals (db w') = meals (db blank) ∧
    medicines (db w') = medicines (db blank) ∧
    bodyStats (db w') = bodyStats (db blank) ∧
    tests (db w') = tests (db blank) ∧
    Forall (λ o, is_write (fst o) = false) (drop (length (log blank)) (log w')).
Proof.
  apply (decode_failure_marks_failed (Scenario.answering Scenario.paddedResponse)
           (Scenario.submit Scenario.walkText) Scenario.paddedResponse blank);
    reflexivity.
Defined.

(** Counterexample to C6 as stated. The completion service answers in
    prose and ends its answer with a line feed; the decoder fails on it and
    the entry is failed, but the [aiResponse] stored is the answer without
    the line feed, not the text received. *)
Lemma stored_response_is_trimmed :
  let raw := Scenario.paddedResponse in
  let run :=
    parseJournalEntry (Scenario.answering raw) (Scenario.submit Scenario.walkText)
      blank in
  Scenario.parse raw = None ∧
  fst run = Return (DecodeFailed 0 raw) ∧
  Journal.processingStatus <$> entry (db (snd run)) 0 = Some Journal.failed ∧
  Journal.aiResponse <$> entry (db (snd run)) 0
    = Some (Some "Sorry, I could not parse that entry.") ∧
  Journal.aiResponse <$> entry (db (snd run)) 0 ≠ Some (Some raw).
Proof. vm_compute. repeat split. discriminate. Qed.

(** ** Retry *)

Lemma parse_returns env req w :
  ∃ resp w', parseJournalEntry env req w = (Return resp, w').
Proof.
  destruct (hasText req) eqn:H.
  - destruct (parse_journals env req w H) as (resp & w' & _ & -> & _). by eexists _, _.
  - rewrite (parse_no_text _ _ _ H). by eexists _, _.
Qed.

(** The entry [Journal.findOne({ _id, userId })] finds. *)
Lemma findOne_owned id userId w j :
  entry (db w) id = Some j -> Journal.userId j = userId ->
  Journal_findOne id userId w = (Return (Some j), w).
Proof.
  unfold Journal_findOne, entry. intros -> <-. by rewrite Nat.eqb_refl.
Qed.

Lemma findOne_none id userId w :
  ¬ (∃ j, entry (db w) id = Some j ∧ Journal.userId j = userId) ->
  Journal_findOne id userId w = (Return None, w).
Proof.
  unfold Journal_findOne, entry. intros H.
  destruct (journals (db w) !! id) as [j|] eqn:Hj; [|done].
  destruct (Nat.eqb_spec (Journal.userId j) userId) as [Heq|]; [|done].
  exfalso. apply H. by exists j.
Qed.

(** An accepted retry resets the entry and then runs [parseJournalEntry] on
    the entry's text and date. *)
Lemma retry_accepted env req w j :
  entry (db w) (params_journalId req) = Some j ->
  Journal.userId j = requester_id req ->
  Journal.processingStatus j = Journal.failed ->
  retryProcessing env req w =
  parseJournalEntry env
    {| body_rawText := Some (Journal.rawText j);
       body_date := Some (Journal.date j);
       user_id := requester_id req |}
    (updated (params_journalId req) resetUpdate w).
Proof.
  intros Hj Hu Hs. unfold retryProcessing. run.
  rewrite (findOne_owned _ _ _ _ Hj Hu), Hs. simpl.
  unfold Journal_findByIdAndUpdate.
  change (observe _ _ w) with (updated (params_journalId req) resetUpdate w).
  by destruct (parse_returns env
       {| body_rawText := Some (Journal.rawText j); body_date := Some (Journal.date j);
          user_id := requester_id req |}
       (updated (params_journalId req) resetUpdate w)) as (resp & w' & ->).
Qed.

Lemma retry_not_found env req w :
  ¬ (∃ j, entry (db w) (params_journalId req) = Some j ∧
          Journal.userId j = requester_id req) ->
  retryProcessing env req w = (Return JournalNotFound, w).
Proof.
  intros H. unfold retryProcessing. run. by rewrite (findOne_none _ _ _ H).
Qed.

Lemma retry_not_failed env req w j :
  entry (db w) (params_journalId req) = Some j ->
  Journal.userId j = requester_id req ->
  Journal.processingStatus j ≠ Journal.failed ->
  retryProcessing env req w = (Return NotInFailedStatus, w).
Proof.
  intros Hj Hu Hs. unfold retryProcessing. run.
  rewrite (findOne_owned _ _ _ _ Hj Hu).
  by destruct (Journal.processingStatus j).
Qed.

(** C7. A retry for an id under which the requesting user has no entry is
    answered with "not found" (404), and a retry of an entry whose status is
    not failed with "not in failed status" (400); in both cases the world is
    left exactly as it was: no request to the completion service, no write,
    no change of any entry. *)
Theorem retry_rejected_without_change env req w :
  (¬ (∃ j, entry (db w) (params_journalId req) = Some j ∧
           Journal.userId j = requester_id req) ->
   retryProcessing env req w = (Return JournalNotFound, w)) ∧
  (∀ j, entry (db w) (params_journalId req) = Some j ->
        Journal.userId j = requester_id req ->
        Journal.processingStatus j ≠ Journal.failed ->
        retryProcessing env req w = (Return NotInFailedStatus, w)) ∧
  status_code JournalNotFound = 404 ∧
  status_code NotInFailedStatus = 400.
Proof.
  split; [apply retry_not_found|]. split; [apply retry_not_failed|done].
Qed.

(** Witness for C7, after the lunch entry was parsed: no entry has id 5,
    and entry 0 is completed. *)
Lemma retry_rejected_without_change_witness :
  retryProcessing (Scenario.answering Scenario.lunchJSON) (Scenario.retry 5)
      Scenario.afterLunch
    = (Return JournalNotFound, Scenario.afterLunch) ∧
  retryProcessing (Scenario.answering Scenario.lunchJSON) (Scenario.retry 0)
      Scenario.afterLunch
    = (Return NotInFailedStatus, Scenario.afterLunch).
Proof.
  split.
  - apply (proj1 (retry_rejected_without_change
                    (Scenario.answering Scenario.lunchJSON) (Scenario.retry 5)
                    Scenario.afterLunch)).
    intros (j & Hj & _). vm_compute in Hj. discriminate.
  - eapply (proj1 (proj2 (retry_rejected_without_change
                            (Scenario.answering Scenario.lunchJSON) (Scenario.retry 0)
                            Scenario.afterLunch))).
    + vm_compute. reflexivity.
    + reflexivity.
    + discriminate.
Defined.

Lemma alter_lookup_insert {V} (f : V -> V) (i : nat) (x : V) (m : gmap nat V) :
  m !! i = Some x -> alter f i m = <[i:=f x]> m.
Proof.
  intros Hx. apply map_eq. intros k. rewrite lookup_alter, lookup_insert.
  case_decide; [subst k; by rewrite Hx|done].
Qed.

Lemma journals_updated id u w :
  journals (db (updated id u w)) = alter (Journal.assign u) id (journals (db w)).
Proof. done. Qed.

Lemma nextId_updated id u w : nextId (updated id u w) = nextId w.
Proof. unfold nextId, updated. simpl. by rewrite dom_alter_L. Qed.

(** Every accepted retry: the entry is reset (pending, no error) and stays
    so; the pipeline runs on the entry's text and date and stores its
    result under a new id, which the response names. *)
Lemma retry_stores_new_entry env req w j :
  entry (db w) (params_journalId req) = Some j ->
  Journal.userId j = requester_id req ->
  Journal.processingStatus j = Journal.failed ->
  JS.trim (Journal.rawText j) ≠ "" ->
  ∃ resp w' j0 jn,
    retryProcessing env req w = (Return resp, w') ∧
    nextId w ≠ params_journalId req ∧
    journalId_of resp = Some (nextId w) ∧
    entry (db w') (params_journalId req) = Some j0 ∧
    Journal.processingStatus j0 = Journal.pending ∧
    Journal.processingError j0 = None ∧
    entry (db w') (nextId w) = Some jn ∧
    Journal.rawText jn = JS.trim (Journal.rawText j) ∧
    Journal.date jn = Journal.date j ∧
    size (journals (db w')) = S (size (journals (db w))).
Proof.
  intros Hj Hu Hs Ht. rewrite (retry_accepted _ _ _ _ Hj Hu Hs).
  set (req' := {| body_rawText := Some (Journal.rawText j);
                  body_date := Some (Journal.date j);
                  user_id := requester_id req |}).
  set (w1 := updated (params_journalId req) resetUpdate w).
  assert (hasText req' = true) as Htext.
  { apply hasText_true. by exists (Journal.rawText j). }
  destruct (parse_journals env req' w1 Htext)
    as (resp & w' & jn & Hrun & Hjs & (Hraw & _ & Hdate) & Hid).
  unfold w1 in Hjs, Hid. rewrite nextId_updated in Hjs, Hid.
  assert (nextId w ≠ params_journalId req) as Hne.
  { intros Heq. pose proof (nextId_fresh w) as Hfresh. rewrite Heq in Hfresh. congruence. }
  destruct (newEntry_fields env req') as (Hr & _ & Hd & _).
  rewrite journals_updated in Hjs.
  exists resp, w', (Journal.assign resetUpdate j), jn. split_and!; try done.
  - unfold entry in *. rewrite Hjs, lookup_insert_ne by done.
    rewrite lookup_alter, decide_True by done. by rewrite Hj.
  - unfold entry. rewrite Hjs. apply lookup_insert_eq.
  - by rewrite Hraw, Hr.
  - by rewrite Hdate, Hd.
  - rewrite Hjs, map_size_insert_None.
    + f_equal. rewrite (alter_lookup_insert _ _ _ _ Hj).
      apply map_size_insert_Some. by exists j.
    + apply not_elem_of_dom. rewrite dom_alter_L. unfold nextId. apply is_fresh.
Qed.

(** C1. The entry of the outage scenario is failed; retrying it resets it to
    pending without an error and runs the pipeline on its text and date, but
    the pipeline stores its result in a second entry: the database then
    holds two entries, the response names the new id, and the retried entry
    stays pending. *)
Theorem retry_creates_second_entry :
  let w := Scenario.afterOutage in
  let run :=
    retryProcessing (Scenario.answering Scenario.lunchJSON) (Scenario.retry 0) w in
  Journal.processingStatus <$> entry (db w) 0 = Some Journal.failed ∧
  size (journals (db w)) = 1 ∧
  size (journals (db (snd run))) = 2 ∧
  fst run = Return (Parsed 1 Scenario.lunch (createdItems Scenario.lunch)) ∧
  Journal.processingStatus <$> entry (db (snd run)) 0 = Some Journal.pending ∧
  Journal.processingError <$> entry (db (snd run)) 0 = Some None ∧
  Journal.processingStatus <$> entry (db (snd run)) 1 = Some Journal.completed ∧
  Journal.rawText <$> entry (db (snd run)) 1 = Journal.rawText <$> entry (db w) 0.
Proof. vm_compute. repeat split. Qed.

(** ** The invariant *)





























(** ** The fan-out *)

Lemma count_meals_all env u date id pd :
  rejection (mealResults env u date id pd) = None ->
  count_meals (createdItems pd) = length (accepted (mealResults env u date id pd)).
Proof.
  unfold mealResults. intros H. rewrite (accepted_all _ _ H).
  unfold createdItems, JS.length_or_0. simpl. by destruct (ParsedData.meals pd).
Qed.

Lemma count_medicines_all env u date id pd :
  rejection (medicineResults env u date id pd) = None ->
  count_medicines (createdItems pd) =
  length (accepted (medicineResults env u date id pd)).
Proof.
  unfold medicineResults. intros H. rewrite (accepted_all _ _ H).
  unfold createdItems, JS.length_or_0. simpl. by destruct (ParsedData.medicines pd).
Qed.

Lemma count_bodyStats_all env u date id pd :
  rejection (bodyStatResults env u date id pd) = None ->
  count_bodyStats (createdItems pd) =
  length (accepted (bodyStatResults env u date id pd)).
Proof.
  unfold bodyStatResults, createdItems. simpl.
  destruct (ParsedData.bodyStats pd); [|done]. simpl.
  by destruct (BodyStat.create _).
Qed.

Lemma count_tests_all env u date id pd :
  rejection (testResults env u date id pd) = None ->
  count_tests (createdItems pd) = length (accepted (testResults env u date id pd)).
Proof.
  unfold testResults. intros H. rewrite (accepted_all _ _ H).
  unfold createdItems, JS.length_or_0. simpl. by destruct (ParsedData.tests pd).
Qed.

(** When no write fails, every block stores all of its documents. *)
Lemma fanned_all env u date id pd :
  fanOutError env u date id pd = None ->
  rejection (mealResults env u date id pd) = None ∧
  rejection (medicineResults env u date id pd) = None ∧
  rejection (bodyStatResults env u date id pd) = None ∧
  rejection (testResults env u date id pd) = None ∧
  new_meals (fanned env u date id pd) = accepted (mealResults env u date id pd) ∧
  new_medicines (fanned env u date id pd) =
    accepted (medicineResults env u date id pd) ∧
  new_bodyStats (fanned env u date id pd) =
    accepted (bodyStatResults env u date id pd) ∧
  new_tests (fanned env u date id pd) = accepted (testResults env u date id pd).
Proof.
  unfold fanOutError, fanned. simpl.
  destruct (rejection (mealResults _ _ _ _ _)); [done|]. simpl.
  destruct (rejection (medicineResults _ _ _ _ _)); [done|]. simpl.
  destruct (rejection (bodyStatResults _ _ _ _ _)); [done|]. simpl.
  by intros ->.
Qed.

(** After a block fails, the later blocks store nothing. *)
Lemma fanned_after_failure env u date id pd :
  (is_Some (rejection (mealResults env u date id pd)) ->
   new_medicines (fanned env u date id pd) = [] ∧
   new_bodyStats (fanned env u date id pd) = [] ∧
   new_tests (fanned env u date id pd) = []) ∧
  (is_Some (rejection (medicineResults env u date id pd)) ->
   new_bodyStats (fanned env u date id pd) = [] ∧
   new_tests (fanned env u date id pd) = []) ∧
  (is_Some (rejection (bodyStatResults env u date id pd)) ->
   new_tests (fanned env u date id pd) = []).
Proof.
  unfold fanned. simpl.
  destruct (rejection (mealResults _ _ _ _ _)) as [e1|];
  destruct (rejection (medicineResults _ _ _ _ _)) as [e2|];
  destruct (rejection (bodyStatResults _ _ _ _ _)) as [e3|]; simpl;
  split_and!; try done; by intros [? [=]].
Qed.

(** C2, as the code has it. The four blocks of derived writes run in
    sequence. When no write fails, the operation answers with the parsed
    data, the entry is completed, and the per-category counts of the
    response are the numbers of records stored. The first write that fails
    ends the fan-out: its rejection is the last event of the fan-out, the
    later blocks store nothing, the records stored before it stay, the
    entry is set to failed with the error's message (or "AI API call
    failed"), trimmed by the schema, and the response is the failure
    response with the entry's id. *)
Theorem fanOut_stops_at_first_failure env req raw pd w :
  hasText req = true ->
  axios_post env (systemPrompt env (text req)) = Return raw ->
  JSON_parse env raw = Some pd ->
  let id := nextId w in
  let u := user_id req in
  let date := body_date req in
  let F := fanned env u date id pd in
  ∃ resp w' j obs closing,
    parseJournalEntry env req w = (Return resp, w') ∧
    entry (db w') id = Some j ∧
    meals (db w') = meals (db w) ++ new_meals F ∧
    medicines (db w') = medicines (db w) ++ new_medicines F ∧
    bodyStats (db w') = bodyStats (db w) ++ new_bodyStats F ∧
    tests (db w') = tests (db w) ++ new_tests F ∧
    drop (length (log w) + 3) (log w') = obs ++ closing ∧
    fan_events (fanOutError env u date id pd) (map fst obs) ∧
    match fanOutError env u date id pd with
    | None =>
        closing = [] ∧
        resp = Parsed id pd (createdItems pd) ∧
        Journal.processingStatus j = Journal.completed ∧
        count_meals (createdItems pd) = length (new_meals F) ∧
        count_medicines (createdItems pd) = length (new_medicines F) ∧
        count_bodyStats (createdItems pd) = length (new_bodyStats F) ∧
        count_tests (createdItems pd) = length (new_tests F)
    | Some e =>
        closing = [(Updated id (Some Journal.failed), db w')] ∧
        resp = ProcessingFailed (JS.message e) id ∧
        Journal.processingStatus j = Journal.failed ∧
        Journal.processingError j =
          Some (JS.trim (JS.or_string (JS.message e) "AI API call failed")) ∧
        (is_Some (rejection (mealResults env u date id pd)) ->
         new_medicines F = [] ∧ new_bodyStats F = [] ∧ new_tests F = []) ∧
        (is_Some (rejection (medicineResults env u date id pd)) ->
         new_bodyStats F = [] ∧ new_tests F = []) ∧
        (is_Some (rejection (bodyStatResults env u date id pd)) ->
         new_tests F = [])
    end.
Proof.
  intros H Hax Hjs. cbv zeta.
  destruct (parse_decoded_world env req raw pd w H Hax Hjs)
    as (resp & w' & obs & Hrun & Hm & Hmed & Hb & Ht & Hev & _ & Hcase).
  cbv zeta in *.
  destruct (fanOutError env (user_id req) (body_date req) (nextId w) pd) as [e|] eqn:Hf.
  - destruct Hcase as (-> & Hlog & Hj).
    eexists _, _, _, obs, _. split_and!; try done.
    + by rewrite Hlog, <- drop_drop, drop_app_length.
    + apply fanned_after_failure.
    + apply fanned_after_failure.
    + apply fanned_after_failure.
  - destruct Hcase as (-> & Hlog & Hj).
    destruct (fanned_all _ _ _ _ _ Hf) as (H1 & H2 & H3 & H4 & E1 & E2 & E3 & E4).
    eexists _, _, _, obs, []. split_and!; try done.
    + by rewrite Hlog, app_nil_r, <- drop_drop, drop_app_length.
    + rewrite E1. by apply count_meals_all.
    + rewrite E2. by apply count_medicines_all.
    + rewrite E3. by apply count_bodyStats_all.
    + rewrite E4. by apply count_tests_all.
Qed.

(** Witness for C2: the snack scenario, whose Meal write is rejected. *)
Lemma fanOut_stops_at_first_failure_witness :
  hasText (Scenario.submit Scenario.snackText) = true ∧
  JSON_parse (Scenario.answering Scenario.snackJSON) Scenario.snackJSON
    = Some Scenario.snack ∧
  ∃ resp w',
    parseJournalEntry (Scenario.answering Scenario.snackJSON)
        (Scenario.submit Scenario.snackText) blank
      = (Return resp, w') ∧
    bodyStats (db w') =
      bodyStats (db blank) ++
      new_bodyStats (fanned (Scenario.answering Scenario.snackJSON) 7 None
                       (nextId blank) Scenario.snack).
Proof.
  split; [reflexivity|]. split; [reflexivity|].
  destruct (fanOut_stops_at_first_failure (Scenario.answering Scenario.snackJSON)
              (Scenario.submit Scenario.snackText) Scenario.snackJSON
              Scenario.snack blank eq_refl eq_refl eq_refl)
    as (resp & w' & j & obs & closing & Hrun & _ & _ & _ & Hb & _).
  exists resp, w'. split; [exact Hrun|exact Hb].
Defined.

(** Counterexample to C2 as stated. The answer of the snack scenario decodes
    to a meal and a body-stats object; the Meal write is rejected (its time
    of day is not one the schema lists), and then no body-stat write is
    attempted, the entry is set to failed, and the operation answers with a
    failure. *)
Lemma rejected_meal_blocks_body_stats :
  let run :=
    parseJournalEntry (Scenario.answering Scenario.snackJSON)
      (Scenario.submit Scenario.snackText) blank in
  JSON_parse (Scenario.answering Scenario.snackJSON) Scenario.snackJSON
    = Some Scenario.snack ∧
  ParsedData.bodyStats Scenario.snack = Some (Scenario.water 2) ∧
  map fst (log (snd run)) =
    [Created Journals; Requested; Updated 0 (Some Journal.completed);
     Rejected Meals; Updated 0 (Some Journal.failed)] ∧
  bodyStats (db (snd run)) = [] ∧
  Journal.processingStatus <$> entry (db (snd run)) 0 = Some Journal.failed ∧
  success <$> (match fst run with Return r => Some r | Throw _ => None end)
    = Some false.
Proof. vm_compute. repeat split. Qed.

(** C3, as the code has it. When the answer decodes, the log of the
    operation is: the entry created (status processing, nothing parsed), the
    request, then one update that sets status completed, [parsedData],
    [aiResponse] and [isProcessed] together, while the derived collections
    are still as before the operation; only then come the events of the
    fan-out, which add the derived records.  If no write of the fan-out
    fails, nothing follows and the entry ends as that update left it,
    completed; if a write fails, one more update follows, which leaves the
    final database, where the entry is failed. *)
Theorem completed_before_fanOut env req raw pd w :
  hasText req = true ->
  axios_post env (systemPrompt env (text req)) = Return raw ->
  JSON_parse env raw = Some pd ->
  let id := nextId w in
  let d1 := submitted env req w in
  let d2 :=
    with_journals (alter (Journal.assign (completedUpdate pd raw)) id) d1 in
  let F := fanned env (user_id req) (body_date req) id pd in
  ∃ resp w' obs closing j1 j2,
    parseJournalEntry env req w = (Return resp, w') ∧
    log w' =
      log w ++ [(Created Journals, d1); (Requested, d1);
                (Updated id (Some Journal.completed), d2)] ++ obs ++ closing ∧
    entry d1 id = Some j1 ∧
    Journal.processingStatus j1 = Journal.processing ∧
    Journal.parsedData j1 = None ∧
    Journal.aiResponse j1 = None ∧
    Journal.isProcessed j1 = false ∧
    entry d2 id = Some j2 ∧
    Journal.processingStatus j2 = Journal.completed ∧
    Journal.parsedData j2 = Some pd ∧
    Journal.aiResponse j2 = Some (JS.trim raw) ∧
    Journal.isProcessed j2 = true ∧
    meals d2 = meals (db w) ∧
    medicines d2 = medicines (db w) ∧
    bodyStats d2 = bodyStats (db w) ∧
    tests d2 = tests (db w) ∧
    fan_events (fanOutError env (user_id req) (body_date req) id pd)
      (map fst obs) ∧
    meals (db w') = meals (db w) ++ new_meals F ∧
    medicines (db w') = medicines (db w) ++ new_medicines F ∧
    bodyStats (db w') = bodyStats (db w) ++ new_bodyStats F ∧
    tests (db w') = tests (db w) ++ new_tests F ∧
    match fanOutError env (user_id req) (body_date req) id pd with
    | None => closing = [] ∧ entry (db w') id = Some j2
    | Some e =>
        closing = [(Updated id (Some Journal.failed), db w')] ∧
        ∃ j3,
          entry (db w') id = Some j3 ∧
          Journal.processingStatus j3 = Journal.failed ∧
          Journal.processingError j3 =
            Some (JS.trim (JS.or_string (JS.message e) "AI API call failed"))
    end.
Proof.
  intros H Hax Hjs. cbv zeta.
  destruct (parse_decoded_world env req raw pd w H Hax Hjs)
    as (resp & w' & obs & Hrun & Hd1 & Hd2 & Hd3 & Hd4 & Hev & Hj2 & Hcase).
  cbv zeta in *.
  destruct (newEntry_fields env req) as (_ & _ & _ & Hs & _ & Hp & Ha & Hi).
  assert (entry (submitted env req w) (nextId w) = Some (newEntry env req)) as Hj1.
  { rewrite entry_submitted. by rewrite decide_True. }
  destruct (fanOutError env (user_id req) (body_date req) (nextId w) pd) as [e|].
  - destruct Hcase as (_ & Hlog & Hj3).
    exists resp, w', obs, [(Updated (nextId w) (Some Journal.failed), db w')],
      (newEntry env req),
      (Journal.assign (completedUpdate pd raw) (newEntry env req)).
    repeat (split; [done|]).
    eexists. split; [exact Hj3|]. done.
  - destruct Hcase as (_ & Hlog & Hj3).
    exists resp, w', obs, [], (newEntry env req),
      (Journal.assign (completedUpdate pd raw) (newEntry env req)).
    split; [done|]. split; [by rewrite app_nil_r|].
    repeat (split; [done|]). done.
Qed.

(** Witness for C3: the lunch scenario. *)
Lemma completed_before_fanOut_witness :
  hasText (Scenario.submit Scenario.lunchText) = true ∧
  JSON_parse (Scenario.answering Scenario.lunchJSON) Scenario.lunchJSON
    = Some Scenario.lunch ∧
  ∃ resp w' (obs closing : list (Event * DB)),
    parseJournalEntry (Scenario.answering Scenario.lunchJSON)
        (Scenario.submit Scenario.lunchText) blank
      = (Return resp, w') ∧
    map fst (log w') =
      map fst (log blank) ++
      [Created Journals; Requested; Updated (nextId blank) (Some Journal.completed)]
      ++ map fst obs ++ map fst closing.
Proof.
  split; [reflexivity|]. split; [reflexivity|].
  destruct (completed_before_fanOut (Scenario.answering Scenario.lunchJSON)
              (Scenario.submit Scenario.lunchText) Scenario.lunchJSON
              Scenario.lunch blank eq_refl eq_refl eq_refl)
    as (resp & w' & obs & closing & j1 & j2 & Hrun & Hlog & _).
  exists resp, w', obs, closing. split; [exact Hrun|].
  rewrite Hlog, !map_app. reflexivity.
Defined.

(** Counterexample to C3 as stated. In the lunch scenario the entry is set
    to completed by the third event of the operation; the database right
    after that event shows the entry as completed and holds no meal and no
    body stat, and the two derived writes come after it. *)
Lemma completed_while_writes_pending :
  let w' :=
    snd (parseJournalEntry (Scenario.answering Scenario.lunchJSON)
           (Scenario.submit Scenario.lunchText) blank) in
  map fst (log w') =
    [Created Journals; Requested; Updated 0 (Some Journal.completed);
     Created Meals; Created BodyStats] ∧
  (∃ d, log w' !! 2 = Some (Updated 0 (Some Journal.completed), d) ∧
        Journal.processingStatus <$> entry d 0 = Some Journal.completed ∧
        meals d = [] ∧ bodyStats d = []) ∧
  length (meals (db w')) = 1 ∧
  length (bodyStats (db w')) = 1.
Proof.
  vm_compute. split; [reflexivity|]. split; [|split; reflexivity].
  eexists. split; [reflexivity|]. repeat split.
Qed.

(** ** The derived records *)

Lemma Forall_unless {A} (P : A -> Prop) e l : Forall P l -> Forall P (unless e l).
Proof. destruct e; simpl; [constructor|done]. Qed.

Lemma Forall_accepted {A B} (f : A -> Schema.Result B) (P : B -> Prop) l :
  (∀ x r, f x = Schema.Saved r -> P r) -> Forall P (accepted (map f l)).
Proof.
  intros Hf. apply Forall_forall. intros r (x & _ & Hx)%accepted_elem. by eapply Hf.
Qed.

(** Every record a fan-out stores is marked as journal-derived and points
    to the entry. *)
Lemma fanned_flags env u date id pd :
  let F := fanned env u date id pd in
  Forall (λ r, Meal.isFromJournal r = true ∧ Meal.journalEntryId r = Some id)
    (new_meals F) ∧
  Forall (λ r, Medicine.isFromJournal r = true ∧ Medicine.journalEntryId r = Some id)
    (new_medicines F) ∧
  Forall (λ r, BodyStat.isFromJournal r = true ∧ BodyStat.journalEntryId r = Some id)
    (new_bodyStats F) ∧
  Forall (λ r, Test.isFromJournal r = true ∧ Test.journalEntryId r = Some id)
    (new_tests F).
Proof.
  unfold fanned. simpl. split_and!.
  - apply Forall_accepted. intros m r (items & _ & _ & ? & ? & _)%mealResult_saved. done.
  - apply Forall_unless, Forall_accepted. by intros m r ->%Medicine_create_saved.
  - apply Forall_unless. unfold bodyStatResults.
    destruct (ParsedData.bodyStats pd) as [stats|]; [|constructor]. simpl.
    destruct (BodyStat.create _) as [r|] eqn:Hr; [|constructor].
    apply BodyStat_create_saved in Hr as [-> _]. by repeat constructor.
  - apply Forall_unless, Forall_accepted. intros t r ->%Test_create_saved.
    by destruct (Test_preSave_fields (Test.init (testDocument env u date id t)))
      as [-> ->].
Qed.

Lemma foodItemOf_shared m items :
  map FoodItem.name (map (foodItemOf m) items) = map JS.trim items ∧
  Forall (λ item,
            FoodItem.quantity item =
              JS.trim (JS.or_string (MealData.quantity m) "1 serving") ∧
            FoodItem.calories item = Some (JS.or_number (MealData.calories m) 0))
    (map (foodItemOf m) items).
Proof.
  split.
  - by rewrite map_map.
  - apply Forall_map, Forall_forall. done.
Qed.

(** C4, as the code has it. If the answer decodes and no write of the
    fan-out fails, the entry ends completed, without [processingError] and
    with [parsedData] set; every derived record stored is marked
    [isFromJournal] and carries the entry's id; and the meals stored are,
    in order, one per decoded meal, the food items of a record being the
    decoded item names, all with the meal's one quantity (or "1 serving")
    and the meal's one calorie value (or 0); names and quantity are stored
    trimmed. *)
Theorem decoded_and_stored_completes env req raw pd w :
  hasText req = true ->
  axios_post env (systemPrompt env (text req)) = Return raw ->
  JSON_parse env raw = Some pd ->
  fanOutError env (user_id req) (body_date req) (nextId w) pd = None ->
  let id := nextId w in
  let F := fanned env (user_id req) (body_date req) id pd in
  ∃ w' j,
    parseJournalEntry env req w = (Return (Parsed id pd (createdItems pd)), w') ∧
    entry (db w') id = Some j ∧
    Journal.processingStatus j = Journal.completed ∧
    Journal.processingError j = None ∧
    Journal.parsedData j = Some pd ∧
    meals (db w') = meals (db w) ++ new_meals F ∧
    medicines (db w') = medicines (db w) ++ new_medicines F ∧
    bodyStats (db w') = bodyStats (db w) ++ new_bodyStats F ∧
    tests (db w') = tests (db w) ++ new_tests F ∧
    Forall (λ r, Meal.isFromJournal r = true ∧ Meal.journalEntryId r = Some id)
      (new_meals F) ∧
    Forall (λ r, Medicine.isFromJournal r = true ∧
                 Medicine.journalEntryId r = Some id)
      (new_medicines F) ∧
    Forall (λ r, BodyStat.isFromJournal r = true ∧
                 BodyStat.journalEntryId r = Some id)
      (new_bodyStats F) ∧
    Forall (λ r, Test.isFromJournal r = true ∧ Test.journalEntryId r = Some id)
      (new_tests F) ∧
    Forall2
      (λ m r, ∃ items,
         MealData.items m = Some items ∧
         map FoodItem.name (Meal.foodItems r) = map JS.trim items ∧
         Forall (λ item,
                   FoodItem.quantity item =
                     JS.trim (JS.or_string (MealData.quantity m) "1 serving") ∧
                   FoodItem.calories item =
                     Some (JS.or_number (MealData.calories m) 0))
           (Meal.foodItems r))
      (default [] (ParsedData.meals pd)) (new_meals F).
Proof.
  intros H Hax Hjs Hf. cbv zeta.
  destruct (parse_decoded_world env req raw pd w H Hax Hjs)
    as (resp & w' & obs & Hrun & Hm & Hmed & Hb & Ht & _ & _ & Hcase).
  cbv zeta in *. rewrite Hf in Hcase. destruct Hcase as (-> & _ & Hj).
  destruct (newEntry_fields env req) as (_ & _ & _ & _ & He & _).
  destruct (fanned_flags env (user_id req) (body_date req) (nextId w) pd)
    as (F1 & F2 & F3 & F4).
  destruct (fanned_all _ _ _ _ _ Hf) as (H1 & _ & _ & _ & E1 & _).
  eexists w', _. split_and!; try done.
  rewrite E1. unfold mealResults in *.
  pose proof (accepted_take (mealResult env (user_id req) (body_date req) (nextId w))
                (default [] (ParsedData.meals pd))) as Htake.
  rewrite (accepted_all _ _ H1), firstn_all in Htake.
  eapply Forall2_impl; [exact Htake|]. simpl.
  intros m r (items & Hi & Hfood & _)%mealResult_saved.
  exists items. rewrite Hfood. split; [done|]. apply foodItemOf_shared.
Qed.

(** Witness for C4: the lunch scenario, none of whose writes fails. *)
Lemma decoded_and_stored_completes_witness :
  hasText (Scenario.submit Scenario.lunchText) = true ∧
  fanOutError (Scenario.answering Scenario.lunchJSON) 7 None (nextId blank)
    Scenario.lunch = None ∧
  ∃ w' j,
    parseJournalEntry (Scenario.answering Scenario.lunchJSON)
        (Scenario.submit Scenario.lunchText) blank
      = (Return (Parsed (nextId blank) Scenario.lunch (createdItems Scenario.lunch)),
         w') ∧
    entry (db w') (nextId blank) = Some j ∧
    Journal.processingStatus j = Journal.completed.
Proof.
  split; [reflexivity|]. split; [reflexivity|].
  destruct (decoded_and_stored_completes (Scenario.answering Scenario.lunchJSON)
              (Scenario.submit Scenario.lunchText) Scenario.lunchJSON
              Scenario.lunch blank eq_refl eq_refl eq_refl eq_refl)
    as (w' & j & Hrun & Hj & Hs & _).
  exists w', j. split; [exact Hrun|]. split; [exact Hj|exact Hs].
Defined.

(** Counterexample to C4 as stated. The answer of the pill scenario decodes
    to a meal and a medicine without dosage; the Medicine write is rejected,
    and the entry ends failed with a [processingError], with no Medicine
    record for the decoded medicine. *)
Lemma decoded_yet_failed :
  let run :=
    parseJournalEntry (Scenario.answering Scenario.pillJSON)
      (Scenario.submit Scenario.pillText) blank in
  JSON_parse (Scenario.answering Scenario.pillJSON) Scenario.pillJSON
    = Some Scenario.pill ∧
  Journal.processingStatus <$> entry (db (snd run)) 0 = Some Journal.failed ∧
  Journal.processingError <$> entry (db (snd run)) 0 =
    Some (Some "Medicine validation failed: dosage: Dosage is required") ∧
  JS.length_or_0 (ParsedData.medicines Scenario.pill) = 1 ∧
  medicines (db (snd run)) = [].
Proof. vm_compute. repeat split. Qed.

Lemma copy_if_Some {A} (t : A -> bool) (v : option A) x :
  copy_if t v = Some x <-> v = Some x ∧ t x = true.
Proof.
  unfold copy_if. destruct v as [y|]; [|by split; [|intros []]].
  destruct (t y) eqn:Hy; split.
  - by intros [= <-].
  - by intros [[= <-] _].
  - done.
  - intros [[= <-] ?]. congruence.
Qed.

Lemma bodyStatResults_length env u date id pd :
  length (accepted (bodyStatResults env u date id pd)) ≤ 1.
Proof.
  unfold bodyStatResults. destruct (ParsedData.bodyStats pd); simpl; [|lia].
  destruct (BodyStat.create _); simpl; lia.
Qed.

(** C9, as the code has it. A fan-out stores at most one BodyStat record,
    and none when the decoded structure has no [bodyStats] object. When it
    has one, even one without any field, a record is stored, provided the
    meal and medicine writes before it did not fail and the record passes
    the schema's validation. The record holds the fields whose decoded value
    is truthy (a number other than 0, a non-empty string) and no other
    decoded field; [mood] and [energy] then take the schema's defaults. In
    particular, with an empty [meals] list, a [bodyStats] object and no
    failing write, no Meal record and exactly one BodyStat record are
    stored, and the entry is completed. *)
Theorem body_stat_for_every_object env req raw pd w :
  hasText req = true ->
  axios_post env (systemPrompt env (text req)) = Return raw ->
  JSON_parse env raw = Some pd ->
  let id := nextId w in
  let u := user_id req in
  let date := body_date req in
  let F := fanned env u date id pd in
  ∃ resp w',
    parseJournalEntry env req w = (Return resp, w') ∧
    meals (db w') = meals (db w) ++ new_meals F ∧
    bodyStats (db w') = bodyStats (db w) ++ new_bodyStats F ∧
    length (new_bodyStats F) ≤ 1 ∧
    (ParsedData.bodyStats pd = None -> new_bodyStats F = []) ∧
    (∀ r, r ∈ new_bodyStats F ->
       ∃ stats,
         ParsedData.bodyStats pd = Some stats ∧
         BodyStat.weight r =
           copy_if JS.truthy_number (BodyStatsData.weightKg stats) ∧
         BodyStat.waterIntake r =
           copy_if JS.truthy_number (BodyStatsData.waterIntakeLiters stats) ∧
         BodyStat.sleepHours r =
           copy_if JS.truthy_number (BodyStatsData.sleepHours stats) ∧
         BodyStat.steps r = copy_if JS.truthy_number (BodyStatsData.steps stats) ∧
         BodyStat.mood r =
           Some (default "okay"
                   (copy_if JS.truthy_string (BodyStatsData.mood stats))) ∧
         BodyStat.energy r =
           Some (default "medium"
                   (copy_if JS.truthy_string (BodyStatsData.energy stats)))) ∧
    (∀ stats,
       ParsedData.bodyStats pd = Some stats ->
       rejection (mealResults env u date id pd) = None ->
       rejection (medicineResults env u date id pd) = None ->
       BodyStat.validate (BodyStat.init (bodyStatDocument env u date id stats))
         = [] ->
       length (new_bodyStats F) = 1) ∧
    (∀ stats,
       ParsedData.meals pd = Some [] ->
       ParsedData.bodyStats pd = Some stats ->
       fanOutError env u date id pd = None ->
       new_meals F = [] ∧
       length (new_bodyStats F) = 1 ∧
       resp = Parsed id pd (createdItems pd) ∧
       Journal.processingStatus <$> entry (db w') id = Some Journal.completed).
Proof.
  intros H Hax Hjs. cbv zeta.
  destruct (parse_decoded_world env req raw pd w H Hax Hjs)
    as (resp & w' & obs & Hrun & Hm & _ & Hb & _ & _ & _ & Hcase).
  cbv zeta in *.
  exists resp, w'. split_and!; try done.
  - unfold fanned. simpl. destruct (first_error _ _); simpl; [lia|].
    apply bodyStatResults_length.
  - intros Hnone. unfold fanned, bodyStatResults. simpl. rewrite Hnone.
    by destruct (first_error _ _).
  - intros r. unfold fanned, bodyStatResults. simpl.
    destruct (first_error _ _); simpl; [by intros ?%elem_of_nil|].
    destruct (ParsedData.bodyStats pd) as [stats|]; [|by intros ?%elem_of_nil].
    simpl. destruct (BodyStat.create _) as [r'|] eqn:Hr; [|by intros ?%elem_of_nil].
    intros ->%list_elem_of_singleton. apply BodyStat_create_saved in Hr as [-> _].
    by exists stats.
  - intros stats Hs H1 H2 Hv. unfold fanned, bodyStatResults. simpl.
    rewrite H1, H2, Hs. simpl. by rewrite (BodyStat_create_valid _ Hv).
  - intros stats Hmeals Hs Hf. rewrite Hf in Hcase. destruct Hcase as (-> & _ & ->).
    destruct (fanned_all _ _ _ _ _ Hf) as (_ & _ & H3 & _ & -> & _ & -> & _).
    unfold mealResults, bodyStatResults in *. rewrite Hmeals, Hs in *. simpl in *.
    destruct (BodyStat.create _); [done|discriminate].
Qed.

(** Witness for C9: the walk scenario. *)
Lemma body_stat_for_every_object_witness :
  hasText (Scenario.submit Scenario.walkText) = true ∧
  JSON_parse (Scenario.answering Scenario.walkJSON) Scenario.walkJSON
    = Some Scenario.walk ∧
  ∃ resp w',
    parseJournalEntry (Scenario.answering Scenario.walkJSON)
        (Scenario.submit Scenario.walkText) blank
      = (Return resp, w') ∧
    length (new_bodyStats (fanned (Scenario.answering Scenario.walkJSON) 7 None
                             (nextId blank) Scenario.walk)) ≤ 1.
Proof.
  split; [reflexivity|]. split; [reflexivity|].
  destruct (body_stat_for_every_object (Scenario.answering Scenario.walkJSON)
              (Scenario.submit Scenario.walkText) Scenario.walkJSON
              Scenario.walk blank eq_refl eq_refl eq_refl)
    as (resp & w' & Hrun & _ & _ & Hle & _).
  exists resp, w'. split; [exact Hrun|exact Hle].
Defined.

(** Counterexample to C9 as stated. The answer of the walk scenario decodes
    to a structure whose [bodyStats] object has no field at all, and a
    BodyStat record is stored for it. *)
Lemma empty_body_stats_object_stored :
  let w' :=
    snd (parseJournalEntry (Scenario.answering Scenario.walkJSON)
           (Scenario.submit Scenario.walkText) blank) in
  JSON_parse (Scenario.answering Scenario.walkJSON) Scenario.walkJSON
    = Some Scenario.walk ∧
  ParsedData.bodyStats Scenario.walk =
    Some {| BodyStatsData.waterIntakeLiters := None;
            BodyStatsData.weightKg := None;
            BodyStatsData.sleepHours := None;
            BodyStatsData.steps := None;
            BodyStatsData.mood := None;
            BodyStatsData.energy := None |} ∧
  length (bodyStats (db w')) = 1.
Proof. vm_compute. repeat split. Qed.

(** * Further properties of the handlers and the models *)

Lemma hasText_false req : hasText req = false <-> text req = "".
Proof.
  unfold hasText, text. destruct (body_rawText req) as [t|]; simpl; [|done].
  pose proof (truthy_string_true t) as H1.
  pose proof (truthy_string_true (JS.trim t)) as H2.
  pose proof (trim_nonempty t) as H3.
  destruct (String.eqb_spec (JS.trim t) "") as [E|E].
  - split; [done|]. intros _. apply andb_false_iff. right.
    apply not_true_iff_false. by intros Ht%H2.
  - split; [|done]. intros H. exfalso.
    apply andb_false_iff in H as [H|H]; apply not_true_iff_false in H; apply H.
    + by apply H1, H3.
    + by apply H2.
Qed.

Lemma parse_outcome env req w :
  hasText req = true ->
  ∃ w',
    parseJournalEntry env req w = (Return (fst (outcome env req (nextId w))), w') ∧
    journals (db w') =
      <[nextId w := snd (outcome env req (nextId w))]> (journals (db w)).
Proof.
  intros H. rewrite (parse_run _ _ _ H). unfold outcome. simpl.
  destruct (axios_post env _) as [raw|e] eqn:Hax.
  2:{ eexists. split; [done|]. apply journals_updated_submitted. }
  destruct (JSON_parse env raw) as [pd|] eqn:Hjs.
  2:{ eexists. split; [done|]. apply journals_updated_submitted. }
  destruct (fanOut_spec env (user_id req) (body_date req) (nextId w) pd
              (updated (nextId w) (completedUpdate pd raw) (requested env req w)))
    as (obs & -> & _ & _).
  destruct (fanOutError _ _ _ _ _) as [e|].
  - eexists. split; [done|].
    unfold updated, requested, submitted. simpl. by rewrite !alter_insert_same.
  - eexists. split; [done|].
    unfold updated, requested, submitted. simpl. apply alter_insert_same.
Qed.

Lemma outcome_not_TextRequired env req id : fst (outcome env req id) ≠ TextRequired.
Proof.
  unfold outcome. destruct (axios_post env _) as [raw|e]; [|done].
  destruct (JSON_parse env raw) as [pd|]; [|done]. simpl.
  by destruct (fanOutError _ _ _ _ _).
Qed.

(** X1. The guard of [parseJournalEntry]: a submission is answered "text
    required" (status 400) and changes nothing exactly when its text,
    trimmed, is empty (missing, empty or white space only); exactly
    otherwise an entry is stored under the next id. *)
Theorem text_required_iff_blank env req w :
  (text req = "" ↔ parseJournalEntry env req w = (Return TextRequired, w)) ∧
  (text req ≠ "" ↔
   is_Some (entry (db (snd (parseJournalEntry env req w))) (nextId w))) ∧
  status_code TextRequired = 400.
Proof.
  destruct (hasText req) eqn:H.
  - pose proof (hasText_text _ H) as Hne.
    destruct (parse_outcome env req w H) as (w' & Hrun & Hj).
    rewrite Hrun. simpl. split_and!; [split| |done].
    + done.
    + intros [= Hr _]. by apply outcome_not_TextRequired in Hr.
    + split; [|done]. intros _. unfold entry. rewrite Hj, lookup_insert_eq. by eexists.
  - pose proof (proj1 (hasText_false req) H) as He.
    rewrite (parse_no_text _ _ _ H). simpl. split_and!; [done| |done].
    split; [done|]. rewrite nextId_fresh. by intros [? [=]].
Qed.

(** X2. When the request to the completion service throws, the submission
    is answered 500 with the error's message and the id of the new entry.
    The entry ends failed; its [processingError] is the error's message, or
    "AI API call failed" when it has none, trimmed; it has no parsed data,
    no stored response and [isProcessed] false.  No meal, medicine, body
    stat or test is written, and the writes are the creation of the entry,
    the request and the update to failed, in this order. *)
Theorem transport_failure_marks_failed env req e w :
  hasText req = true ->
  axios_post env (systemPrompt env (text req)) = Throw e ->
  ∃ w' j,
    parseJournalEntry env req w
      = (Return (ProcessingFailed (JS.message e) (nextId w)), w') ∧
    status_code (ProcessingFailed (JS.message e) (nextId w)) = 500 ∧
    entry (db w') (nextId w) = Some j ∧
    Journal.processingStatus j = Journal.failed ∧
    Journal.processingError j =
      Some (JS.trim (JS.or_string (JS.message e) "AI API call failed")) ∧
    Journal.parsedData j = None ∧
    Journal.aiResponse j = None ∧
    Journal.isProcessed j = false ∧
    meals (db w') = meals (db w) ∧
    medicines (db w') = medicines (db w) ∧
    bodyStats (db w') = bodyStats (db w) ∧
    tests (db w') = tests (db w) ∧
    map fst (drop (length (log w)) (log w')) =
      [Created Journals; Requested; Updated (nextId w) (Some Journal.failed)].
Proof.
  intros H Hax. rewrite (parse_run _ _ _ H), Hax. simpl.
  destruct (newEntry_fields env req) as (_ & _ & _ & _ & _ & Hp & Ha & Hi).
  eexists _, _. split; [done|]. split; [done|].
  split.
  { unfold updated, requested. simpl. rewrite entry_alter, entry_submitted.
    rewrite !decide_True by done. done. }
  simpl. rewrite Hp, Ha, Hi. split_and!; try done.
  unfold updated, requested, observe. simpl. rewrite <- !app_assoc.
  by rewrite drop_app_length.
Qed.

(** Witness for X2: the lunch text while the service cannot be reached. *)
Lemma transport_failure_marks_failed_witness :
  ∃ w' j,
    parseJournalEntry Scenario.unreachable (Scenario.submit Scenario.lunchText) blank
      = (Return (ProcessingFailed (Some "Network Error") (nextId blank)), w') ∧
    entry (db w') (nextId blank) = Some j ∧
    Journal.processingError j = Some "Network Error".
Proof.
  destruct (transport_failure_marks_failed Scenario.unreachable
              (Scenario.submit Scenario.lunchText)
              (JS.AxiosError (Some "Network Error")) blank eq_refl eq_refl)
    as (w' & j & Hrun & _ & Hj & _ & He & _).
  exists w', j. split; [exact Hrun|]. split; [exact Hj|exact He].
Defined.

Lemma assign_userId u j : Journal.userId (Journal.assign u j) = Journal.userId j.
Proof. done. Qed.

Lemma outcome_entry env req id :
  let j := snd (outcome env req id) in
  let resp := fst (outcome env req id) in
  Journal.userId j = user_id req ∧
  journalId_of resp = Some id ∧
  (Journal.processingStatus j = Journal.completed ∨
   Journal.processingStatus j = Journal.failed) ∧
  (success resp = true ↔ Journal.processingStatus j = Journal.completed).
Proof.
  destruct (newEntry_fields env req) as (_ & Hu & _).
  unfold outcome. destruct (axios_post env _) as [raw|e]; simpl.
  2:{ split_and!; [done|done|by right|done]. }
  destruct (JSON_parse env raw) as [pd|]; simpl.
  2:{ split_and!; [done|done|by right|done]. }
  destruct (fanOutError _ _ _ _ _); simpl.
  - split_and!; [done|done|by right|done].
  - split_and!; [done|done|by left|done].
Qed.

(** X3. After a submission with text, the response carries the id of the
    new entry, and [getProcessingStatus] by the submitting user on that id
    returns the status, [isProcessed], [processingError] and [parsedData]
    of the entry stored under that id, and changes nothing.  The status is
    completed or failed, completed exactly when the response reports
    success.  Any other user is answered "not found". *)
Theorem status_after_submission env req w :
  hasText req = true ->
  let run := parseJournalEntry env req w in
  let id := nextId w in
  ∃ resp j,
    fst run = Return resp ∧
    journalId_of resp = Some id ∧
    entry (db (snd run)) id = Some j ∧
    getProcessingStatus {| params_journalId := id; requester_id := user_id req |}
        (snd run)
      = (Return (ProcessingStatus id (Journal.processingStatus j)
                   (Journal.isProcessed j) (Journal.processingError j)
                   (Journal.parsedData j)),
         snd run) ∧
    (Journal.processingStatus j = Journal.completed ∨
     Journal.processingStatus j = Journal.failed) ∧
    (success resp = true ↔ Journal.processingStatus j = Journal.completed) ∧
    (∀ v, v ≠ user_id req ->
       getProcessingStatus {| params_journalId := id; requester_id := v |} (snd run)
       = (Return JournalNotFound, snd run)).
Proof.
  intros H. cbv zeta.
  destruct (parse_outcome env req w H) as (w' & Hrun & Hj).
  destruct (outcome_entry env req (nextId w)) as (Hu & Hid & Hs & Hok).
  rewrite Hrun. simpl.
  exists (fst (outcome env req (nextId w))), (snd (outcome env req (nextId w))).
  split_and!; try done.
  - unfold entry. by rewrite Hj, lookup_insert_eq.
  - unfold getProcessingStatus, Journal_findOne. run. simpl.
    by rewrite Hj, lookup_insert_eq, Hu, Nat.eqb_refl.
  - intros v Hv. unfold getProcessingStatus, Journal_findOne. run. simpl.
    rewrite Hj, lookup_insert_eq, Hu.
    by destruct (Nat.eqb_spec (user_id req) v).
Qed.

(** Witness for X3: the lunch scenario. *)
Lemma status_after_submission_witness :
  ∃ resp j,
    fst (parseJournalEntry (Scenario.answering Scenario.lunchJSON)
           (Scenario.submit Scenario.lunchText) blank) = Return resp ∧
    entry (db Scenario.afterLunch) (nextId blank) = Some j ∧
    getProcessingStatus {| params_journalId := nextId blank; requester_id := 7 |}
        Scenario.afterLunch
      = (Return (ProcessingStatus (nextId blank) (Journal.processingStatus j)
                   (Journal.isProcessed j) (Journal.processingError j)
                   (Journal.parsedData j)),
         Scenario.afterLunch).
Proof.
  destruct (status_after_submission (Scenario.answering Scenario.lunchJSON)
              (Scenario.submit Scenario.lunchText) blank eq_refl)
    as (resp & j & Hrun & _ & Hj & Hq & _).
  exists resp, j. split; [exact Hrun|]. split; [exact Hj|exact Hq].
Defined.

(** X4. When the answer decodes and a derived record is then rejected,
    the response is 500 with the validation error's message, and the entry
    ends failed while it keeps what the update to completed wrote:
    [isProcessed] true, the decoded structure as [parsedData] and the
    trimmed answer as [aiResponse]. *)
Theorem fanOut_failure_keeps_parsed_data env req raw pd e w :
  hasText req = true ->
  axios_post env (systemPrompt env (text req)) = Return raw ->
  JSON_parse env raw = Some pd ->
  fanOutError env (user_id req) (body_date req) (nextId w) pd = Some e ->
  ∃ w' j,
    parseJournalEntry env req w
      = (Return (ProcessingFailed (JS.message e) (nextId w)), w') ∧
    entry (db w') (nextId w) = Some j ∧
    Journal.processingStatus j = Journal.failed ∧
    Journal.isProcessed j = true ∧
    Journal.parsedData j = Some pd ∧
    Journal.aiResponse j = Some (JS.trim raw).
Proof.
  intros H Hax Hjs Hf.
  destruct (parse_outcome env req w H) as (w' & Hrun & Hj).
  unfold outcome in Hrun, Hj. rewrite Hax, Hjs in Hrun, Hj. simpl in Hrun, Hj.
  rewrite Hf in Hrun, Hj. simpl in Hrun, Hj.
  eexists w', _. split; [exact Hrun|]. split.
  { unfold entry. rewrite Hj. apply lookup_insert_eq. }
  done.
Qed.

(** Witness for X4: the snack scenario, whose meal has the time
    "afternoon". *)
Lemma fanOut_failure_keeps_parsed_data_witness :
  ∃ w' j,
    parseJournalEntry (Scenario.answering Scenario.snackJSON)
        (Scenario.submit Scenario.snackText) blank
      = (Return (ProcessingFailed
                   (Some "Meal validation failed: time: `afternoon` is not a valid enum value for path `time`.")
                   (nextId blank)), w') ∧
    entry (db w') (nextId blank) = Some j ∧
    Journal.processingStatus j = Journal.failed ∧
    Journal.isProcessed j = true ∧
    Journal.parsedData j = Some Scenario.snack.
Proof.
  destruct (fanOut_failure_keeps_parsed_data (Scenario.answering Scenario.snackJSON)
              (Scenario.submit Scenario.snackText) Scenario.snackJSON Scenario.snack
              (JS.ValidationError "Meal"
                 [("time", "`afternoon` is not a valid enum value for path `time`.")])
              blank eq_refl eq_refl eq_refl eq_refl)
    as (w' & j & Hrun & Hj & Hs & Hi & Hp & _).
  exists w', j. split; [exact Hrun|]. split; [exact Hj|]. split; [exact Hs|].
  split; [exact Hi|exact Hp].
Defined.

Section WrittenEvents.
Context {B : Type} (c : Collection) (add : B -> DB -> DB).

Lemma stored_events ds w :
  map fst (log (stored c add ds w)) =
  map fst (log w) ++ replicate (length ds) (Created c).
Proof.
  revert w. induction ds as [|d ds IH]; intros w; simpl.
  - by rewrite app_nil_r.
  - rewrite IH. unfold observe. simpl. by rewrite map_app, <- app_assoc.
Qed.

Lemma written_outcome rs w :
  fst (written c add rs w) =
  match rejection rs with
  | None => Return tt
  | Some e => Throw e
  end.
Proof. unfold written. by destruct (rejection rs). Qed.

Lemma written_events rs w :
  map fst (log (snd (written c add rs w))) = map fst (log w) ++ blockEvents c rs.
Proof.
  unfold written, blockEvents. destruct (rejection rs); simpl.
  - rewrite map_app, stored_events, <- app_assoc. reflexivity.
  - by rewrite stored_events, app_nil_r.
Qed.
End WrittenEvents.

Lemma fanOut_events env u date id pd w :
  let F := fanned env u date id pd in
  map fst (log (snd (fanOut env u date id pd w))) =
  map fst (log w) ++
  replicate (length (new_meals F)) (Created Meals) ++
  replicate (length (new_medicines F)) (Created Medicines) ++
  replicate (length (new_bodyStats F)) (Created BodyStats) ++
  replicate (length (new_tests F)) (Created Tests) ++
  match failedBlock env u date id pd with
  | Some c => [Rejected c]
  | None => []
  end.
Proof.
  unfold fanOut, fanned, failedBlock. run. simpl.
  rewrite createMeals_written.
  pose proof (written_outcome Meals add_meal (mealResults env u date id pd) w) as O1.
  pose proof (written_events Meals add_meal (mealResults env u date id pd) w) as E1.
  destruct (written Meals add_meal _ w) as [o1 w1]. simpl in O1, E1. subst o1.
  unfold blockEvents in E1.
  destruct (rejection (mealResults env u date id pd)) as [e1|]; simpl.
  { by rewrite E1. }
  rewrite createMedicines_written.
  pose proof (written_outcome Medicines add_medicine
                (medicineResults env u date id pd) w1) as O2.
  pose proof (written_events Medicines add_medicine
                (medicineResults env u date id pd) w1) as E2.
  destruct (written Medicines add_medicine _ w1) as [o2 w2]. simpl in O2, E2. subst o2.
  unfold blockEvents in E2.
  destruct (rejection (medicineResults env u date id pd)) as [e2|]; simpl.
  { rewrite E2, E1. by rewrite !app_nil_r, <- !app_assoc. }
  rewrite createBodyStats_written.
  pose proof (written_outcome BodyStats add_bodyStat
                (bodyStatResults env u date id pd) w2) as O3.
  pose proof (written_events BodyStats add_bodyStat
                (bodyStatResults env u date id pd) w2) as E3.
  destruct (written BodyStats add_bodyStat _ w2) as [o3 w3]. simpl in O3, E3. subst o3.
  unfold blockEvents in E3.
  destruct (rejection (bodyStatResults env u date id pd)) as [e3|]; simpl.
  { rewrite E3, E2, E1. by rewrite !app_nil_r, <- !app_assoc. }
  rewrite createTests_written.
  pose proof (written_events Tests add_test (testResults env u date id pd) w3) as E4.
  destruct (written Tests add_test _ w3) as [o4 w4]. simpl in E4.
  unfold blockEvents in E4. simpl.
  rewrite E4, E3, E2, E1. rewrite !app_nil_r, <- !app_assoc.
  by destruct (rejection (testResults env u date id pd)).
Qed.

Lemma failedBlock_error env u date id pd :
  failedBlock env u date id pd = None <-> fanOutError env u date id pd = None.
Proof.
  unfold failedBlock, fanOutError.
  destruct (rejection (mealResults _ _ _ _ _)); simpl; [done|].
  destruct (rejection (medicineResults _ _ _ _ _)); simpl; [done|].
  destruct (rejection (bodyStatResults _ _ _ _ _)); simpl; [done|].
  by destruct (rejection (testResults _ _ _ _ _)).
Qed.

(** X5. The order of the writes of a submission whose answer decodes: the
    entry is created, the service requested, the entry updated to
    completed; then the meals, the medicines, the body stats and the tests
    that are stored are created, block after block in this order; and if a
    block refuses a document, the rejection and the update of the entry to
    failed end the run. *)
Theorem fanOut_writes_in_order env req raw pd w :
  hasText req = true ->
  axios_post env (systemPrompt env (text req)) = Return raw ->
  JSON_parse env raw = Some pd ->
  let id := nextId w in
  let F := fanned env (user_id req) (body_date req) id pd in
  map fst (drop (length (log w)) (log (snd (parseJournalEntry env req w)))) =
    [Created Journals; Requested; Updated id (Some Journal.completed)] ++
    replicate (length (new_meals F)) (Created Meals) ++
    replicate (length (new_medicines F)) (Created Medicines) ++
    replicate (length (new_bodyStats F)) (Created BodyStats) ++
    replicate (length (new_tests F)) (Created Tests) ++
    match failedBlock env (user_id req) (body_date req) id pd with
    | Some c => [Rejected c; Updated id (Some Journal.failed)]
    | None => []
    end.
Proof.
  intros H Hax Hjs. cbv zeta.
  rewrite (parse_run _ _ _ H), Hax, Hjs. simpl.
  set (w2 := updated (nextId w) (completedUpdate pd raw) (requested env req w)).
  assert (map fst (log w2) =
          map fst (log w) ++
          [Created Journals; Requested; Updated (nextId w) (Some Journal.completed)])
    as Hw2.
  { unfold w2, updated, requested, observe. simpl. by rewrite !map_app, <- !app_assoc. }
  clearbody w2.
  pose proof (fanOut_events env (user_id req) (body_date req) (nextId w) pd w2) as Hev.
  cbv zeta in Hev. rewrite Hw2 in Hev.
  assert (fst (fanOut env (user_id req) (body_date req) (nextId w) pd w2) =
          match fanOutError env (user_id req) (body_date req) (nextId w) pd with
          | None => Return tt
          | Some e => Throw e
          end) as Hfst.
  { by destruct (fanOut_spec env (user_id req) (body_date req) (nextId w) pd w2)
      as (obs & -> & _). }
  pose proof (failedBlock_error env (user_id req) (body_date req) (nextId w) pd)
    as [Hfb1 Hfb2].
  destruct (fanOut env (user_id req) (body_date req) (nextId w) pd w2) as [o3 w3].
  simpl in Hev, Hfst. subst o3.
  destruct (fanOutError env (user_id req) (body_date req) (nextId w) pd) as [e|];
    destruct (failedBlock env (user_id req) (body_date req) (nextId w) pd) as [c|];
    simpl.
  - rewrite <- skipn_map. unfold updated, observe. simpl.
    rewrite map_app, Hev. simpl. 
    rewrite <- ?app_assoc, drop_app_length'; [|by rewrite length_map].
    simpl. by rewrite <- ?app_assoc.
  - by specialize (Hfb1 eq_refl).
  - by specialize (Hfb2 eq_refl).
  - rewrite <- skipn_map, Hev.
    rewrite <- ?app_assoc, drop_app_length'; [|by rewrite length_map].
    by rewrite ?app_nil_r.
Qed.

(** Witness for X5: the snack scenario; its only meal is refused, so no
    record is created. *)
Lemma fanOut_writes_in_order_witness :
  map fst
    (drop (length (log blank))
       (log (snd (parseJournalEntry (Scenario.answering Scenario.snackJSON)
                    (Scenario.submit Scenario.snackText) blank)))) =
  [Created Journals; Requested;
   Updated (nextId blank) (Some Journal.completed);
   Rejected Meals;
   Updated (nextId blank) (Some Journal.failed)].
Proof.
  exact (fanOut_writes_in_order (Scenario.answering Scenario.snackJSON)
           (Scenario.submit Scenario.snackText) Scenario.snackJSON Scenario.snack
           blank eq_refl eq_refl eq_refl).
Defined.

Lemma parse_other_entries env req w k :
  is_Some (entry (db w) k) ->
  entry (db (snd (parseJournalEntry env req w))) k = entry (db w) k.
Proof.
  intros Hk. destruct (hasText req) eqn:H.
  - destruct (parse_outcome env req w H) as (w' & -> & Hj). simpl.
    unfold entry in *. rewrite Hj. apply lookup_insert_ne.
    intros <-. pose proof (nextId_fresh w) as Hf. unfold entry in Hf.
    rewrite Hf in Hk. by destruct Hk.
  - by rewrite (parse_no_text _ _ _ H).
Qed.

(** X6. A failed entry can be retried once: an accepted retry leaves it
    pending, with its error cleared and [isProcessed] and [parsedData] as
    they were, so that a second retry is answered "not in failed status"
    and changes nothing, whatever the completion service answers. *)
Theorem retry_only_once env env' req w j :
  entry (db w) (params_journalId req) = Some j ->
  Journal.userId j = requester_id req ->
  Journal.processingStatus j = Journal.failed ->
  let w' := snd (retryProcessing env req w) in
  retryProcessing env' req w' = (Return NotInFailedStatus, w') ∧
  getProcessingStatus req w' =
    (Return (ProcessingStatus (params_journalId req) Journal.pending
               (Journal.isProcessed j) None (Journal.parsedData j)), w').
Proof.
  intros Hj Hu Hs. cbv zeta. rewrite (retry_accepted _ _ _ _ Hj Hu Hs).
  set (req' := {| body_rawText := Some (Journal.rawText j);
                  body_date := Some (Journal.date j);
                  user_id := requester_id req |}).
  set (w1 := updated (params_journalId req) resetUpdate w).
  assert (entry (db w1) (params_journalId req) = Some (Journal.assign resetUpdate j))
    as Hj1.
  { unfold w1, updated. simpl. rewrite entry_alter, decide_True by done. by rewrite Hj. }
  assert (entry (db (snd (parseJournalEntry env req' w1))) (params_journalId req)
          = Some (Journal.assign resetUpdate j)) as Hj2.
  { rewrite parse_other_entries; [done|]. rewrite Hj1. by eexists. }
  split.
  - by apply (retry_not_failed _ _ _ _ Hj2).
  - unfold getProcessingStatus. run. rewrite (findOne_owned _ _ _ _ Hj2 Hu). done.
Qed.

(** Witness for X6: the entry that failed for lack of network, retried
    twice. *)
Lemma retry_only_once_witness :
  let w' :=
    snd (retryProcessing (Scenario.answering Scenario.lunchJSON) (Scenario.retry 0)
           Scenario.afterOutage) in
  retryProcessing Scenario.unreachable (Scenario.retry 0) w'
  = (Return NotInFailedStatus, w').
Proof.
  assert (∃ j, entry (db Scenario.afterOutage) 0 = Some j ∧
               Journal.userId j = 7 ∧
               Journal.processingStatus j = Journal.failed) as (j & Hj & Hu & Hs).
  { eexists. split; [vm_compute; reflexivity|]. split; reflexivity. }
  exact (proj1 (retry_only_once (Scenario.answering Scenario.lunchJSON)
                  Scenario.unreachable (Scenario.retry 0) Scenario.afterOutage j
                  Hj Hu Hs)).
Defined.

(** ** Validators *)

Lemma check_nil path r : Schema.check path r = [] <-> r = None.
Proof. by destruct r. Qed.

Lemma first_None a b : Schema.first a b = None <-> a = None ∧ b = None.
Proof. destruct a; simpl; [by split; [|intros []]|by split; [|intros []]]. Qed.

Lemma required_None msg v :
  Schema.required msg v = None <-> ∃ s, v = Some s ∧ s ≠ "".
Proof.
  unfold Schema.required. destruct v as [s|]; simpl.
  - pose proof (truthy_string_true s) as H.
    destruct (JS.truthy_string s); split; try done.
    + intros _. exists s. split; [done|]. by apply H.
    + intros (s' & [= <-] & Hs). apply H in Hs. done.
  - split; [done|]. by intros (s & [=] & _).
Qed.

Lemma required_trim_None msg v :
  Schema.required msg (Schema.trim v) = None <-> visible v.
Proof.
  rewrite required_None. unfold visible, Schema.trim. destruct v as [s|]; simpl.
  - split.
    + intros (s' & [= <-] & Hs). by exists s.
    + intros (s' & [= <-] & Hs). by eexists.
  - split; by intros (s & [=] & _).
Qed.

Lemma enum_None values path v :
  Schema.enum values path v = None <-> ∀ s, v = Some s -> s ∈ values.
Proof.
  unfold Schema.enum. destruct v as [s|]; [|done].
  destruct (existsb (String.eqb s) values) eqn:E.
  - split; [|done]. intros _ s' [= <-].
    apply existsb_exists in E as (x & Hx & ->%String.eqb_eq).
    by apply list_elem_of_In.
  - split; [done|]. intros H. specialize (H s eq_refl).
    assert (existsb (String.eqb s) values = true) as E'; [|congruence].
    apply existsb_exists. exists s. split; [by apply list_elem_of_In|apply String.eqb_refl].
Qed.

Lemma min_None bound msg v :
  Schema.min bound msg v = None <-> ∀ q, v = Some q -> (bound <= q)%Q.
Proof.
  unfold Schema.min. destruct v as [q|]; [|done].
  destruct (Qle_bool bound q) eqn:E.
  - split; [|done]. intros _ q' [= <-]. by apply Qle_bool_iff.
  - split; [done|]. intros H. specialize (H q eq_refl).
    apply Qle_bool_iff in H. congruence.
Qed.

Lemma max_None bound msg v :
  Schema.max bound msg v = None <-> ∀ q, v = Some q -> (q <= bound)%Q.
Proof.
  unfold Schema.max. destruct v as [q|]; [|done].
  destruct (Qle_bool q bound) eqn:E.
  - split; [|done]. intros _ q' [= <-]. by apply Qle_bool_iff.
  - split; [done|]. intros H. specialize (H q eq_refl).
    apply Qle_bool_iff in H. congruence.
Qed.

Lemma app_nil_iff {A} (l1 l2 : list A) : l1 ++ l2 = [] <-> l1 = [] ∧ l2 = [].
Proof. split; [apply app_eq_nil|by intros [-> ->]]. Qed.

Lemma Medicine_create_iff doc :
  (∃ r, Medicine.create doc = Schema.Saved r) <->
  Medicine.validate (Medicine.init doc) = [].
Proof.
  unfold Medicine.create. cbv zeta.
  destruct (Medicine.validate _); split; try done; [by eexists|by intros [? ?]].
Qed.

Lemma Test_create_iff doc :
  (∃ r, Test.create doc = Schema.Saved r) <-> Test.validate (Test.init doc) = [].
Proof.
  unfold Test.create. cbv zeta.
  destruct (Test.validate _); split; try done; [by eexists|by intros [? ?]].
Qed.

Lemma BodyStat_create_iff doc :
  (∃ r, BodyStat.create doc = Schema.Saved r) <->
  BodyStat.validate (BodyStat.init doc) = [].
Proof.
  unfold BodyStat.create. cbv zeta.
  destruct (BodyStat.validate _); split; try done; [by eexists|by intros [? ?]].
Qed.

Lemma Meal_create_iff doc :
  (∃ r, Meal.create doc = Schema.Saved r) <-> Meal.validate (Meal.init doc) = [].
Proof.
  unfold Meal.create. cbv zeta.
  destruct (Meal.validate _); split; try done; [by eexists|by intros [? ?]].
Qed.

Lemma Medicine_accepts env u date id m :
  (∃ r, Medicine.create (medicineDocument env u date id m) = Schema.Saved r) ↔
  acceptableMedicine m.
Proof.
  rewrite Medicine_create_iff. unfold Medicine.validate, Schema.Errors, acceptableMedicine.
  rewrite !app_nil_iff, !check_nil, first_None.
  cbn [Medicine.name Medicine.dosage Medicine.time Medicine.frequency
       Medicine.category Medicine.init medicineDocument].
  rewrite !required_trim_None, required_None, enum_None.
  split.
  - intros (Hn & Hd & [(t & Ht & Hne) Hin] & _). split_and!; try done.
    exists t. split; [done|]. by apply Hin.
  - intros (Hn & Hd & t & Ht & Hin). split_and!; try done.
    + exists t. split; [done|]. intros ->. unfold Schema.times in Hin.
      by repeat (apply elem_of_cons in Hin as [Hin|Hin]; [done|]);
         apply elem_of_nil in Hin.
    + intros s. rewrite Ht. by intros [= <-].
Qed.

Lemma truthy_number_true q : JS.truthy_number q = true <-> ¬ (q == 0)%Q.
Proof.
  unfold JS.truthy_number. destruct (Qeq_bool q 0) eqn:E; simpl.
  - apply Qeq_bool_iff in E. split; [done|]. by intros H.
  - split; [|done]. intros _ H. apply Qeq_bool_iff in H. congruence.
Qed.

Lemma Test_lt_true v bound :
  Test.lt v bound = true <-> ∃ b, bound = Some b ∧ (v < b)%Q.
Proof.
  unfold Test.lt. destruct bound as [b|]; [|by split; [|intros (? & [=] & _)]].
  destruct (Qle_bool b v) eqn:E; simpl.
  - apply Qle_bool_iff in E. split; [done|]. intros (b' & [= <-] & H).
    by apply Qlt_not_le in H.
  - split; [|done]. intros _. exists b. split; [done|].
    apply Qnot_le_lt. intros H. apply Qle_bool_iff in H. congruence.
Qed.

Lemma Test_gt_true v bound :
  Test.gt v bound = true <-> ∃ b, bound = Some b ∧ (b < v)%Q.
Proof.
  unfold Test.gt. destruct bound as [b|]; [|by split; [|intros (? & [=] & _)]].
  destruct (Qle_bool v b) eqn:E; simpl.
  - apply Qle_bool_iff in E. split; [done|]. intros (b' & [= <-] & H).
    by apply Qlt_not_le in H.
  - split; [|done]. intros _. exists b. split; [done|].
    apply Qnot_le_lt. intros H. apply Qle_bool_iff in H. congruence.
Qed.

Lemma Test_accepts env u date id t :
  (∃ r, Test.create (testDocument env u date id t) = Schema.Saved r) ↔
  acceptableTest t.
Proof.
  rewrite Test_create_iff. unfold Test.validate, Schema.Errors, acceptableTest.
  rewrite !app_nil_iff, !check_nil.
  cbn [Test.testName Test.result Test.status Test.category Test.init testDocument].
  rewrite !required_trim_None. split; [by intros (? & ? & _)|].
  by intros [? ?].
Qed.

Lemma copy_if_number v (P : Q -> Prop) :
  (∀ x, copy_if JS.truthy_number v = Some x -> P x) <->
  (∀ q, v = Some q -> (q == 0)%Q ∨ P q).
Proof.
  split.
  - intros H q ->. simpl in H. pose proof (truthy_number_true q) as Hq.
    destruct (JS.truthy_number q).
    + right. by apply H.
    + left. destruct (Qeq_dec q 0) as [E|E]; [done|]. by apply Hq in E.
  - intros H x [-> Hx]%copy_if_Some. destruct (H x eq_refl) as [E|E]; [|done].
    by apply truthy_number_true in Hx.
Qed.

Lemma copy_if_string v (P : string -> Prop) :
  (∀ x, copy_if JS.truthy_string v = Some x -> P x) <->
  (∀ s, v = Some s -> s = "" ∨ P s).
Proof.
  split.
  - intros H s ->. simpl in H. pose proof (truthy_string_true s) as Hs.
    destruct (JS.truthy_string s).
    + right. by apply H.
    + left. destruct (String.eqb_spec s "") as [|n]; [done|]. by apply Hs in n.
  - intros H x [-> Hx]%copy_if_Some. destruct (H x eq_refl) as [E|E]; [|done].
    by apply truthy_string_true in Hx.
Qed.

Lemma range_iff v lo hi msg1 msg2 :
  Schema.first (Schema.min lo msg1 v) (Schema.max hi msg2 v) = None <->
  ∀ q, v = Some q -> (lo <= q)%Q ∧ (q <= hi)%Q.
Proof.
  rewrite first_None, min_None, max_None. split.
  - intros [H1 H2] q Hq. split; [by apply H1|by apply H2].
  - intros H. split; intros q Hq; by destruct (H q Hq).
Qed.

Lemma enum_default values path d v :
  d ∈ values ->
  Schema.enum values path (Some (default d v)) = None <->
  ∀ s, v = Some s -> s ∈ values.
Proof.
  intros Hd. rewrite enum_None. destruct v as [s|]; simpl.
  - split; intros H s' [= <-]; by apply H.
  - split; [done|]. by intros _ s [= <-].
Qed.

Lemma BodyStat_accepts env u date id s :
  (∃ r, BodyStat.create (bodyStatDocument env u date id s) = Schema.Saved r) ↔
  acceptableBodyStats s.
Proof.
  rewrite BodyStat_create_iff.
  unfold BodyStat.validate, Schema.Errors, acceptableBodyStats.
  rewrite !app_nil_iff, !check_nil.
  cbn [BodyStat.weight BodyStat.waterIntake BodyStat.sleepHours BodyStat.steps
       BodyStat.mood BodyStat.energy BodyStat.init bodyStatDocument].
  rewrite !range_iff, min_None.
  rewrite (enum_default Schema.moods), (enum_default Schema.energies);
    [|vm_compute; set_solver|vm_compute; set_solver].
  rewrite !copy_if_number, !copy_if_string.
  assert (∀ (q hi : Q), (0 <= hi)%Q ->
            ((q == 0)%Q ∨ (0 <= q)%Q ∧ (q <= hi)%Q) <-> (0 <= q)%Q ∧ (q <= hi)%Q)
    as Hz.
  { intros q hi Hhi. split; [|by right]. intros [E|E]; [|done]. by rewrite E. }
  assert (∀ q : Q, ((q == 0)%Q ∨ (0 <= q)%Q) <-> (0 <= q)%Q) as Hz'.
  { intros q. split; [|by right]. intros [E|E]; [|done]. by rewrite E. }
  split.
  - intros (Hw & Hwa & Hsl & Hst & Hm & He). split_and!; try done.
    + intros q Hq. apply (Hz q 50%Q); [unfold Qle; simpl; lia|by apply Hwa].
    + intros q Hq. apply (Hz q 24%Q); [unfold Qle; simpl; lia|by apply Hsl].
    + intros q Hq. by apply Hz', Hst.
  - intros (Hw & Hwa & Hsl & Hst & Hm & He). split_and!; try done.
    + intros q Hq. right. by apply Hwa.
    + intros q Hq. right. by apply Hsl.
    + intros q Hq. right. by apply Hst.
Qed.

Lemma concat_imap_nil {A B} (f : nat -> A -> list B) (g : A -> Prop) l :
  (∀ i x, f i x = [] <-> g x) ->
  concat (imap f l) = [] <-> Forall g l.
Proof.
  revert f. induction l as [|x l IH]; intros f Hf; simpl.
  - split; [constructor|done].
  - rewrite app_nil_iff, Hf, (IH (f ∘ S)); [|intros i y; apply Hf].
    split; [intros [? ?]; by constructor|by inversion 1].
Qed.

Lemma FoodItem_validate_nil prefix d :
  FoodItem.validate prefix d = [] <->
  FoodItem.name d ≠ "" ∧ FoodItem.quantity d ≠ "" ∧
  (∀ c, FoodItem.calories d = Some c -> (0 <= c)%Q) ∧
  (∀ s, FoodItem.category d = Some s ->
        s ∈ ["breakfast"; "lunch"; "dinner"; "snack"; "beverage"]).
Proof.
  unfold FoodItem.validate, Schema.Errors.
  rewrite !app_nil_iff, !check_nil, !required_None, min_None, enum_None.
  split.
  - intros ((n & [= <-] & Hn) & (q & [= <-] & Hq) & Hc & Hcat). done.
  - intros (Hn & Hq & Hc & Hcat). split_and!; try done; by eexists.
Qed.

Lemma Meal_accepts env u date id m :
  (∃ r, mealResult env u date id m = Schema.Saved r) ↔ acceptableMeal m.
Proof.
  unfold mealResult, acceptableMeal. destruct (MealData.items m) as [items|].
  2:{ split; [by intros [? ?]|by intros (? & [=] & _)]. }
  rewrite Meal_create_iff. unfold Meal.validate, Schema.Errors.
  rewrite !app_nil_iff, !check_nil.
  cbn [Meal.time Meal.foodItems Meal.totalCalories Meal.notes Meal.init mealDocument].
  rewrite first_None, required_None, (enum_default Schema.times); [|vm_compute; set_solver].
  rewrite (concat_imap_nil _
             (λ d, FoodItem.name d ≠ "" ∧ FoodItem.quantity d ≠ "" ∧
                   (∀ c, FoodItem.calories d = Some c -> (0 <= c)%Q) ∧
                   (∀ s, FoodItem.category d = Some s ->
                      s ∈ ["breakfast"; "lunch"; "dinner"; "snack"; "beverage"])));
    [|intros i x; apply FoodItem_validate_nil].
  rewrite map_map, Forall_map. simpl.
  split.
  - intros ([_ Ht] & Hitems & _). exists items. split_and!; try done.
    + eapply Forall_impl; [exact Hitems|]. by intros item [? _].
    + destruct items as [|item items]; [by left|right].
      inversion Hitems as [|? ? (_ & Hq & Hc & _) _]; subst. split; [done|].
      by apply Hc.
  - intros (items' & [= <-] & Ht & Hitems & Hrest). split_and!; try done.
    + destruct (MealData.time m) as [t|] eqn:E; simpl.
      * exists t. split; [done|]. intros ->. specialize (Ht "" eq_refl).
        unfold Schema.times in Ht.
        by repeat (apply elem_of_cons in Ht as [Ht|Ht]; [done|]);
           apply elem_of_nil in Ht.
      * by eexists.
    + destruct Hrest as [->|[Hq Hc]]; [constructor|].
      eapply Forall_impl; [exact Hitems|]. intros item Hn. split_and!; try done.
      * by intros c [= <-].
      * intros s [= <-]. vm_compute. set_solver.
Qed.

Lemma rejection_None_iff {A B} (f : A -> Schema.Result B) l :
  rejection (map f l) = None <-> Forall (λ x, ∃ r, f x = Schema.Saved r) l.
Proof.
  induction l as [|x l IH]; simpl; [by split; [constructor|]|].
  destruct (f x) as [d|e] eqn:Hx.
  - rewrite IH. split; [intros; constructor; [by eexists|done]|by inversion 1].
  - split; [done|]. inversion 1 as [|? ? [r Hr] _]; subst. congruence.
Qed.

Lemma meals_accepted_iff env u date id pd :
  rejection (mealResults env u date id pd) = None <->
  Forall acceptableMeal (default [] (ParsedData.meals pd)).
Proof.
  unfold mealResults. rewrite rejection_None_iff.
  apply Forall_proper; [|done]. intros m. apply Meal_accepts.
Qed.

Lemma medicines_accepted_iff env u date id pd :
  rejection (medicineResults env u date id pd) = None <->
  Forall acceptableMedicine (default [] (ParsedData.medicines pd)).
Proof.
  unfold medicineResults. rewrite rejection_None_iff.
  apply Forall_proper; [|done]. intros m. apply Medicine_accepts.
Qed.

Lemma bodyStats_accepted_iff env u date id pd :
  rejection (bodyStatResults env u date id pd) = None <->
  ∀ s, ParsedData.bodyStats pd = Some s -> acceptableBodyStats s.
Proof.
  unfold bodyStatResults. destruct (ParsedData.bodyStats pd) as [s|]; [|done].
  pose proof (BodyStat_accepts env u date id s) as Hs. simpl.
  destruct (BodyStat.create _) as [r|e].
  - split; [|done]. intros _ s' [= <-]. apply Hs. by eexists.
  - split; [done|]. intros H. destruct (proj2 Hs (H s eq_refl)) as [r [=]].
Qed.

Lemma tests_accepted_iff env u date id pd :
  rejection (testResults env u date id pd) = None <->
  Forall acceptableTest (default [] (ParsedData.tests pd)).
Proof.
  unfold testResults. rewrite rejection_None_iff.
  apply Forall_proper; [|done]. intros t. apply Test_accepts.
Qed.

Lemma fanOutError_None_iff env u date id pd :
  fanOutError env u date id pd = None <->
  Forall acceptableMeal (default [] (ParsedData.meals pd)) ∧
  Forall acceptableMedicine (default [] (ParsedData.medicines pd)) ∧
  (∀ s, ParsedData.bodyStats pd = Some s -> acceptableBodyStats s) ∧
  Forall acceptableTest (default [] (ParsedData.tests pd)).
Proof.
  rewrite <- (meals_accepted_iff env u date id pd),
    <- (medicines_accepted_iff env u date id pd),
    <- (bodyStats_accepted_iff env u date id pd),
    <- (tests_accepted_iff env u date id pd).
  unfold fanOutError.
  destruct (rejection (mealResults _ _ _ _ _)); simpl; [by split; [|intros []]|].
  destruct (rejection (medicineResults _ _ _ _ _)); simpl; [by split; [|intros (_&?&_)]|].
  destruct (rejection (bodyStatResults _ _ _ _ _)); simpl; [by split; [|intros (_&_&?&_)]|].
  destruct (rejection (testResults _ _ _ _ _)); simpl; [by split; [|intros (_&_&_&?)]|].
  done.
Qed.

(** The position of a stored record among those a loop of writes adds. *)
Lemma accepted_position {A B} (f : A -> Schema.Result B) (P : A -> Prop) l i x :
  (∀ y, (∃ r, f y = Schema.Saved r) ↔ P y) ->
  l !! i = Some x ->
  (is_Some (accepted (map f l) !! i) ↔ Forall P (take (S i) l)) ∧
  (∀ r, accepted (map f l) !! i = Some r -> f x = Schema.Saved r).
Proof.
  intros HP Hx. split.
  - rewrite accepted_lookup. apply lookup_lt_Some in Hx as Hi.
    rewrite (Forall_proper _ P HP _ _ eq_refl). by split; [intros [_ ?]|].
  - intros r (y & Hy & Hr)%accepted_lookup_Some. congruence.
Qed.

(** The scenario of the check-up: every document is acceptable. *)
Lemma chai_acceptable : acceptableMeal Cases.chai.
Proof.
  exists ["noon chai "; "girda"]. split; [reflexivity|]. split; [discriminate|].
  split.
  - constructor; [vm_compute; discriminate|].
    constructor; [vm_compute; discriminate|constructor].
  - right. split; [vm_compute; discriminate|discriminate].
Qed.

Lemma paracetamol_acceptable : acceptableMedicine Cases.paracetamol.
Proof.
  split; [|split].
  - exists " Paracetamol ". split; [reflexivity|]. vm_compute. discriminate.
  - exists "500mg". split; [reflexivity|]. vm_compute. discriminate.
  - exists "night". split; [reflexivity|]. unfold Schema.times. repeat constructor.
Qed.

Lemma water_acceptable : acceptableBodyStats (Scenario.water 2).
Proof.
  unfold acceptableBodyStats, Scenario.water. simpl.
  split_and!; try (by intros ? [=]).
  intros q [= <-]. by split.
Qed.

Lemma haemoglobin_acceptable : acceptableTest Cases.haemoglobin.
Proof.
  split.
  - exists "Haemoglobin". split; [reflexivity|]. vm_compute. discriminate.
  - exists "11.5 g/dL". split; [reflexivity|]. vm_compute. discriminate.
Qed.

(** ** What the schemas accept of the decoded structure *)

(** C10. The Meal records a fan-out stores come from the decoded meals, in
    order: there is one for each meal before the first that the schema
    refuses.  The food items of a record are the items of its meal, one
    for one, their names trimmed, each with the meal's quantity and
    calories.  If the meal has no quantity, every food item has
    quantity "1 serving"; if it has no calories, every food item has
    calories 0 and the total is 0; neither lack makes the schema refuse
    the meal.  The record's [totalCalories] is the sum of its food items'
    calories as the save hook adds them, item after item from 0 in double
    arithmetic; when the calories are non-negative integers and their sum
    is below [2 ^ 53], that is their exact sum. *)
Theorem meal_defaults_and_total env req raw pd w :
  hasText req = true ->
  axios_post env (systemPrompt env (text req)) = Return raw ->
  JSON_parse env raw = Some pd ->
  let F := fanned env (user_id req) (body_date req) (nextId w) pd in
  let decoded := default [] (ParsedData.meals pd) in
  let n := length (new_meals F) in
  ∃ resp w',
    parseJournalEntry env req w = (Return resp, w') ∧
    meals (db w') = meals (db w) ++ new_meals F ∧
    Forall acceptableMeal (take n decoded) ∧
    (∀ m, decoded !! n = Some m -> ¬ acceptableMeal m) ∧
    (∀ m items,
       MealData.items m = Some items ->
       Forall (λ item, JS.trim item ≠ "") items ->
       (∀ t, MealData.time m = Some t -> t ∈ Schema.times) ->
       MealData.quantity m = None ->
       MealData.calories m = None ->
       acceptableMeal m) ∧
    Forall2
      (λ m r,
         ∃ items,
           MealData.items m = Some items ∧
           Meal.foodItems r = map (foodItemOf m) items ∧
           map FoodItem.name (Meal.foodItems r) = map JS.trim items ∧
           (MealData.quantity m = None ->
            Forall (λ item, FoodItem.quantity item = "1 serving")
              (Meal.foodItems r)) ∧
           (MealData.calories m = None ->
            Forall (λ item, FoodItem.calories item = Some 0%Q) (Meal.foodItems r) ∧
            Meal.totalCalories r = Some 0%Q) ∧
           Meal.totalCalories r =
             Some (fold_left
                     (λ total item,
                        JS.add total (JS.or_number (FoodItem.calories item) 0))
                     (Meal.foodItems r) 0%Q) ∧
           (Forall (λ item, whole (default 0%Q (FoodItem.calories item)))
              (Meal.foodItems r) ->
            (sum_calories (Meal.foodItems r) < inject_Z (2 ^ 53))%Q ->
            ∃ total,
              Meal.totalCalories r = Some total ∧
              (total == sum_calories (Meal.foodItems r))%Q))
      (take n decoded) (new_meals F).
Proof.
  intros H Hax Hjs. cbv zeta.
  destruct (parse_decoded_world env req raw pd w H Hax Hjs)
    as (resp & w' & obs & Hrun & Hm & _).
  cbv zeta in *. exists resp, w'. split; [done|]. split; [done|].
  unfold fanned, mealResults. cbn [new_meals].
  pose proof (accepted_take (mealResult env (user_id req) (body_date req) (nextId w))
                (default [] (ParsedData.meals pd))) as Htake.
  split_and!.
  - eapply Forall2_Forall_l; [exact Htake|]. apply Forall_forall.
    intros r _ m Hr. apply (Meal_accepts env (user_id req) (body_date req) (nextId w)).
    by exists r.
  - intros m Hm' Hacc.
    apply (accepted_stop _ _ _ Hm').
    by apply (Meal_accepts env (user_id req) (body_date req) (nextId w)).
  - intros m items Hi Hnames Htime Hq Hc. exists items.
    split; [done|]. split; [done|]. split; [done|]. right.
    rewrite Hq, Hc. split; [vm_compute; discriminate|done].
  - eapply Forall2_impl; [exact Htake|]. cbn beta.
    intros m r (items & Hi & Hfood & _ & _ & Htotal)%mealResult_saved.
    destruct (foodItemOf_shared m items) as [Hnames Hshared].
    rewrite <- Hfood in Hnames, Hshared.
    exists items. split; [done|]. split; [done|]. split; [done|].
    assert (MealData.calories m = None ->
            Forall (λ item, FoodItem.calories item = Some 0%Q) (Meal.foodItems r))
      as Hzero.
    { intros Hc. eapply Forall_impl; [exact Hshared|]. cbn beta.
      intros item [_ ->]. by rewrite Hc. }
    split_and!.
    + intros Hq. eapply Forall_impl; [exact Hshared|]. cbn beta.
      intros item [-> _]. by rewrite Hq.
    + intros Hc. split; [by apply Hzero|].
      by rewrite Htotal, (total_zero _ (Hzero Hc)).
    + done.
    + intros Hw Hlt. eexists. split; [exact Htotal|]. by apply total_is_sum.
Qed.

(** Witness for C10: the lunch scenario, whose meal has neither quantity
    nor calories. *)
Lemma meal_defaults_and_total_witness :
  hasText (Scenario.submit Scenario.lunchText) = true ∧
  JSON_parse (Scenario.answering Scenario.lunchJSON) Scenario.lunchJSON
    = Some Scenario.lunch ∧
  ∃ resp w',
    parseJournalEntry (Scenario.answering Scenario.lunchJSON)
        (Scenario.submit Scenario.lunchText) blank
      = (Return resp, w') ∧
    meals (db w') =
      meals (db blank) ++
      new_meals (fanned (Scenario.answering Scenario.lunchJSON) 7 None
                   (nextId blank) Scenario.lunch) ∧
    map (λ r, map FoodItem.quantity (Meal.foodItems r)) (meals (db w'))
      = [["1 serving"; "1 serving"]] ∧
    map Meal.totalCalories (meals (db w')) = [Some 0%Q].
Proof.
  split; [reflexivity|]. split; [reflexivity|].
  destruct (meal_defaults_and_total (Scenario.answering Scenario.lunchJSON)
              (Scenario.submit Scenario.lunchText) Scenario.lunchJSON
              Scenario.lunch blank eq_refl eq_refl eq_refl)
    as (resp & w' & Hrun & Hm & _).
  exists resp, w'. split; [exact Hrun|]. split; [exact Hm|].
  rewrite Hm. split; reflexivity.
Defined.

(** What [Model.create] stores for the documents of the fan-out. *)
Lemma Medicine_stored_fields env u date id m r :
  Medicine.create (medicineDocument env u date id m) = Schema.Saved r ->
  Medicine.name r = JS.trim <$> MedicineData.name m ∧
  Medicine.dosage r = JS.trim <$> MedicineData.dosage m ∧
  Medicine.time r = MedicineData.time m ∧
  Medicine.frequency r = Some "daily" ∧
  Medicine.isActive r = Some true ∧
  Medicine.category r = Some "other" ∧
  Medicine.isFromJournal r = true ∧
  Medicine.journalEntryId r = Some id.
Proof. by intros ->%Medicine_create_saved. Qed.

Lemma Test_stored_status env u date id t r :
  let lo := TestData.referenceRange t ≫= ReferenceRange.min in
  let hi := TestData.referenceRange t ≫= ReferenceRange.max in
  Test.create (testDocument env u date id t) = Schema.Saved r ->
  Test.category r = Some "blood" ∧
  ((TestData.resultValue t = None ∨
    ∃ v, TestData.resultValue t = Some v ∧ (v == 0)%Q) ->
   Test.status r = Some "normal") ∧
  (∀ v, TestData.resultValue t = Some v -> ¬ (v == 0)%Q ->
     ((∃ b, lo = Some b ∧ (v < b)%Q) -> Test.status r = Some "low") ∧
     ((∀ b, lo = Some b -> (b <= v)%Q) -> (∃ b, hi = Some b ∧ (b < v)%Q) ->
      Test.status r = Some "high") ∧
     ((∀ b, lo = Some b -> (b <= v)%Q) -> (∀ b, hi = Some b -> (v <= b)%Q) ->
      Test.status r = Some "normal")).
Proof.
  cbv zeta.
  intros ->%Test_create_saved. unfold Test.preSave.
  cbn [Test.resultValue Test.referenceRange Test.init testDocument].
  destruct (TestData.resultValue t) as [v|]; [|split_and!; [done|done|done]].
  pose proof (truthy_number_true v) as Hv.
  pose proof (Test_lt_true v (TestData.referenceRange t ≫= ReferenceRange.min)) as Hlt.
  pose proof (Test_gt_true v (TestData.referenceRange t ≫= ReferenceRange.max)) as Hgt.
  destruct (JS.truthy_number v).
  - cbn [Test.status Test.category]. split; [done|]. split.
    + intros [[=]|(v' & [= <-] & H0)]. exfalso. by apply Hv.
    + intros v' [= <-] _. split_and!.
      * intros Hlo%Hlt. by rewrite Hlo.
      * intros Hlo Hhi%Hgt. rewrite Hhi.
        destruct (Test.lt v _); [|done].
        destruct (proj1 Hlt eq_refl) as (b & Hb & Hvb). apply Hlo in Hb.
        by apply Qlt_not_le in Hvb.
      * intros Hlo Hhi.
        destruct (Test.lt v _).
        { destruct (proj1 Hlt eq_refl) as (b & Hb & Hvb). apply Hlo in Hb.
          by apply Qlt_not_le in Hvb. }
        destruct (Test.gt v _); [|done].
        destruct (proj1 Hgt eq_refl) as (b & Hb & Hvb). apply Hhi in Hb.
        by apply Qlt_not_le in Hvb.
  - cbn [Test.status Test.category Test.init testDocument]. split; [done|].
    split; [done|]. intros v' [= <-] Hne. exfalso.
    assert (false = true) as Hf; [|done]. by apply Hv.
Qed.

Lemma Meal_stored_fields env u date id m r :
  mealResult env u date id m = Schema.Saved r ->
  Meal.time r = Some (default "morning" (MealData.time m)) ∧
  Meal.notes r = Some "Parsed from journal entry" ∧
  Forall (λ item, FoodItem.category item = Some "snack") (Meal.foodItems r).
Proof.
  intros Hr. unfold mealResult in Hr.
  destruct (MealData.items m) as [items|]; [|done].
  apply Meal_create_saved in Hr as ->. unfold Meal.preSave. simpl.
  destruct items as [|item items]; simpl.
  - split_and!; [done|done|constructor].
  - split_and!; [done|done|]. constructor; [done|].
    rewrite map_map. by apply Forall_map, Forall_forall.
Qed.

(** X7. The medicines a submission adds are those of the decoded structure,
    in order, up to the first that is refused.  The decoded medicine at
    position [i] is stored, as the record at position [i] of those added,
    exactly when every decoded meal is acceptable and so is every decoded
    medicine up to this one: a medicine is acceptable when its name and its
    dosage show something once trimmed and its time is one of morning,
    noon, evening and night.  The record has the trimmed name and dosage,
    that time, frequency "daily", category "other", [isActive] true,
    [isFromJournal] true and the entry's id. *)
Theorem medicine_stored_iff env req raw pd w i m :
  hasText req = true ->
  axios_post env (systemPrompt env (text req)) = Return raw ->
  JSON_parse env raw = Some pd ->
  default [] (ParsedData.medicines pd) !! i = Some m ->
  ∃ added,
    medicines (db (snd (parseJournalEntry env req w))) = medicines (db w) ++ added ∧
    (is_Some (added !! i) ↔
     Forall acceptableMeal (default [] (ParsedData.meals pd)) ∧
     Forall acceptableMedicine (take (S i) (default [] (ParsedData.medicines pd)))) ∧
    (∀ r, added !! i = Some r ->
       Medicine.name r = JS.trim <$> MedicineData.name m ∧
       Medicine.dosage r = JS.trim <$> MedicineData.dosage m ∧
       Medicine.time r = MedicineData.time m ∧
       Medicine.frequency r = Some "daily" ∧
       Medicine.isActive r = Some true ∧
       Medicine.category r = Some "other" ∧
       Medicine.isFromJournal r = true ∧
       Medicine.journalEntryId r = Some (nextId w)).
Proof.
  intros H Hax Hjs Hm.
  destruct (parse_decoded_world env req raw pd w H Hax Hjs)
    as (resp & w' & obs & Hrun & _ & Hdb & _).
  cbv zeta in Hdb. rewrite Hrun. cbn [snd]. eexists. split; [exact Hdb|].
  unfold fanned. cbn [new_medicines].
  pose proof (meals_accepted_iff env (user_id req) (body_date req) (nextId w) pd)
    as Hmeals.
  destruct (accepted_position
              (λ m, Medicine.create
                      (medicineDocument env (user_id req) (body_date req) (nextId w) m))
              acceptableMedicine _ i m
              (Medicine_accepts env (user_id req) (body_date req) (nextId w)) Hm)
    as [Hpos Hrec].
  destruct (rejection (mealResults _ _ _ _ _)) as [e|]; cbn [unless].
  - split; [|intros r Hr; by rewrite lookup_nil in Hr].
    split; [intros [r Hr]; by rewrite lookup_nil in Hr|].
    intros [Hall _]. by apply Hmeals in Hall.
  - unfold medicineResults. split.
    + rewrite Hpos. split; [intros ?; split; [by apply Hmeals|done]|by intros [_ ?]].
    + intros r Hr%Hrec. by apply Medicine_stored_fields in Hr.
Qed.

(** Witness for X7: the check-up, whose medicine has spaces around its
    name. *)
Lemma medicine_stored_iff_witness :
  ∃ added r,
    medicines (db (snd (parseJournalEntry Cases.clinic
                          (Scenario.submit Cases.checkupText) blank))) = added ∧
    added !! 0 = Some r ∧
    Medicine.name r = Some "Paracetamol".
Proof.
  destruct (medicine_stored_iff Cases.clinic (Scenario.submit Cases.checkupText)
              Cases.checkupJSON Cases.checkup blank 0 Cases.paracetamol
              eq_refl eq_refl eq_refl eq_refl) as (added & Hdb & Hiff & Hfields).
  destruct (proj2 Hiff) as [r Hr].
  { split.
    - apply Forall_cons_2; [apply chai_acceptable|apply Forall_nil_2].
    - apply Forall_cons_2; [apply paracetamol_acceptable|apply Forall_nil_2]. }
  exists added, r. split; [exact Hdb|]. split; [exact Hr|].
  exact (proj1 (Hfields r Hr)).
Defined.

(** X8. The tests a submission adds are those of the decoded structure, in
    order, up to the first that is refused.  The decoded test at position
    [i] is stored, as the record at position [i] of those added, exactly
    when every decoded meal and medicine and the body-stats object are
    acceptable and so is every decoded test up to this one: a test is
    acceptable when its name and its result show something once trimmed.
    The record is in category "blood" and has the status the save hook
    computes: "normal" when the numeric value is missing or 0; otherwise
    "low" when the value is below the minimum of the reference range,
    "high" when it is not and is above the maximum, "normal" when it is
    neither (a bound that is missing is never crossed). *)
Theorem test_stored_iff env req raw pd w i t :
  hasText req = true ->
  axios_post env (systemPrompt env (text req)) = Return raw ->
  JSON_parse env raw = Some pd ->
  default [] (ParsedData.tests pd) !! i = Some t ->
  let lo := TestData.referenceRange t ≫= ReferenceRange.min in
  let hi := TestData.referenceRange t ≫= ReferenceRange.max in
  ∃ added,
    tests (db (snd (parseJournalEntry env req w))) = tests (db w) ++ added ∧
    (is_Some (added !! i) ↔
     Forall acceptableMeal (default [] (ParsedData.meals pd)) ∧
     Forall acceptableMedicine (default [] (ParsedData.medicines pd)) ∧
     (∀ s, ParsedData.bodyStats pd = Some s -> acceptableBodyStats s) ∧
     Forall acceptableTest (take (S i) (default [] (ParsedData.tests pd)))) ∧
    (∀ r, added !! i = Some r ->
       Test.category r = Some "blood" ∧
       ((TestData.resultValue t = None ∨
         ∃ v, TestData.resultValue t = Some v ∧ (v == 0)%Q) ->
        Test.status r = Some "normal") ∧
       (∀ v, TestData.resultValue t = Some v -> ¬ (v == 0)%Q ->
          ((∃ b, lo = Some b ∧ (v < b)%Q) -> Test.status r = Some "low") ∧
          ((∀ b, lo = Some b -> (b <= v)%Q) -> (∃ b, hi = Some b ∧ (b < v)%Q) ->
           Test.status r = Some "high") ∧
          ((∀ b, lo = Some b -> (b <= v)%Q) -> (∀ b, hi = Some b -> (v <= b)%Q) ->
           Test.status r = Some "normal"))).
Proof.
  intros H Hax Hjs Ht. cbv zeta.
  destruct (parse_decoded_world env req raw pd w H Hax Hjs)
    as (resp & w' & obs & Hrun & _ & _ & _ & Hdb & _).
  cbv zeta in Hdb. rewrite Hrun. cbn [snd]. eexists. split; [exact Hdb|].
  unfold fanned. cbn [new_tests].
  pose proof (meals_accepted_iff env (user_id req) (body_date req) (nextId w) pd)
    as Hmeals.
  pose proof (medicines_accepted_iff env (user_id req) (body_date req) (nextId w) pd)
    as Hmeds.
  pose proof (bodyStats_accepted_iff env (user_id req) (body_date req) (nextId w) pd)
    as Hstats.
  destruct (accepted_position
              (λ t, Test.create
                      (testDocument env (user_id req) (body_date req) (nextId w) t))
              acceptableTest _ i t
              (Test_accepts env (user_id req) (body_date req) (nextId w)) Ht)
    as [Hpos Hrec].
  destruct (rejection (mealResults _ _ _ _ _)) as [e|]; cbn [first_error unless].
  { split; [|intros r Hr; by rewrite lookup_nil in Hr].
    split; [intros [r Hr]; by rewrite lookup_nil in Hr|].
    intros (Hall & _). by apply Hmeals in Hall. }
  destruct (rejection (medicineResults _ _ _ _ _)) as [e|]; cbn [first_error unless].
  { split; [|intros r Hr; by rewrite lookup_nil in Hr].
    split; [intros [r Hr]; by rewrite lookup_nil in Hr|].
    intros (_ & Hall & _). by apply Hmeds in Hall. }
  destruct (rejection (bodyStatResults _ _ _ _ _)) as [e|]; cbn [first_error unless].
  { split; [|intros r Hr; by rewrite lookup_nil in Hr].
    split; [intros [r Hr]; by rewrite lookup_nil in Hr|].
    intros (_ & _ & Hall & _). by apply Hstats in Hall. }
  unfold testResults. split.
  - rewrite Hpos. split.
    + intros ?. split; [by apply Hmeals|]. split; [by apply Hmeds|].
      split; [by apply Hstats|done].
    + by intros (_ & _ & _ & ?).
  - intros r Hr%Hrec. by apply Test_stored_status in Hr.
Qed.

(** Witness for X8: the check-up, with a haemoglobin of 11.5 against a
    range of 12 to 16. *)
Lemma test_stored_iff_witness :
  ∃ added r,
    tests (db (snd (parseJournalEntry Cases.clinic
                      (Scenario.submit Cases.checkupText) blank))) = added ∧
    added !! 0 = Some r ∧
    Test.status r = Some "low".
Proof.
  destruct (test_stored_iff Cases.clinic (Scenario.submit Cases.checkupText)
              Cases.checkupJSON Cases.checkup blank 0 Cases.haemoglobin
              eq_refl eq_refl eq_refl eq_refl) as (added & Hdb & Hiff & Hfields).
  destruct (proj2 Hiff) as [r Hr].
  { split_and!.
    - apply Forall_cons_2; [apply chai_acceptable|apply Forall_nil_2].
    - apply Forall_cons_2; [apply paracetamol_acceptable|apply Forall_nil_2].
    - intros s [= <-]. apply water_acceptable.
    - apply Forall_cons_2; [apply haemoglobin_acceptable|apply Forall_nil_2]. }
  exists added, r. split; [exact Hdb|]. split; [exact Hr|].
  destruct (Hfields r Hr) as (_ & _ & Hst).
  destruct (Hst (23 # 2) eq_refl) as [Hlow _]; [discriminate|].
  apply Hlow. exists 12%Q. split; [reflexivity|reflexivity].
Defined.

(** X9. A submission whose answer holds a body-stats object adds at most one
    BodyStat record, the one [BodyStat.create] stores for the handler's
    document, and it adds it exactly when every decoded meal and medicine
    is acceptable and every value the handler copies is within the schema's
    bounds: a weight from 20 to 500 (a weight of 0 is not copied), a water
    intake from 0 to 50, sleep hours from 0 to 24, steps that are not
    negative, a mood and an energy among the listed words (an empty string
    is not copied). *)
Theorem bodyStat_stored_iff env req raw pd w s :
  hasText req = true ->
  axios_post env (systemPrompt env (text req)) = Return raw ->
  JSON_parse env raw = Some pd ->
  ParsedData.bodyStats pd = Some s ->
  ∃ added,
    bodyStats (db (snd (parseJournalEntry env req w))) = bodyStats (db w) ++ added ∧
    (added = [] ∨
     ∃ r, added = [r] ∧
          BodyStat.create
            (bodyStatDocument env (user_id req) (body_date req) (nextId w) s)
          = Schema.Saved r) ∧
    (added ≠ [] ↔
     Forall acceptableMeal (default [] (ParsedData.meals pd)) ∧
     Forall acceptableMedicine (default [] (ParsedData.medicines pd)) ∧
     (∀ q, BodyStatsData.weightKg s = Some q ->
        (q == 0)%Q ∨ (20 <= q)%Q ∧ (q <= 500)%Q) ∧
     (∀ q, BodyStatsData.waterIntakeLiters s = Some q ->
        (0 <= q)%Q ∧ (q <= 50)%Q) ∧
     (∀ q, BodyStatsData.sleepHours s = Some q -> (0 <= q)%Q ∧ (q <= 24)%Q) ∧
     (∀ q, BodyStatsData.steps s = Some q -> (0 <= q)%Q) ∧
     (∀ m, BodyStatsData.mood s = Some m -> m = "" ∨ m ∈ Schema.moods) ∧
     (∀ e, BodyStatsData.energy s = Some e -> e = "" ∨ e ∈ Schema.energies)).
Proof.
  intros H Hax Hjs Hs.
  destruct (parse_decoded_world env req raw pd w H Hax Hjs)
    as (resp & w' & obs & Hrun & _ & _ & Hdb & _).
  cbv zeta in Hdb. rewrite Hrun. cbn [snd]. eexists. split; [exact Hdb|].
  unfold fanned. cbn [new_bodyStats].
  pose proof (meals_accepted_iff env (user_id req) (body_date req) (nextId w) pd)
    as Hmeals.
  pose proof (medicines_accepted_iff env (user_id req) (body_date req) (nextId w) pd)
    as Hmeds.
  pose proof (BodyStat_accepts env (user_id req) (body_date req) (nextId w) s)
    as Hacc.
  change (acceptableBodyStats s) with
    ((∀ q, BodyStatsData.weightKg s = Some q ->
        (q == 0)%Q ∨ (20 <= q)%Q ∧ (q <= 500)%Q) ∧
     (∀ q, BodyStatsData.waterIntakeLiters s = Some q ->
        (0 <= q)%Q ∧ (q <= 50)%Q) ∧
     (∀ q, BodyStatsData.sleepHours s = Some q -> (0 <= q)%Q ∧ (q <= 24)%Q) ∧
     (∀ q, BodyStatsData.steps s = Some q -> (0 <= q)%Q) ∧
     (∀ m, BodyStatsData.mood s = Some m -> m = "" ∨ m ∈ Schema.moods) ∧
     (∀ e, BodyStatsData.energy s = Some e -> e = "" ∨ e ∈ Schema.energies))
    in Hacc.
  destruct (rejection (mealResults _ _ _ _ _)) as [e|]; cbn [first_error unless].
  { split; [by left|]. split; [done|]. intros (Hall & _). by apply Hmeals in Hall. }
  destruct (rejection (medicineResults _ _ _ _ _)) as [e|]; cbn [first_error unless].
  { split; [by left|]. split; [done|]. intros (_ & Hall & _). by apply Hmeds in Hall. }
  unfold bodyStatResults. rewrite Hs. cbn [accepted].
  destruct (BodyStat.create _) as [r|e] eqn:Hr.
  - split; [right; by exists r|]. split; [|done].
    intros _. split; [by apply Hmeals|]. split; [by apply Hmeds|].
    apply Hacc. by exists r.
  - split; [by left|]. split; [done|]. intros (_ & _ & Hb).
    destruct (proj2 Hacc Hb) as [r [=]].
Qed.

(** Witness for X9: the check-up, with two litres of water. *)
Lemma bodyStat_stored_iff_witness :
  ∃ r,
    bodyStats (db (snd (parseJournalEntry Cases.clinic
                          (Scenario.submit Cases.checkupText) blank))) = [r] ∧
    BodyStat.create (bodyStatDocument Cases.clinic 7 None (nextId blank)
                       (Scenario.water 2)) = Schema.Saved r.
Proof.
  destruct (bodyStat_stored_iff Cases.clinic (Scenario.submit Cases.checkupText)
              Cases.checkupJSON Cases.checkup blank (Scenario.water 2)
              eq_refl eq_refl eq_refl eq_refl)
    as (added & Hdb & [Hnil|(r & Hr & Hcreate)] & Hiff).
  - exfalso. apply (proj2 Hiff); [|exact Hnil].
    split; [apply Forall_cons_2; [apply chai_acceptable|apply Forall_nil_2]|].
    split; [apply Forall_cons_2; [apply paracetamol_acceptable|apply Forall_nil_2]|].
    apply water_acceptable.
  - exists r. split; [|exact Hcreate]. rewrite <- Hr. exact Hdb.
Defined.

(** X10. The meals a submission adds are those of the decoded structure, in
    order, up to the first that is refused.  The decoded meal at position
    [i] is stored, as the record at position [i] of those added, exactly
    when every decoded meal up to this one is acceptable: it has a list of
    items, its time is missing or one of the four times of day, every item
    name shows something once trimmed and, unless the list is empty, the
    quantity (or "1 serving") shows something once trimmed and the calories
    (or 0) are not negative.  The record has that time, "morning" when it
    is missing, the notes "Parsed from journal entry", and every food item
    in category "snack". *)
Theorem meal_stored_iff env req raw pd w i m :
  hasText req = true ->
  axios_post env (systemPrompt env (text req)) = Return raw ->
  JSON_parse env raw = Some pd ->
  default [] (ParsedData.meals pd) !! i = Some m ->
  ∃ added,
    meals (db (snd (parseJournalEntry env req w))) = meals (db w) ++ added ∧
    (is_Some (added !! i) ↔
     Forall
       (λ m, ∃ items,
          MealData.items m = Some items ∧
          (∀ t, MealData.time m = Some t -> t ∈ Schema.times) ∧
          Forall (λ item, JS.trim item ≠ "") items ∧
          (items = [] ∨
           JS.trim (JS.or_string (MealData.quantity m) "1 serving") ≠ "" ∧
           (0 <= JS.or_number (MealData.calories m) 0)%Q))
       (take (S i) (default [] (ParsedData.meals pd)))) ∧
    (∀ r, added !! i = Some r ->
       Meal.time r = Some (default "morning" (MealData.time m)) ∧
       Meal.notes r = Some "Parsed from journal entry" ∧
       Forall (λ item, FoodItem.category item = Some "snack") (Meal.foodItems r)).
Proof.
  intros H Hax Hjs Hm.
  destruct (parse_decoded_world env req raw pd w H Hax Hjs)
    as (resp & w' & obs & Hrun & Hdb & _).
  cbv zeta in Hdb. rewrite Hrun. cbn [snd]. eexists. split; [exact Hdb|].
  unfold fanned, mealResults. cbn [new_meals].
  destruct (accepted_position
              (mealResult env (user_id req) (body_date req) (nextId w))
              acceptableMeal _ i m
              (Meal_accepts env (user_id req) (body_date req) (nextId w)) Hm)
    as [Hpos Hrec].
  split; [exact Hpos|].
  intros r Hr%Hrec. by apply Meal_stored_fields in Hr.
Qed.

(** Witness for X10: the check-up, whose meal has no time of day. *)
Lemma meal_stored_iff_witness :
  ∃ added r,
    meals (db (snd (parseJournalEntry Cases.clinic
                      (Scenario.submit Cases.checkupText) blank))) = added ∧
    added !! 0 = Some r ∧
    Meal.time r = Some "morning".
Proof.
  destruct (meal_stored_iff Cases.clinic (Scenario.submit Cases.checkupText)
              Cases.checkupJSON Cases.checkup blank 0 Cases.chai
              eq_refl eq_refl eq_refl eq_refl) as (added & Hdb & Hiff & Hfields).
  destruct (proj2 Hiff) as [r Hr].
  { apply Forall_cons_2; [apply chai_acceptable|apply Forall_nil_2]. }
  exists added, r. split; [exact Hdb|]. split; [exact Hr|].
  exact (proj1 (Hfields r Hr)).
Defined.

(** X11. A submission whose answer decodes leaves the entry completed or
    failed, and completed exactly when every decoded meal, medicine and
    test and the body-stats object are acceptable to their schemas. *)
Theorem completes_iff_acceptable env req raw pd w :
  hasText req = true ->
  axios_post env (systemPrompt env (text req)) = Return raw ->
  JSON_parse env raw = Some pd ->
  let status :=
    Journal.processingStatus <$>
      entry (db (snd (parseJournalEntry env req w))) (nextId w) in
  (status = Some Journal.completed ∨ status = Some Journal.failed) ∧
  (status = Some Journal.completed ↔
   Forall acceptableMeal (default [] (ParsedData.meals pd)) ∧
   Forall acceptableMedicine (default [] (ParsedData.medicines pd)) ∧
   (∀ s, ParsedData.bodyStats pd = Some s -> acceptableBodyStats s) ∧
   Forall acceptableTest (default [] (ParsedData.tests pd))).
Proof.
  intros H Hax Hjs. cbv zeta.
  destruct (parse_outcome env req w H) as (w' & -> & Hj). simpl.
  unfold entry. rewrite Hj, lookup_insert_eq. simpl.
  rewrite <- (fanOutError_None_iff env (user_id req) (body_date req) (nextId w) pd).
  unfold outcome. rewrite Hax, Hjs. simpl.
  destruct (fanOutError _ _ _ _ _) as [e|]; simpl.
  - split; [by right|]. by split.
  - split; [by left|]. by split.
Qed.

(** Witness for X11: the pill scenario, whose medicine has no dosage. *)
Lemma completes_iff_acceptable_witness :
  Journal.processingStatus <$>
    entry (db (snd (parseJournalEntry (Scenario.answering Scenario.pillJSON)
                      (Scenario.submit Scenario.pillText) blank))) (nextId blank)
  = Some Journal.failed.
Proof.
  destruct (completes_iff_acceptable (Scenario.answering Scenario.pillJSON)
              (Scenario.submit Scenario.pillText) Scenario.pillJSON Scenario.pill
              blank eq_refl eq_refl eq_refl) as [[Hc|Hf] Hiff].
  - apply Hiff in Hc as (_ & Hmed & _). exfalso.
    inversion Hmed as [|? ? (_ & (s & Hs & _) & _) _]. discriminate Hs.
  - exact Hf.
Defined.

(** ** Owner and date of the derived records *)

Lemma Meal_preSave_owner d :
  Meal.userId (Meal.preSave d) = Meal.userId d ∧
  Meal.date (Meal.preSave d) = Meal.date d.
Proof. destruct d as [? ? ? items ? ? ? ?]. unfold Meal.preSave. simpl. by destruct items. Qed.

Lemma Test_preSave_owner d :
  Test.userId (Test.preSave d) = Test.userId d ∧
  Test.date (Test.preSave d) = Test.date d.
Proof.
  unfold Test.preSave. destruct (Test.resultValue d) as [v|]; [|done].
  by destruct (JS.truthy_number v).
Qed.

Lemma fanned_owner env u date id pd :
  let F := fanned env u date id pd in
  let d := JS.or_object date (new_Date env) in
  Forall (λ r, Meal.userId r = u ∧ Meal.date r = d) (new_meals F) ∧
  Forall (λ r, Medicine.userId r = u ∧ Medicine.startDate r = d) (new_medicines F) ∧
  Forall (λ r, BodyStat.userId r = u ∧ BodyStat.date r = d) (new_bodyStats F) ∧
  Forall (λ r, Test.userId r = u ∧ Test.date r = d) (new_tests F).
Proof.
  unfold fanned. simpl. split_and!.
  - apply Forall_accepted. intros m r Hr. unfold mealResult in Hr.
    destruct (MealData.items m) as [items|]; [|done].
    apply Meal_create_saved in Hr as ->.
    by destruct (Meal_preSave_owner (Meal.init (mealDocument env u date id m items)))
      as [-> ->].
  - apply Forall_unless, Forall_accepted. by intros m r ->%Medicine_create_saved.
  - apply Forall_unless. unfold bodyStatResults.
    destruct (ParsedData.bodyStats pd) as [stats|]; [|constructor]. simpl.
    destruct (BodyStat.create _) as [r|] eqn:Hr; [|constructor].
    apply BodyStat_create_saved in Hr as [-> _]. by repeat constructor.
  - apply Forall_unless, Forall_accepted. intros t r ->%Test_create_saved.
    by destruct (Test_preSave_owner (Test.init (testDocument env u date id t)))
      as [-> ->].
Qed.

Lemma outcome_identity env req id :
  Journal.date (snd (outcome env req id)) = Journal.date (newEntry env req).
Proof.
  unfold outcome. destruct (axios_post env _); [|done].
  destruct (JSON_parse env _); [|done]. simpl.
  by destruct (fanOutError _ _ _ _ _).
Qed.

(** X12. The collections of meals, medicines, body stats and tests grow by
    exactly the records of the fan-out.  The entry and every such record
    carry the id of the submitting user and, when the request gives a date,
    that date (as [startDate] for a medicine). *)
Theorem records_carry_owner_and_date env req raw pd w :
  hasText req = true ->
  axios_post env (systemPrompt env (text req)) = Return raw ->
  JSON_parse env raw = Some pd ->
  let w' := snd (parseJournalEntry env req w) in
  let F := fanned env (user_id req) (body_date req) (nextId w) pd in
  meals (db w') = meals (db w) ++ new_meals F ∧
  medicines (db w') = medicines (db w) ++ new_medicines F ∧
  bodyStats (db w') = bodyStats (db w) ++ new_bodyStats F ∧
  tests (db w') = tests (db w) ++ new_tests F ∧
  Journal.userId <$> entry (db w') (nextId w) = Some (user_id req) ∧
  Forall (λ r, Meal.userId r = user_id req) (new_meals F) ∧
  Forall (λ r, Medicine.userId r = user_id req) (new_medicines F) ∧
  Forall (λ r, BodyStat.userId r = user_id req) (new_bodyStats F) ∧
  Forall (λ r, Test.userId r = user_id req) (new_tests F) ∧
  (∀ d, body_date req = Some d ->
     Journal.date <$> entry (db w') (nextId w) = Some d ∧
     Forall (λ r, Meal.date r = d) (new_meals F) ∧
     Forall (λ r, Medicine.startDate r = d) (new_medicines F) ∧
     Forall (λ r, BodyStat.date r = d) (new_bodyStats F) ∧
     Forall (λ r, Test.date r = d) (new_tests F)).
Proof.
  intros H Hax Hjs. cbv zeta.
  destruct (parse_decoded_world env req raw pd w H Hax Hjs)
    as (resp & w' & obs & Hrun & Hm & Hmed & Hb & Ht & _).
  cbv zeta in *.
  destruct (parse_outcome env req w H) as (w'' & Hrun' & Hj).
  rewrite Hrun in Hrun'. injection Hrun' as _ <-. rewrite Hrun. simpl.
  destruct (outcome_entry env req (nextId w)) as (Hu & _).
  destruct (fanned_owner env (user_id req) (body_date req) (nextId w) pd)
    as (F1 & F2 & F3 & F4).
  split_and!; try done.
  - unfold entry. rewrite Hj, lookup_insert_eq. simpl. by rewrite Hu.
  - eapply Forall_impl; [exact F1|]. by intros r [? _].
  - eapply Forall_impl; [exact F2|]. by intros r [? _].
  - eapply Forall_impl; [exact F3|]. by intros r [? _].
  - eapply Forall_impl; [exact F4|]. by intros r [? _].
  - intros d Hd. split_and!.
    + unfold entry. rewrite Hj, lookup_insert_eq. simpl. f_equal.
      rewrite outcome_identity.
      destruct (newEntry_fields env req) as (_ & _ & -> & _). by rewrite Hd.
    + eapply Forall_impl; [exact F1|]. intros r [_ ->]. by rewrite Hd.
    + eapply Forall_impl; [exact F2|]. intros r [_ ->]. by rewrite Hd.
    + eapply Forall_impl; [exact F3|]. intros r [_ ->]. by rewrite Hd.
    + eapply Forall_impl; [exact F4|]. intros r [_ ->]. by rewrite Hd.
Qed.

(** Witness for X12: the lunch scenario, submitted by user 7. *)
Lemma records_carry_owner_and_date_witness :
  Forall (λ r, Meal.userId r = 7)
    (new_meals (fanned (Scenario.answering Scenario.lunchJSON) 7 None (nextId blank)
                  Scenario.lunch)).
Proof.
  destruct (records_carry_owner_and_date (Scenario.answering Scenario.lunchJSON)
              (Scenario.submit Scenario.lunchText) Scenario.lunchJSON
              Scenario.lunch blank eq_refl eq_refl eq_refl)
    as (_ & _ & _ & _ & _ & Hmeals & _).
  exact Hmeals.
Defined.

(** ** Tags *)

Lemma append_String x (a b : string) : String x a +:+ b = String x (a +:+ b).
Proof. reflexivity. Qed.

Lemma append_assoc' (a b c : string) : (a +:+ b) +:+ c = a +:+ (b +:+ c).
Proof. induction a as [|x a IH]; [done|]. by rewrite !append_String, IH. Qed.

Lemma prefix_app sub s :
  String.prefix sub s = true <-> ∃ b, s = sub +:+ b.
Proof.
  revert s. induction sub as [|x sub IH]; intros [|y s]; simpl.
  - split; [|done]. intros _. exists "". reflexivity.
  - split; [|done]. intros _. exists (String y s). reflexivity.
  - split; [done|]. intros [b Hb]. rewrite append_String in Hb. done.
  - destruct (ascii_dec x y) as [->|Hne].
    + rewrite IH. split; intros [b Hb]; exists b.
      * by rewrite append_String, Hb.
      * rewrite append_String in Hb. by injection Hb.
    + split; [done|]. intros [b Hb]. rewrite append_String in Hb.
      injection Hb as ? _. done.
Qed.

Lemma includes_nil sub :
  Journal.includes "" sub = String.prefix sub "" || false.
Proof. reflexivity. Qed.

Lemma includes_String x s sub :
  Journal.includes (String x s) sub =
  String.prefix sub (String x s) || Journal.includes s sub.
Proof. reflexivity. Qed.

Lemma includes_app s sub :
  Journal.includes s sub = true <-> ∃ a b, s = a +:+ sub +:+ b.
Proof.
  induction s as [|x s IH].
  - rewrite includes_nil, orb_false_r, prefix_app. split.
    + intros [b Hb]. exists "", b. exact Hb.
    + intros (a & b & Hs). destruct a as [|? ?]; [exists b; exact Hs|].
      by rewrite append_String in Hs.
  - rewrite includes_String, orb_true_iff, prefix_app, IH. split.
    + intros [[b Hb]|(a & b & Hs)]; [exists "", b; exact Hb|].
      exists (String x a), b. by rewrite append_String, Hs.
    + intros (a & b & Hs). destruct a as [|y a]; [left; exists b; exact Hs|right].
      rewrite append_String in Hs. injection Hs as _ Hs. by exists a, b.
Qed.

Lemma includes_inner s pre sub post :
  Journal.includes s (pre +:+ sub +:+ post) = true ->
  Journal.includes s sub = true.
Proof.
  rewrite !includes_app. intros (a & b & ->). exists (a +:+ pre), (post +:+ b).
  by rewrite !append_assoc'.
Qed.

Lemma assign_tags u j : Journal.tags (Journal.assign u j) = Journal.tags j.
Proof. done. Qed.

Lemma outcome_tags env req id :
  Journal.tags (snd (outcome env req id)) = Journal.tags (newEntry env req).
Proof.
  unfold outcome. destruct (axios_post env _); [|done].
  destruct (JSON_parse env _); [|done]. simpl.
  by destruct (fanOutError _ _ _ _ _).
Qed.

Lemma tag_elem text label words t :
  t ∈ Journal.tag text label words <->
  t = label ∧ ∃ word, word ∈ words ∧ Journal.includes text word = true.
Proof.
  unfold Journal.tag. destruct (existsb (Journal.includes text) words) eqn:E.
  - apply existsb_exists in E as (word & Hin%list_elem_of_In & Hw).
    rewrite list_elem_of_singleton. split; [intros ->; split; [done|by exists word]|by intros [? _]].
  - split; [by intros ?%elem_of_nil|]. intros (_ & word & Hin & Hw).
    assert (existsb (Journal.includes text) words = true) as E'; [|congruence].
    apply existsb_exists. exists word. split; [by apply list_elem_of_In|done].
Qed.

Lemma newEntry_tags env req :
  hasText req = true ->
  let lower := Journal.toLowerCase (text req) in
  Journal.tags (newEntry env req) =
  remove_dups
    (Journal.tag lower "food"
       ["ate"; "food"; "meal"; "breakfast"; "lunch"; "dinner"] ++
     Journal.tag lower "medicine"
       ["medicine"; "pill"; "tablet"; "medication"; "prescription"] ++
     Journal.tag lower "hydration"
       ["water"; "drank"; "hydration"; "glass"; "litre"; "liter"] ++
     Journal.tag lower "exercise" ["exercise"; "workout"; "walk"; "run"; "gym"] ++
     Journal.tag lower "health" ["pain"; "fever"; "sick"; "test"; "doctor"]).
Proof.
  intros H. cbv zeta. unfold newEntry, Journal.preSave.
  cbn [Journal.rawText Journal.new]. rewrite text_trimmed.
  pose proof (hasText_text _ H) as Hne%truthy_string_true. rewrite Hne. done.
Qed.

Lemma elem_of_keywords (P : string -> list string -> Prop) :
  (∃ label words, (label, words) ∈ keywords ∧ P label words) <->
  P "food" ["ate"; "food"; "meal"; "breakfast"; "lunch"; "dinner"] ∨
  P "medicine" ["medicine"; "pill"; "tablet"; "medication"; "prescription"] ∨
  P "hydration" ["water"; "drank"; "hydration"; "glass"; "litre"; "liter"] ∨
  P "exercise" ["exercise"; "workout"; "walk"; "run"; "gym"] ∨
  P "health" ["pain"; "fever"; "sick"; "test"; "doctor"].
Proof.
  unfold keywords. split.
  - intros (label & words & Hin & HP).
    repeat (apply elem_of_cons in Hin as [[= -> ->]|Hin]; [tauto|]).
    by apply elem_of_nil in Hin.
  - intros [H|[H|[H|[H|H]]]]; eexists _, _; (split; [|exact H]);
      repeat first [apply list_elem_of_here | apply list_elem_of_further].
Qed.

(** X13. The tags of a stored submission have no duplicates, and a tag is
    among them exactly when one of its keywords occurs in the trimmed text
    in lower case. *)
Theorem tags_of_submission env req w :
  hasText req = true ->
  ∃ j,
    entry (db (snd (parseJournalEntry env req w))) (nextId w) = Some j ∧
    NoDup (Journal.tags j) ∧
    (∀ t, t ∈ Journal.tags j ↔
       ∃ words word,
         (t, words) ∈ keywords ∧ word ∈ words ∧
         Journal.includes (Journal.toLowerCase (text req)) word = true).
Proof.
  intros H. destruct (parse_outcome env req w H) as (w' & -> & Hj). simpl.
  exists (snd (outcome env req (nextId w))). split.
  { unfold entry. rewrite Hj. apply lookup_insert_eq. }
  rewrite outcome_tags, (newEntry_tags _ _ H). split; [apply NoDup_remove_dups|].
  intros t. rewrite elem_of_remove_dups, !elem_of_app, !tag_elem.
  pose proof (elem_of_keywords
    (λ label words, t = label ∧ ∃ word, word ∈ words ∧
       Journal.includes (Journal.toLowerCase (text req)) word = true)) as Hk.
  simpl in Hk. rewrite <- Hk. split.
  - intros (label & words & Hin & -> & word & Hw & Hi). by exists words, word.
  - intros (words & word & Hin & Hw & Hi). exists t, words. split; [done|].
    split; [done|]. by exists word.
Qed.

(** Witness for X13: the walk text while the service cannot be reached. *)
Lemma tags_of_submission_witness :
  ∃ j,
    entry (db (snd (parseJournalEntry Scenario.unreachable
                      (Scenario.submit Scenario.walkText) blank))) (nextId blank)
      = Some j ∧
    NoDup (Journal.tags j).
Proof.
  destruct (tags_of_submission Scenario.unreachable
              (Scenario.submit Scenario.walkText) blank eq_refl)
    as (j & Hj & Hnd & _).
  exists j. split; [exact Hj|exact Hnd].
Defined.

Lemma newEntry_tags_known env req :
  hasText req = true ->
  NoDup (Journal.tags (newEntry env req)) ∧
  ∀ t, t ∈ Journal.tags (newEntry env req) -> ∃ words, (t, words) ∈ keywords.
Proof.
  intros H. rewrite (newEntry_tags _ _ H). split; [apply NoDup_remove_dups|].
  intros t. rewrite elem_of_remove_dups, !elem_of_app, !tag_elem.
  pose proof (elem_of_keywords
    (λ label words, t = label ∧ ∃ word, word ∈ words ∧
       Journal.includes (Journal.toLowerCase (text req)) word = true)) as Hk.
  simpl in Hk. rewrite <- Hk.
  intros (label & words & Hin & -> & _). by exists words.
Qed.

(** X14. The keywords are matched as substrings: a text that mentions
    "water" is tagged "food" as well as "hydration", since "water" contains
    "ate". *)
Theorem water_is_tagged_food env req w :
  hasText req = true ->
  Journal.includes (Journal.toLowerCase (text req)) "water" = true ->
  ∃ j,
    entry (db (snd (parseJournalEntry env req w))) (nextId w) = Some j ∧
    "hydration" ∈ Journal.tags j ∧
    "food" ∈ Journal.tags j.
Proof.
  intros H Hwater. destruct (parse_outcome env req w H) as (w' & -> & Hj). simpl.
  exists (snd (outcome env req (nextId w))). split.
  { unfold entry. rewrite Hj. apply lookup_insert_eq. }
  rewrite outcome_tags, (newEntry_tags _ _ H).
  rewrite !elem_of_remove_dups, !elem_of_app, !tag_elem. split.
  - right. right. left. split; [done|]. exists "water". split; [|done].
    apply list_elem_of_here.
  - left. split; [done|]. exists "ate". split; [apply list_elem_of_here|].
    apply (includes_inner _ "w" "ate" "r"). exact Hwater.
Qed.

(** Witness for X14: a text that mentions no food. *)
Lemma water_is_tagged_food_witness :
  ∃ j,
    entry (db (snd (parseJournalEntry Scenario.unreachable
                      (Scenario.submit "Two glasses of WATER") blank)))
      (nextId blank) = Some j ∧
    "hydration" ∈ Journal.tags j ∧
    "food" ∈ Journal.tags j.
Proof.
  apply (water_is_tagged_food Scenario.unreachable
           (Scenario.submit "Two glasses of WATER") blank); reflexivity.
Defined.

(** ** Reading and deleting single entries *)

Lemma findOneAndDelete_none id userId w :
  ¬ (∃ j, entry (db w) id = Some j ∧ Journal.userId j = userId) ->
  Journal_findOneAndDelete id userId w = (Return None, w).
Proof.
  unfold Journal_findOneAndDelete, entry. intros H.
  destruct (journals (db w) !! id) as [j|] eqn:Hj; [|done].
  destruct (Nat.eqb_spec (Journal.userId j) userId) as [Heq|]; [|done].
  exfalso. apply H. by exists j.
Qed.

Lemma findOneAndDelete_owned id userId w j :
  entry (db w) id = Some j -> Journal.userId j = userId ->
  Journal_findOneAndDelete id userId w =
  (Return (Some j), {| db := with_journals (delete id) (db w); log := log w |}).
Proof.
  unfold Journal_findOneAndDelete, entry. intros -> <-. by rewrite Nat.eqb_refl.
Qed.

(** X15. An entry is hidden from every user but its owner: [getJournal],
    [deleteJournal], [getProcessingStatus] and [retryProcessing] by another
    user are answered "not found" (404 for the first two) and change
    nothing. *)
Theorem entries_hidden_from_others env w id j v :
  entry (db w) id = Some j ->
  v ≠ Journal.userId j ->
  getJournal {| params_id := id; entry_user_id := v |} w
    = (Return EntryNotFound, w) ∧
  deleteJournal {| params_id := id; entry_user_id := v |} w
    = (Return EntryNotFound, w) ∧
  getProcessingStatus {| params_journalId := id; requester_id := v |} w
    = (Return JournalNotFound, w) ∧
  retryProcessing env {| params_journalId := id; requester_id := v |} w
    = (Return JournalNotFound, w) ∧
  entry_status_code EntryNotFound = 404.
Proof.
  intros Hj Hv.
  assert (¬ (∃ j', entry (db w) id = Some j' ∧ Journal.userId j' = v)) as Hno.
  { intros (j' & Hj' & Hu). rewrite Hj in Hj'. injection Hj' as <-. done. }
  split_and!.
  - unfold getJournal. run. cbn [params_id entry_user_id params_journalId requester_id].
    by rewrite (findOne_none _ _ _ Hno).
  - unfold deleteJournal. run. cbn [params_id entry_user_id params_journalId requester_id].
    by rewrite (findOneAndDelete_none _ _ _ Hno).
  - unfold getProcessingStatus. run. cbn [params_id entry_user_id params_journalId requester_id].
    by rewrite (findOne_none _ _ _ Hno).
  - by apply retry_not_found.
  - done.
Qed.

(** Witness for X15: user 8 asks for the lunch entry of user 7. *)
Lemma entries_hidden_from_others_witness :
  getJournal {| params_id := 0; entry_user_id := 8 |} Scenario.afterLunch
    = (Return EntryNotFound, Scenario.afterLunch) ∧
  deleteJournal {| params_id := 0; entry_user_id := 8 |} Scenario.afterLunch
    = (Return EntryNotFound, Scenario.afterLunch).
Proof.
  assert (∃ j, entry (db Scenario.afterLunch) 0 = Some j ∧ Journal.userId j = 7)
    as (j & Hj & Hu).
  { eexists. split; [vm_compute; reflexivity|reflexivity]. }
  assert (8 ≠ Journal.userId j) as Hne by (rewrite Hu; discriminate).
  destruct (entries_hidden_from_others Scenario.unreachable Scenario.afterLunch 0 j 8
              Hj Hne) as (Hget & Hdel & _).
  split; [exact Hget|exact Hdel].
Defined.

(** X16. [deleteJournal] by the owner is answered "deleted" and removes
    that entry and no other.  [getJournal] returned the entry before;
    afterwards [getJournal], [deleteJournal], [getProcessingStatus] and
    [retryProcessing] on the id are answered "not found" and change
    nothing. *)
Theorem delete_removes_the_entry env w id j :
  entry (db w) id = Some j ->
  let req := {| params_id := id; entry_user_id := Journal.userId j |} in
  let w' := snd (deleteJournal req w) in
  fst (deleteJournal req w) = Return EntryDeleted ∧
  entry (db w') id = None ∧
  (∀ k, k ≠ id -> entry (db w') k = entry (db w) k) ∧
  getJournal req w = (Return (EntryFound j), w) ∧
  getJournal req w' = (Return EntryNotFound, w') ∧
  deleteJournal req w' = (Return EntryNotFound, w') ∧
  getProcessingStatus
      {| params_journalId := id; requester_id := Journal.userId j |} w'
    = (Return JournalNotFound, w') ∧
  retryProcessing env
      {| params_journalId := id; requester_id := Journal.userId j |} w'
    = (Return JournalNotFound, w').
Proof.
  intros Hj. cbv zeta.
  assert (deleteJournal {| params_id := id; entry_user_id := Journal.userId j |} w
          = (Return EntryDeleted,
             {| db := with_journals (delete id) (db w); log := log w |})) as Hdel.
  { unfold deleteJournal. run. cbn [params_id entry_user_id].
    by rewrite (findOneAndDelete_owned _ _ _ _ Hj eq_refl). }
  rewrite Hdel. simpl.
  set (w' := {| db := with_journals (delete id) (db w); log := log w |}).
  assert (entry (db w') id = None) as Hgone.
  { unfold entry, w'. simpl. apply lookup_delete_eq. }
  assert (∀ u, ¬ (∃ j', entry (db w') id = Some j' ∧ Journal.userId j' = u)) as Hno.
  { intros u (j' & Hj' & _). congruence. }
  split_and!; try done.
  - intros k Hk. unfold entry, w'. simpl. by apply lookup_delete_ne.
  - unfold getJournal. run. cbn [params_id entry_user_id params_journalId requester_id].
    by rewrite (findOne_owned _ _ _ _ Hj eq_refl).
  - unfold getJournal. run. cbn [params_id entry_user_id params_journalId requester_id].
    by rewrite (findOne_none _ _ _ (Hno _)).
  - unfold deleteJournal. run. cbn [params_id entry_user_id].
    by rewrite (findOneAndDelete_none _ _ _ (Hno _)).
  - unfold getProcessingStatus. run. cbn [params_id entry_user_id params_journalId requester_id].
    by rewrite (findOne_none _ _ _ (Hno _)).
  - apply retry_not_found, Hno.
Qed.

(** Witness for X16: the lunch entry. *)
Lemma delete_removes_the_entry_witness :
  ∃ j,
    entry (db Scenario.afterLunch) 0 = Some j ∧
    fst (deleteJournal {| params_id := 0; entry_user_id := Journal.userId j |}
           Scenario.afterLunch) = Return EntryDeleted.
Proof.
  assert (∃ j, entry (db Scenario.afterLunch) 0 = Some j) as (j & Hj).
  { eexists. vm_compute. reflexivity. }
  exists j. split; [exact Hj|].
  exact (proj1 (delete_removes_the_entry Scenario.unreachable Scenario.afterLunch
                  0 j Hj)).
Defined.

(** X17. [deleteJournal] does not cascade: once a submission is parsed and
    its entry deleted, the meals, medicines, body stats and tests created
    from it are still stored, each with the id of the deleted entry as
    [journalEntryId]. *)
Theorem delete_leaves_derived_records env req raw pd w :
  hasText req = true ->
  axios_post env (systemPrompt env (text req)) = Return raw ->
  JSON_parse env raw = Some pd ->
  let id := nextId w in
  let F := fanned env (user_id req) (body_date req) id pd in
  let w1 := snd (parseJournalEntry env req w) in
  let w2 := snd (deleteJournal {| params_id := id; entry_user_id := user_id req |} w1) in
  is_Some (entry (db w1) id) ∧
  entry (db w2) id = None ∧
  meals (db w2) = meals (db w) ++ new_meals F ∧
  medicines (db w2) = medicines (db w) ++ new_medicines F ∧
  bodyStats (db w2) = bodyStats (db w) ++ new_bodyStats F ∧
  tests (db w2) = tests (db w) ++ new_tests F ∧
  Forall (λ r, Meal.journalEntryId r = Some id) (new_meals F) ∧
  Forall (λ r, Medicine.journalEntryId r = Some id) (new_medicines F) ∧
  Forall (λ r, BodyStat.journalEntryId r = Some id) (new_bodyStats F) ∧
  Forall (λ r, Test.journalEntryId r = Some id) (new_tests F).
Proof.
  intros H Hax Hjs. cbv zeta.
  destruct (parse_decoded_world env req raw pd w H Hax Hjs)
    as (resp & w1 & obs & Hrun & Hm & Hmed & Hb & Ht & _).
  cbv zeta in *.
  destruct (parse_outcome env req w H) as (w'' & Hrun' & Hj).
  rewrite Hrun in Hrun'. injection Hrun' as _ <-. rewrite Hrun. simpl.
  destruct (outcome_entry env req (nextId w)) as (Hu & _).
  assert (entry (db w1) (nextId w) = Some (snd (outcome env req (nextId w)))) as He.
  { unfold entry. rewrite Hj. apply lookup_insert_eq. }
  assert (deleteJournal {| params_id := nextId w; entry_user_id := user_id req |} w1
          = (Return EntryDeleted,
             {| db := with_journals (delete (nextId w)) (db w1); log := log w1 |}))
    as Hdel.
  { unfold deleteJournal. run. cbn [params_id entry_user_id].
    by rewrite (findOneAndDelete_owned _ _ _ _ He Hu). }
  rewrite Hdel. simpl.
  destruct (fanned_flags env (user_id req) (body_date req) (nextId w) pd)
    as (F1 & F2 & F3 & F4).
  split_and!; try done.
  - unfold entry. simpl. apply lookup_delete_eq.
  - eapply Forall_impl; [exact F1|]. by intros r [_ ?].
  - eapply Forall_impl; [exact F2|]. by intros r [_ ?].
  - eapply Forall_impl; [exact F3|]. by intros r [_ ?].
  - eapply Forall_impl; [exact F4|]. by intros r [_ ?].
Qed.

(** Witness for X17: the lunch scenario. *)
Lemma delete_leaves_derived_records_witness :
  let w1 :=
    snd (parseJournalEntry (Scenario.answering Scenario.lunchJSON)
           (Scenario.submit Scenario.lunchText) blank) in
  let w2 := snd (deleteJournal {| params_id := nextId blank; entry_user_id := 7 |} w1) in
  entry (db w2) (nextId blank) = None ∧
  meals (db w2) =
    meals (db blank) ++
    new_meals (fanned (Scenario.answering Scenario.lunchJSON) 7 None (nextId blank)
                 Scenario.lunch).
Proof.
  destruct (delete_leaves_derived_records (Scenario.answering Scenario.lunchJSON)
              (Scenario.submit Scenario.lunchText) Scenario.lunchJSON
              Scenario.lunch blank eq_refl eq_refl eq_refl)
    as (_ & Hgone & Hmeals & _).
  split; [exact Hgone|exact Hmeals].
Defined.

(** ** Word count *)

(** ** Word count *)

Lemma split_ws_nonempty s : split_ws s ≠ [].
Proof.
  induction s as [|c s IH]; simpl; [done|].
  destruct (JS.isWhiteSpace c).
  - destruct s as [|c' s]; [done|]. by destruct (JS.isWhiteSpace c').
  - by destruct (split_ws s).
Qed.

Lemma words_from_blank_head b c s :
  JS.isWhiteSpace c = true ->
  words_from b (String c s) = words_from false (String c s).
Proof. intros Hc. simpl. by rewrite Hc. Qed.

Lemma split_ws_pieces s :
  length (split_ws s) = 1 + words_from true s + (if ends_ws s then 1 else 0).
Proof.
  induction s as [|c s IH]; [done|].
  cbn [split_ws words_from ends_ws].
  destruct (JS.isWhiteSpace c) eqn:Hc.
  - destruct s as [|c' s]; [done|].
    destruct (JS.isWhiteSpace c') eqn:Hc'.
    + rewrite IH. by rewrite (words_from_blank_head true c' s Hc').
    + cbn [length]. rewrite IH. cbn [words_from]. rewrite Hc'. lia.
  - pose proof (split_ws_nonempty s) as Hne.
    destruct (split_ws s) as [|piece pieces] eqn:Hs; [done|].
    cbn [length] in *. rewrite IH. destruct s as [|c' s]; [|done].
    simpl. lia.
Qed.

Lemma words_from_trimStart s : count_words (JS.trimStart s) = count_words s.
Proof.
  unfold count_words. induction s as [|c s IH]; [done|]. simpl.
  destruct (JS.isWhiteSpace c) eqn:Hc; [done|]. simpl. by rewrite Hc.
Qed.

Lemma words_from_trimEnd b s : words_from b (JS.trimEnd s) = words_from b s.
Proof.
  revert b. induction s as [|c s IH]; intros b; [done|].
  cbn [JS.trimEnd]. destruct (JS.trimEnd s) as [|a t] eqn:Hs.
  - cbn [words_from]. destruct (JS.isWhiteSpace c) eqn:Hc.
    + by rewrite <- IH.
    + cbn [words_from]. rewrite Hc. by rewrite <- IH.
  - cbn [words_from]. destruct (JS.isWhiteSpace c); by rewrite <- IH.
Qed.

Lemma ends_ws_trimEnd s : ends_ws (JS.trimEnd s) = false.
Proof.
  induction s as [|c s IH]; [done|].
  cbn [JS.trimEnd]. destruct (JS.trimEnd s) as [|a t] eqn:Hs.
  - destruct (JS.isWhiteSpace c) eqn:Hc; [done|]. simpl. exact Hc.
  - exact IH.
Qed.

Lemma count_words_trim s : count_words (JS.trim s) = count_words s.
Proof.
  unfold JS.trim, count_words. rewrite words_from_trimEnd. apply words_from_trimStart.
Qed.

Lemma split_ws_trim s :
  length (split_ws (JS.trim s)) = Nat.max 1 (count_words s).
Proof.
  rewrite <- count_words_trim.
  pose proof (ends_ws_trimEnd (JS.trimStart s)) as Hend.
  unfold JS.trim in *.
  destruct (trimStart_head s) as [E|(c & t & E & Hc)]; rewrite E in *; [done|].
  destruct (trimEnd_head c t Hc) as [t' Ht']. rewrite Ht' in *.
  rewrite split_ws_pieces, Hend. unfold count_words. cbn [words_from].
  rewrite Hc. lia.
Qed.

Lemma wordCount_eq j :
  wordCount j =
  if decide (Journal.rawText j = "") then 0
  else Nat.max 1 (count_words (Journal.rawText j)).
Proof.
  unfold wordCount. pose proof (truthy_string_true (Journal.rawText j)) as Ht.
  destruct (JS.truthy_string (Journal.rawText j)).
  - rewrite decide_False by by apply Ht. apply split_ws_trim.
  - rewrite decide_True; [done|].
    destruct (decide (Journal.rawText j = "")) as [|Hne]; [done|].
    by apply Ht in Hne.
Qed.

(** X18. [wordCount] is 0 for an empty text and otherwise the number of
    maximal runs of characters that are not white space, but at least 1: a
    text of white space only counts one word.  [readingTime] is the least
    number [m] of minutes with [wordCount <= 200 * m]; it is 0 only for an
    empty text. *)
Theorem wordCount_counts_words j :
  wordCount j =
    (if decide (Journal.rawText j = "") then 0
     else Nat.max 1 (count_words (Journal.rawText j))) ∧
  (readingTime j = 0 ↔ Journal.rawText j = "") ∧
  wordCount j ≤ 200 * readingTime j ∧
  200 * readingTime j < wordCount j + 200.
Proof.
  pose proof (wordCount_eq j) as Hw.
  split; [exact Hw|]. unfold readingTime.
  pose proof (Nat.div_mod_eq (wordCount j + 199) 200) as Hdiv.
  pose proof (Nat.mod_upper_bound (wordCount j + 199) 200) as Hmod.
  split_and!; [|lia|lia].
  destruct (decide (Journal.rawText j = "")) as [He|Hne].
  - split; [done|]. intros _. by rewrite Hw.
  - split; [|done]. intros H0. exfalso.
    assert (1 ≤ wordCount j) as Hpos by (rewrite Hw; lia). lia.
Qed.

(** ** Statistics *)

Lemma fold_left_add {A} (f : A -> nat) l acc :
  fold_left (λ sum x, sum + f x) l acc = acc + fold_left (λ sum x, sum + f x) l 0.
Proof.
  revert acc. induction l as [|x l IH]; intros acc; simpl; [lia|].
  rewrite IH, (IH (f x)). lia.
Qed.

(** X19. The figures of [getJournalStats]: the counts of pending,
    processing, completed and failed entries add up to the number of
    entries, and [totalWords] is at least the number of entries whose text
    is not empty. *)
Theorem stats_account_for_every_entry journals :
  let stats := processingStats journals in
  stat_pending stats + stat_processing stats + stat_completed stats
    + stat_failed stats = length journals ∧
  length (filter (λ j, Journal.rawText j ≠ "") journals) ≤ totalWords journals.
Proof.
  cbv zeta. split.
  - unfold processingStats. simpl.
    induction journals as [|j journals IH]; [done|].
    rewrite !filter_cons. simpl length.
    destruct (Journal.processingStatus j);
      repeat (case_decide; try done); simpl; lia.
  - unfold totalWords. induction journals as [|j journals IH]; [done|].
    rewrite filter_cons. simpl fold_left. rewrite fold_left_add.
    pose proof (wordCount_eq j) as Hw.
    destruct (decide (Journal.rawText j ≠ "")) as [Hne|He]; simpl length; [|lia].
    rewrite decide_False in Hw by done. lia.
Qed.

(** *** Counting with an object *)

Lemma get_increment k k' o :
  get k' (increment k o) = get k' o + (if decide (k = k') then 1 else 0).
Proof.
  induction o as [|[k0 n] o IH]; simpl.
  - destruct (String.eqb_spec k k'); case_decide; try done; lia.
  - destruct (String.eqb_spec k0 k) as [->|Hne]; simpl.
    + destruct (String.eqb_spec k k'); case_decide; try done; lia.
    + destruct (String.eqb_spec k0 k') as [->|Hne']; [|exact IH].
      rewrite decide_False by done. lia.
Qed.

Lemma keys_increment k k' o :
  k' ∈ map fst (increment k o) <-> k' = k ∨ k' ∈ map fst o.
Proof.
  induction o as [|[k0 n] o IH]; simpl.
  - rewrite list_elem_of_singleton. split; [by left|]. intros [?|?%elem_of_nil]; done.
  - destruct (String.eqb_spec k0 k) as [->|Hne]; simpl.
    + rewrite !elem_of_cons. tauto.
    + rewrite !elem_of_cons, IH. tauto.
Qed.

Lemma NoDup_increment k o : NoDup (map fst o) -> NoDup (map fst (increment k o)).
Proof.
  induction o as [|[k0 n] o IH]; simpl; intros Hnd.
  - apply NoDup_singleton.
  - apply NoDup_cons in Hnd as [Hk0 Hnd].
    destruct (String.eqb_spec k0 k) as [->|Hne]; simpl.
    + by apply NoDup_cons.
    + apply NoDup_cons. split; [|by apply IH].
      rewrite keys_increment. intros [?|?]; done.
Qed.

Lemma get_elem k n o : NoDup (map fst o) -> (k, n) ∈ o -> get k o = n.
Proof.
  induction o as [|[k0 m] o IH]; simpl; intros Hnd Hin; [by apply elem_of_nil in Hin|].
  apply NoDup_cons in Hnd as [Hk0 Hnd].
  apply elem_of_cons in Hin as [[= -> ->]|Hin].
  - by rewrite String.eqb_refl.
  - destruct (String.eqb_spec k0 k) as [->|Hne]; [|by apply IH].
    exfalso. apply Hk0. apply list_elem_of_fmap. by exists (k, n).
Qed.

Lemma get_zero k o : k ∉ map fst o -> get k o = 0.
Proof.
  induction o as [|[k0 m] o IH]; simpl; intros Hk; [done|].
  apply not_elem_of_cons in Hk as [Hne Hk].
  destruct (String.eqb_spec k0 k) as [->|_]; [done|]. by apply IH.
Qed.

Section Tally.
Implicit Types (keys : list string) (o : list (string * nat)).

Lemma get_tally k keys o : get k (tally keys o) = get k o + occurrences k keys.
Proof.
  unfold tally, occurrences. revert o.
  induction keys as [|x keys IH]; intros o; simpl; [lia|].
  rewrite IH, get_increment, filter_cons.
  destruct (decide (x = k)); simpl; lia.
Qed.

Lemma keys_tally k keys o :
  k ∈ map fst (tally keys o) <-> k ∈ keys ∨ k ∈ map fst o.
Proof.
  unfold tally. revert o. induction keys as [|x keys IH]; intros o; simpl.
  - split; [by right|]. intros [?%elem_of_nil|?]; done.
  - rewrite IH, keys_increment, elem_of_cons. tauto.
Qed.

Lemma NoDup_tally keys o : NoDup (map fst o) -> NoDup (map fst (tally keys o)).
Proof.
  unfold tally. revert o. induction keys as [|x keys IH]; intros o Hnd; simpl; [done|].
  by apply IH, NoDup_increment.
Qed.
End Tally.

Lemma tagStats_tally journals :
  tagStats journals = tally (concat (map Journal.tags journals)) [].
Proof.
  unfold tagStats, tally. generalize (@nil (string * nat)).
  induction journals as [|j journals IH]; intros o; simpl; [done|].
  by rewrite IH, fold_left_app.
Qed.

Lemma occurrences_concat t (journals : list Journal.t) :
  Forall (λ j, NoDup (Journal.tags j)) journals ->
  occurrences t (concat (map Journal.tags journals)) =
  length (filter (λ j, t ∈ Journal.tags j) journals).
Proof.
  unfold occurrences. induction 1 as [|j journals Hnd _ IH]; [done|].
  simpl. rewrite filter_app, length_app, IH, filter_cons.
  assert (length (filter (λ x, x = t) (Journal.tags j)) =
          if decide (t ∈ Journal.tags j) then 1 else 0) as ->.
  { clear IH. induction (Journal.tags j) as [|x l IHl]; [done|].
    apply NoDup_cons in Hnd as [Hx Hnd]. rewrite filter_cons.
    destruct (decide (x = t)) as [->|Hne]; simpl.
    - rewrite decide_True by left. rewrite IHl by done.
      by rewrite decide_False.
    - rewrite IHl by done. destruct (decide (t ∈ l)).
      + rewrite decide_True; [done|by right].
      + rewrite decide_False; [done|]. intros [?|?]%elem_of_cons; done. }
  destruct (decide (t ∈ Journal.tags j)); simpl; lia.
Qed.

(** *** Sorting by count *)

Lemma insert_desc_Permutation x l : insert_desc x l ≡ₚ x :: l.
Proof.
  induction l as [|y l IH]; simpl; [done|].
  destruct (snd y <=? snd x); [done|]. rewrite IH. apply Permutation_swap.
Qed.

Lemma sort_desc_Permutation l : sort_desc l ≡ₚ l.
Proof.
  induction l as [|x l IH]; simpl; [done|].
  by rewrite insert_desc_Permutation, IH.
Qed.

Lemma insert_desc_sorted x l :
  StronglySorted (λ a b, snd b ≤ snd a) l ->
  StronglySorted (λ a b, snd b ≤ snd a) (insert_desc x l).
Proof.
  induction 1 as [|y l Hs IH Hy]; simpl.
  - repeat constructor.
  - destruct (Nat.leb_spec (snd y) (snd x)).
    + constructor; [by constructor|]. constructor; [done|].
      eapply Forall_impl; [exact Hy|]. simpl. lia.
    + constructor; [done|].
      rewrite insert_desc_Permutation. constructor; [lia|done].
Qed.

Lemma sort_desc_sorted l : StronglySorted (λ a b, snd b ≤ snd a) (sort_desc l).
Proof.
  induction l as [|x l IH]; simpl; [constructor|]. by apply insert_desc_sorted.
Qed.

Lemma StronglySorted_take {A} (R : A -> A -> Prop) n l :
  StronglySorted R l -> StronglySorted R (take n l).
Proof.
  intros Hs. revert n. induction Hs as [|x l Hs IH Hx]; intros [|n]; simpl;
    try constructor.
  - apply IH.
  - by apply Forall_take.
Qed.

Lemma elem_of_concat_map {A B} (f : A -> list B) l y :
  y ∈ concat (map f l) <-> ∃ x, x ∈ l ∧ y ∈ f x.
Proof.
  induction l as [|x l IH]; simpl.
  - split; [by intros ?%elem_of_nil|]. by intros (x & ?%elem_of_nil & _).
  - rewrite elem_of_app, IH. split.
    + intros [Hy|(x' & Hx' & Hy)]; [exists x; split; [left|done]|].
      exists x'. split; [by right|done].
    + intros (x' & [->|Hx']%elem_of_cons & Hy); [by left|right]. by exists x'.
Qed.

Lemma tagStats_spec journals :
  Forall (λ j, NoDup (Journal.tags j)) journals ->
  NoDup (map fst (tagStats journals)) ∧
  (∀ t, t ∈ map fst (tagStats journals) <->
        ∃ j, j ∈ journals ∧ t ∈ Journal.tags j) ∧
  (∀ t c, (t, c) ∈ tagStats journals ->
     c = length (filter (λ j, t ∈ Journal.tags j) journals)).
Proof.
  intros Hnd. rewrite tagStats_tally.
  assert (NoDup (map fst (tally (concat (map Journal.tags journals)) []))) as Hk.
  { apply NoDup_tally. constructor. }
  split; [exact Hk|]. split.
  - intros t. rewrite keys_tally, elem_of_concat_map. simpl.
    split; [intros [?|?%elem_of_nil]; done|by left].
  - intros t c Hin. rewrite <- (get_elem _ _ _ Hk Hin), get_tally. simpl.
    by apply occurrences_concat.
Qed.

(** X20. [topTags], cut at 5 or more, over entries tagged as the save hook
    tags them (no duplicates, tags among the five labels): each tag is
    listed once, with the number of entries that carry it, which is at
    least 1; the list is sorted by decreasing count; and no tag of any entry
    is cut off. *)
Theorem topTags_lists_every_tag n journals :
  5 ≤ n ->
  Forall (λ j, NoDup (Journal.tags j) ∧
               ∀ t, t ∈ Journal.tags j -> ∃ words, (t, words) ∈ keywords)
    journals ->
  let top := topTags n journals in
  NoDup (map fst top) ∧
  StronglySorted (λ a b, snd b ≤ snd a) top ∧
  (∀ t c, (t, c) ∈ top ->
     1 ≤ c ∧ c = length (filter (λ j, t ∈ Journal.tags j) journals)) ∧
  (∀ j t, j ∈ journals -> t ∈ Journal.tags j -> t ∈ map fst top).
Proof.
  intros Hn Hwf. cbv zeta.
  assert (Forall (λ j, NoDup (Journal.tags j)) journals) as Hnd.
  { eapply Forall_impl; [exact Hwf|]. by intros j [? _]. }
  destruct (tagStats_spec journals Hnd) as (Hk & Hkeys & Hcount).
  assert (length (tagStats journals) ≤ 5) as Hlen.
  { rewrite <- (length_map fst).
    change 5 with (length (map fst keywords)).
    apply submseteq_length, NoDup_submseteq; [done|].
    intros t (j & Hj & Ht)%Hkeys.
    rewrite Forall_forall in Hwf. destruct (Hwf j Hj) as [_ Hlab].
    destruct (Hlab t Ht) as [words Hw].
    apply list_elem_of_fmap. by exists (t, words). }
  unfold topTags. rewrite take_ge by (rewrite sort_desc_Permutation; lia).
  split_and!.
  - by rewrite sort_desc_Permutation.
  - apply sort_desc_sorted.
  - intros t c Hin. rewrite sort_desc_Permutation in Hin.
    split; [|by apply Hcount].
    rewrite (Hcount t c Hin).
    assert (t ∈ map fst (tagStats journals)) as (j & Hj & Ht)%Hkeys.
    { apply list_elem_of_fmap. by exists (t, c). }
    assert (j ∈ filter (λ j, t ∈ Journal.tags j) journals) as Hf.
    { by apply list_elem_of_filter. }
    destruct (filter _ journals); [by apply elem_of_nil in Hf|simpl; lia].
  - intros j t Hj Ht. rewrite sort_desc_Permutation. apply Hkeys. by exists j.
Qed.

(** Witness for X20: the entries of the lunch and the walk texts. *)
Lemma topTags_lists_every_tag_witness :
  NoDup (map fst (topTags 10 [Cases.lunchEntry; Cases.walkEntry])).
Proof.
  pose proof (topTags_lists_every_tag 10 [Cases.lunchEntry; Cases.walkEntry]) as H.
  cbv zeta in H. apply H.
  - lia.
  - unfold Cases.lunchEntry, Cases.walkEntry.
    repeat (apply Forall_cons_2; [apply newEntry_tags_known; reflexivity|]).
    apply Forall_nil_2.
Defined.

(** ** Pages *)

Lemma ceil_div_spec a b :
  0 < b -> a ≤ ceil_div a b * b ∧ ceil_div a b * b < a + b.
Proof.
  intros Hb. unfold ceil_div.
  pose proof (Nat.div_mod_eq (a + (b - 1)) b) as Hdiv.
  pose proof (Nat.mod_upper_bound (a + (b - 1)) b) as Hmod.
  rewrite (Nat.mul_comm _ b). lia.
Qed.

Lemma page_in_range a b p :
  0 < b -> 0 < p -> (p - 1) * b < a <-> p ≤ ceil_div a b.
Proof.
  intros Hb Hp. destruct (ceil_div_spec a b Hb) as [Hup Hlow]. split.
  - intros Hlt. destruct (decide (p ≤ ceil_div a b)) as [|Hgt]; [done|].
    pose proof (Nat.mul_le_mono_r (ceil_div a b) (p - 1) b). lia.
  - intros Hle.
    pose proof (Nat.mul_le_mono_r (S (p - 1)) (ceil_div a b) b) as Hmul.
    simpl in Hmul. lia.
Qed.

Lemma chunks {A} (l : nat) (all : list A) T :
  0 < l -> length all ≤ T * l ->
  concat (map (λ k, take l (drop (k * l) all)) (seq 0 T)) = all.
Proof.
  intros Hl. revert all. induction T as [|T IH]; intros all Hlen.
  - simpl in *. destruct all; [done|simpl in Hlen; lia].
  - cbn [seq map concat]. rewrite <- seq_shift, map_map.
    transitivity (take l all ++ drop l all); [|apply take_drop].
    f_equal.
    rewrite <- (IH (drop l all)) by (rewrite length_drop; lia).
    f_equal. apply map_ext. intros k. by rewrite drop_drop.
Qed.

Lemma take_drop_nonempty {A} (l s : nat) (all : list A) :
  0 < l -> take l (drop s all) ≠ [] <-> s < length all.
Proof.
  intros Hl. split.
  - intros Hne. destruct (decide (s < length all)) as [|Hge]; [done|].
    exfalso. apply Hne. rewrite drop_ge by lia. by destruct l.
  - intros Hs Hnil. apply (f_equal length) in Hnil.
    rewrite length_take, length_drop in Hnil. simpl in Hnil. lia.
Qed.

Lemma buildQuery_with_page p req : buildQuery (with_page p req) = buildQuery req.
Proof. done. Qed.

(** X21. The pages of [getJournals]: page [p] lists the entries of the
    selection from position [(p - 1) * limit] on, at most [limit] of them,
    and changes nothing; it is not empty exactly when [p] is at most
    [total], the number of entries divided by [limit] and rounded up;
    [hasNext] holds exactly when page [p + 1] is not empty and [hasPrev]
    exactly when [p] is more than 1; and the pages 1 to [total] one after
    the other are the whole selection, in order. *)
Theorem pages_partition_the_result find req w :
  let limit := Pos.to_nat (default 10%positive (query_limit req)) in
  let all := find (buildQuery req) (db w) in
  let pages := ceil_div (length all) limit in
  (∀ p,
     let r := getJournals find (with_page p req) w in
     snd r = w ∧
     listed r = take limit (drop ((Pos.to_nat p - 1) * limit) all) ∧
     length (listed r) = Nat.min limit (length all - (Pos.to_nat p - 1) * limit) ∧
     (listed r ≠ [] ↔ Pos.to_nat p ≤ pages) ∧
     ∃ pg,
       pagination_of r = Some pg ∧
       current pg = p ∧
       total pg = pages ∧
       (hasNext pg = true ↔
        listed (getJournals find (with_page (p + 1) req) w) ≠ []) ∧
       (hasPrev pg = true ↔ (1 < p)%positive)) ∧
  concat (map (λ k, listed (getJournals find (with_page (Pos.of_nat k) req) w))
            (seq 1 pages)) = all.
Proof.
  cbv zeta.
  set (limit := Pos.to_nat (default 10%positive (query_limit req))).
  set (all := find (buildQuery req) (db w)).
  assert (0 < limit) as Hl by (unfold limit; lia).
  destruct (ceil_div_spec (length all) limit Hl) as [Hup Hlow].
  assert (∀ p, listed (getJournals find (with_page p req) w)
               = take limit (drop ((Pos.to_nat p - 1) * limit) all)) as Hpage.
  { done. }
  split.
  - intros p. rewrite !Hpage. split_and!.
    + done.
    + done.
    + rewrite length_take, length_drop. done.
    + rewrite take_drop_nonempty by done. apply page_in_range; lia.
    + eexists. split; [done|]. cbn [current total hasNext hasPrev]. split_and!.
      * done.
      * done.
      * rewrite take_drop_nonempty by done. rewrite Nat.ltb_lt.
        replace (Pos.to_nat (p + 1) - 1) with (Pos.to_nat p) by lia. done.
      * cbn [with_page query_page default from_option id]. rewrite Nat.ltb_lt. lia.
  - rewrite <- (chunks limit all (ceil_div (length all) limit) Hl Hup) at 2.
    rewrite <- seq_shift, map_map. f_equal. apply map_ext. intros k.
    rewrite Hpage. rewrite Nat2Pos.id by done. do 3 f_equal. lia.
Qed.

(** ** The meal summaries *)

Lemma or_number_nonneg q : (0 <= q)%Q -> (0 <= JS.or_number (Some q) 0)%Q.
Proof. intros Hq. by rewrite or_number_default. Qed.

Lemma Meal_create_stored doc r :
  Meal.create doc = Schema.Saved r ->
  (∃ t, Meal.time r = Some t ∧ t ∈ Schema.times) ∧
  ∃ q, Meal.totalCalories r = Some q ∧ (0 <= q)%Q ∧
       (Meal.foodItems r ≠ [] -> q = itemTotal r).
Proof.
  intros Hc.
  assert (Meal.validate (Meal.init doc) = []) as Hv.
  { apply Meal_create_iff. by exists r. }
  unfold Meal.create in Hc. cbv zeta in Hc. rewrite Hv in Hc.
  injection Hc as <-.
  unfold Meal.validate, Schema.Errors in Hv.
  rewrite !app_nil_iff, !check_nil, first_None in Hv.
  destruct Hv as ((_ & Htime) & Hitems & Htotal & _).
  rewrite enum_None in Htime. rewrite min_None in Htotal.
  rewrite (concat_imap_nil _
             (λ d, FoodItem.name d ≠ "" ∧ FoodItem.quantity d ≠ "" ∧
                   (∀ c, FoodItem.calories d = Some c -> (0 <= c)%Q) ∧
                   (∀ s, FoodItem.category d = Some s ->
                      s ∈ ["breakfast"; "lunch"; "dinner"; "snack"; "beverage"])))
    in Hitems by (intros; apply FoodItem_validate_nil).
  unfold itemTotal, Meal.preSave.
  destruct (Meal.foodItems (Meal.init doc)) as [|item items] eqn:E.
  - split; [eexists; split; [reflexivity|by apply Htime]|].
    eexists. split; [reflexivity|]. split; [by apply Htotal|]. by rewrite E.
  - cbn [Meal.time Meal.totalCalories Meal.foodItems].
    split; [eexists; split; [reflexivity|by apply Htime]|].
    eexists. split; [reflexivity|]. split; [|done].
    apply total_nonneg. eapply Forall_impl; [exact Hitems|].
    by intros d (_ & _ & Hd & _).
Qed.

Lemma mealsAt_cons time r meals :
  mealsAt time (r :: meals) =
  if decide (Meal.time r = Some time) then r :: mealsAt time meals
  else mealsAt time meals.
Proof. unfold mealsAt. by rewrite filter_cons. Qed.

Lemma mealsAt_partition meals :
  Forall (λ r, ∃ t, Meal.time r = Some t ∧ t ∈ Schema.times) meals ->
  mealsAt "morning" meals ++ mealsAt "noon" meals ++ mealsAt "evening" meals ++
  mealsAt "night" meals ≡ₚ meals.
Proof.
  induction 1 as [|r meals (t & Ht & Hin) _ IH]; [done|].
  rewrite !mealsAt_cons, Ht.
  unfold Schema.times in Hin.
  apply elem_of_cons in Hin as [->|Hin].
  { repeat case_decide; try congruence.
    rewrite <- app_comm_cons. by constructor. }
  apply elem_of_cons in Hin as [->|Hin].
  { repeat case_decide; try congruence.
    rewrite <- app_comm_cons, <- Permutation_middle. by constructor. }
  apply elem_of_cons in Hin as [->|Hin].
  { repeat case_decide; try congruence.
    rewrite <- app_comm_cons, (app_assoc (mealsAt "morning" meals)),
      <- Permutation_middle, <- app_assoc.
    by constructor. }
  apply elem_of_cons in Hin as [->|Hin].
  { repeat case_decide; try congruence.
    rewrite !app_assoc, <- Permutation_middle, <- !app_assoc. by constructor. }
  by apply elem_of_nil in Hin.
Qed.

(** X22. Every meal stored by [Meal.create] has one of the four times of
    day, so that the four groups of [getDailySummary] hold each stored meal
    once, none twice and none left out, and the four counts of
    [getMealStats] add up to the number of meals. *)
Theorem stored_meals_fall_in_one_group meals :
  Forall (λ r, ∃ doc, Meal.create doc = Schema.Saved r) meals ->
  let groups := mealsByTime meals in
  let counts := timeDistribution meals in
  Forall (λ r, ∃ t, Meal.time r = Some t ∧ t ∈ Schema.times) meals ∧
  morning_meals groups ++ noon_meals groups ++ evening_meals groups ++
    night_meals groups ≡ₚ meals ∧
  morning_count counts + noon_count counts + evening_count counts +
    night_count counts = length meals.
Proof.
  intros H. cbv zeta.
  assert (Forall (λ r, ∃ t, Meal.time r = Some t ∧ t ∈ Schema.times) meals) as Ht.
  { eapply Forall_impl; [exact H|]. intros r [doc Hdoc].
    by destruct (Meal_create_stored doc r Hdoc) as [? _]. }
  pose proof (mealsAt_partition meals Ht) as Hp.
  split; [done|]. split; [done|]. simpl.
  rewrite <- Hp at 5. rewrite !length_app. lia.
Qed.

(** Witness for X22: a meal at noon and one without a time of day. *)
Lemma stored_meals_fall_in_one_group_witness :
  morning_count (timeDistribution Plates.stored)
  + noon_count (timeDistribution Plates.stored)
  + evening_count (timeDistribution Plates.stored)
  + night_count (timeDistribution Plates.stored) = 2.
Proof.
  refine (proj2 (proj2 (stored_meals_fall_in_one_group Plates.stored _))).
  unfold Plates.stored.
  apply Forall_cons_2; [by exists Plates.dal|].
  apply Forall_cons_2; [by exists Plates.tea|].
  apply Forall_nil_2.
Defined.

(** X23. Over meals stored by [Meal.create], the [totalCalories] of
    [getDailySummary] and [getMealStats] is not negative.  When every meal
    has food items, it is what adding up, meal after meal, the calories of
    each meal's food items gives: a total handed in with a document is not
    counted.  The additions are those of doubles; when the calories are
    non-negative integers and all of them together stay below [2 ^ 53], the
    total is the exact sum of the calories of all the food items. *)
Theorem summary_total_is_sum_of_items meals :
  Forall (λ r, ∃ doc, Meal.create doc = Schema.Saved r) meals ->
  (0 <= totalCalories meals)%Q ∧
  (Forall (λ r, Meal.foodItems r ≠ []) meals ->
   totalCalories meals = fold_left (λ sum r, JS.add sum (itemTotal r)) meals 0%Q ∧
   (Forall (λ r, Forall (λ item, whole (default 0%Q (FoodItem.calories item)))
                   (Meal.foodItems r)) meals ->
    (calories_of_items meals < inject_Z (2 ^ 53))%Q ->
    (totalCalories meals == calories_of_items meals)%Q)).
Proof.
  intros H. split; [|intros Hne; split].
  - apply fold_add_nonneg; [done|].
    eapply Forall_impl; [exact H|]. intros r [doc Hdoc].
    destruct (Meal_create_stored doc r Hdoc) as (_ & q & -> & Hpos & _).
    by apply or_number_nonneg.
  - unfold totalCalories.
    assert (∀ acc,
              fold_left
                (λ sum meal, JS.add sum (JS.or_number (Meal.totalCalories meal) 0))
                meals acc
              = fold_left (λ sum r, JS.add sum (itemTotal r)) meals acc) as Haux;
      [|apply Haux].
    induction H as [|r meals [doc Hdoc] _ IH]; intros acc; cbn [fold_left];
      [done|].
    apply Forall_cons in Hne as [Hr Hne].
    destruct (Meal_create_stored doc r Hdoc) as (_ & q & Hq & _ & Hsum).
    rewrite Hq, (Hsum Hr).
    rewrite (add_proper acc (JS.or_number (Some (itemTotal r)) 0) acc (itemTotal r)
               (Qeq_refl acc) (or_number_default _)).
    by apply IH.
  - intros Hw Hlt. unfold totalCalories, calories_of_items in *.
    assert (Forall (λ r, (0 <= sum_calories (Meal.foodItems r))%Q) meals) as Hpos.
    { eapply Forall_impl; [exact Hw|]. intros r Hr. apply whole_nonneg.
      by apply (foldr_whole (λ item, default 0%Q (FoodItem.calories item))). }
    rewrite (fold_add_exact _ (λ r, sum_calories (Meal.foodItems r))).
    + apply Qplus_0_l.
    + apply whole_0.
    + apply Forall_forall. intros r Hr.
      rewrite Forall_forall in H, Hne, Hw.
      destruct (H r Hr) as [doc Hdoc].
      destruct (Meal_create_stored doc r Hdoc) as (_ & q & Hq & _ & Hsum).
      split.
      * rewrite Hq, or_number_default, (Hsum (Hne r Hr)).
        apply total_is_sum; [by apply Hw|].
        eapply Qle_lt_trans; [|exact Hlt].
        by apply (foldr_elem_le (λ r, sum_calories (Meal.foodItems r))).
      * apply (foldr_whole (λ item, default 0%Q (FoodItem.calories item))).
        by apply Hw.
    + by rewrite Qplus_0_l.
Qed.

(** Witness for X23: a meal at noon handed in with a total of 999, whose
    items have 180 calories and none. *)
Lemma summary_total_is_sum_of_items_witness :
  (totalCalories [Meal.preSave (Meal.init Plates.dal)] ==
   calories_of_items [Meal.preSave (Meal.init Plates.dal)])%Q ∧
  (calories_of_items [Meal.preSave (Meal.init Plates.dal)] == 180)%Q.
Proof.
  split; [|reflexivity].
  refine (proj2 (proj2 (summary_total_is_sum_of_items
                          [Meal.preSave (Meal.init Plates.dal)] _) _) _ _).
  - apply Forall_cons_2; [by exists Plates.dal|]. apply Forall_nil_2.
  - apply Forall_cons_2; [discriminate|]. apply Forall_nil_2.
  - apply Forall_cons_2; [|apply Forall_nil_2].
    apply Forall_cons_2; [exists 180%Z; split; [lia|reflexivity]|].
    apply Forall_cons_2; [exists 0%Z; split; [lia|reflexivity]|].
    apply Forall_nil_2.
  - reflexivity.
Defined.
